(** * SG108E-Mgmt: the scraping client of the TL-SG108E web console

    A shallow embedding of [index.js]: the quasi-JSON extractors
    ([extractTagContent], [extractVariable], [extractAttribute],
    [stripQuotes]), the codec tables ([SPEEDS], [SPEED2VALUE], [STATES]), the
    session routines ([_login], [_logout]) and the five public operations
    ([Diagnosis], [Info], [SetSwitch], [SetPort], [SetVLAN]); and of the
    earlier script that reads the same pages from a fixed address (module
    [Legacy]).

    Conventions of the embedding.
    - A JavaScript string is a [string]; every [ascii] stands for one UTF-16
      code unit below 256.
    - [null] and [undefined] results of the extractors are [None].
    - A Number is an integer [Z]; [NaN] is [None].
    - The regular expressions are run by a backtracking matcher over a small
      syntax tree, built the way the source concatenates the pattern text.  A
      name spliced into a pattern is taken literally, which is what
      [new RegExp] does for names made of letters, digits and [_]
      ([identifier]).
    - [fetch] is a transport oracle; every request is appended to a trace.
      [console.log] and [console.error] are not part of the model. *)

From Stdlib Require Import Strings.String Strings.Ascii Lists.List.
From Stdlib Require Import ZArith.ZArith Bool.Bool Arith.PeanoNat micromega.Lia.
From Stdlib Require Import Numbers.DecimalString.
From Stdlib Require Numbers.DecimalPos.
From Stdlib Require Import Sorting.Sorted.
Import ListNotations.

Local Open Scope bool_scope.
Local Open Scope string_scope.
Local Open Scope nat_scope.

(* ------------------------------------------------------------------ *)
(** ** Code units and the character classes of the patterns *)

Definition code (c : ascii) : nat := nat_of_ascii c.

(** [\s], which is also the set [String.prototype.trim] strips: TAB, LF, VT,
    FF, CR, SP and NBSP are its members below 256. *)
Definition is_space (c : ascii) : bool :=
  ((9 <=? code c) && (code c <=? 13)) || (code c =? 32) || (code c =? 160).

(** [\d] *)
Definition is_digit (c : ascii) : bool := (48 <=? code c) && (code c <=? 57).

Definition is_upper (c : ascii) : bool := (65 <=? code c) && (code c <=? 90).
Definition is_lower (c : ascii) : bool := (97 <=? code c) && (code c <=? 122).

(** [\w] *)
Definition is_word (c : ascii) : bool :=
  is_lower c || is_upper c || is_digit c || (code c =? 95).

(** [[a-zA-Z0-9-_]] *)
Definition is_name_char (c : ascii) : bool :=
  is_lower c || is_upper c || is_digit c || (code c =? 45) || (code c =? 95).

(** [[\s\S]] *)
Definition any_char (c : ascii) : bool := is_space c || negb (is_space c).

Definition is_char (x c : ascii) : bool := Ascii.eqb c x.
Definition not_char (x c : ascii) : bool := negb (Ascii.eqb c x).

(** Canonicalize of the [i] flag: the upper-case form when it is again a
    single code unit below 256. *)
Definition canonicalize (c : ascii) : ascii :=
  if is_lower c then ascii_of_nat (code c - 32)
  else if (224 <=? code c) && (code c <=? 254) && negb (code c =? 247)
       then ascii_of_nat (code c - 32)
  else c.

Definition is_char_ci (x c : ascii) : bool :=
  Ascii.eqb (canonicalize c) (canonicalize x).

(** A name that [new RegExp] reads as a literal. *)
Fixpoint identifier (s : string) : bool :=
  match s with
  | EmptyString => true
  | String c t => is_word c && identifier t
  end.

(* ------------------------------------------------------------------ *)
(** ** String primitives *)

Fixpoint trimStart (s : string) : string :=
  match s with
  | EmptyString => EmptyString
  | String c t => if is_space c then trimStart t else s
  end.

Fixpoint trimEnd (s : string) : string :=
  match s with
  | EmptyString => EmptyString
  | String c t =>
      match trimEnd t with
      | EmptyString => if is_space c then EmptyString else String c EmptyString
      | t' => String c t'
      end
  end.

Definition trim (s : string) : string := trimEnd (trimStart s).

(** [s.startsWith(c)] and [s.endsWith(c)] for a one-character [c]. *)
Definition startsWith (s : string) (c : ascii) : bool :=
  match s with
  | String d _ => Ascii.eqb d c
  | EmptyString => false
  end.

Fixpoint endsWith (s : string) (c : ascii) : bool :=
  match s with
  | EmptyString => false
  | String d EmptyString => Ascii.eqb d c
  | String _ t => endsWith t c
  end.

(** [s.replace(/^c/, '')] *)
Definition remove_leading (c : ascii) (s : string) : string :=
  match s with
  | String d t => if Ascii.eqb d c then t else s
  | EmptyString => EmptyString
  end.

(** [s.replace(/c$/, '')] *)
Fixpoint remove_trailing (c : ascii) (s : string) : string :=
  match s with
  | EmptyString => EmptyString
  | String d EmptyString => if Ascii.eqb d c then EmptyString else s
  | String d t => String d (remove_trailing c t)
  end.

(** [s.substr(n)] for [0 <= n]. *)
Fixpoint substr (n : nat) (s : string) : string :=
  match n, s with
  | O, _ => s
  | S n', String _ t => substr n' t
  | S _, EmptyString => EmptyString
  end.

(** [s.slice(0, -n)] for [0 < n]. *)
Definition slice_off (n : nat) (s : string) : string :=
  substring 0 (String.length s - n) s.

(** [s.split(',')] *)
Fixpoint split (sep : ascii) (s : string) : list string :=
  match s with
  | EmptyString => [EmptyString]
  | String c t =>
      if Ascii.eqb c sep then EmptyString :: split sep t
      else match split sep t with
           | h :: r => String c h :: r
           | [] => [String c EmptyString]
           end
  end.

(* ------------------------------------------------------------------ *)
(** ** The backtracking matcher *)

Module Regex.

(** The pattern syntax the source uses. *)
Inductive regex : Type :=
| Eps                                   (* empty pattern *)
| Chr (p : ascii -> bool)               (* one character of a class *)
| Seq (a b : regex)                     (* ab *)
| Alt (a b : regex)                     (* a|b *)
| Star (greedy : bool) (a : regex)      (* a* and a*? *)
| Plus (a : regex)                      (* a+ *)
| Opt (a : regex)                       (* a? *)
| Group (n : nat) (a : regex)           (* the n-th capturing group *)
| WordB.                                (* \b *)

(** The matcher's cursor: the character to its left, the text to its right
    and the captures so far. *)
Record mstate : Type := MState {
  before : option ascii;
  rest : string;
  caps : nat -> option string
}.

Definition cont : Type := mstate -> option mstate.

Definition no_caps : nat -> option string := fun _ => None.

Definition set_cap (n : nat) (v : string) (g : nat -> option string)
  : nat -> option string :=
  fun i => if Nat.eqb i n then Some v else g i.

Definition word_before (s : mstate) : bool :=
  match before s with Some c => is_word c | None => false end.

Definition word_after (s : mstate) : bool :=
  match rest s with String c _ => is_word c | EmptyString => false end.

Definition at_boundary (s : mstate) : bool :=
  xorb (word_before s) (word_after s).

(** The text between two cursors of one run. *)
Definition consumed (s s' : mstate) : string :=
  substring 0 (String.length (rest s) - String.length (rest s')) (rest s).

Definition progress (s s' : mstate) : bool :=
  String.length (rest s') <? String.length (rest s).

(** RepeatMatcher with [min = 0] and no upper bound: an iteration that
    consumes nothing is refused, so [String.length (rest s)] iterations are
    enough. *)
Fixpoint star_loop (greedy : bool) (body : mstate -> cont -> option mstate)
    (fuel : nat) (s : mstate) (k : cont) : option mstate :=
  match fuel with
  | O => k s
  | S f =>
      if greedy then
        match body s (fun s' => if progress s s'
                                then star_loop greedy body f s' k
                                else None) with
        | Some r => Some r
        | None => k s
        end
      else
        match k s with
        | Some r => Some r
        | None => body s (fun s' => if progress s s'
                                    then star_loop greedy body f s' k
                                    else None)
        end
  end.

Fixpoint rmatch (r : regex) (s : mstate) (k : cont) {struct r}
  : option mstate :=
  match r with
  | Eps => k s
  | Chr p =>
      match rest s with
      | String c t =>
          if p c then k (MState (Some c) t (caps s)) else None
      | EmptyString => None
      end
  | Seq a b => rmatch a s (fun s1 => rmatch b s1 k)
  | Alt a b =>
      match rmatch a s k with
      | Some x => Some x
      | None => rmatch b s k
      end
  | Star greedy a => star_loop greedy (rmatch a) (String.length (rest s)) s k
  | Plus a =>
      rmatch a s
        (fun s1 => star_loop true (rmatch a) (String.length (rest s1)) s1 k)
  | Opt a =>
      match rmatch a s (fun s' => if progress s s' then k s' else None) with
      | Some x => Some x
      | None => k s
      end
  | Group n a =>
      rmatch a s
        (fun s1 => k (MState (before s1) (rest s1)
                        (set_cap n (consumed s s1) (caps s1))))
  | WordB => if at_boundary s then k s else None
  end.

(** A literal text, and the same under the [i] flag. *)
Fixpoint lit (t : string) : regex :=
  match t with
  | EmptyString => Eps
  | String c t' => Seq (Chr (is_char c)) (lit t')
  end.

Fixpoint lit_ci (t : string) : regex :=
  match t with
  | EmptyString => Eps
  | String c t' => Seq (Chr (is_char_ci c)) (lit_ci t')
  end.

(** One attempt at the cursor, then the next start position: the leftmost
    match wins.  The result is the matched text and the final state. *)
Fixpoint search (r : regex) (b : option ascii) (txt : string)
  : option (string * mstate) :=
  let s := MState b txt no_caps in
  match rmatch r s Some with
  | Some s' => Some (consumed s s', s')
  | None =>
      match txt with
      | String c t => search r (Some c) t
      | EmptyString => None
      end
  end.

(** [txt.match(regex)] without the [g] flag. *)
Definition exec (r : regex) (txt : string) : option (string * mstate) :=
  search r None txt.

(** [txt.match(regex)] with the [g] flag: the matched texts from left to
    right; after an empty match the cursor moves one character on. *)
Fixpoint match_all_from (fuel : nat) (r : regex) (b : option ascii)
    (txt : string) : list string :=
  match fuel with
  | O => []
  | S f =>
      match search r b txt with
      | None => []
      | Some (m, s') =>
          m :: match m, rest s' with
               | EmptyString, String c t => match_all_from f r (Some c) t
               | EmptyString, EmptyString => []
               | _, _ => match_all_from f r (before s') (rest s')
               end
      end
  end.

Definition match_all (r : regex) (txt : string) : list string :=
  match_all_from (S (String.length txt)) r None txt.

(** [regex.test(txt)] for a pattern written between [^] and [$]: the only
    start is the beginning and the match must reach the end. *)
Definition test_anchored (r : regex) (txt : string) : bool :=
  match rmatch r (MState None txt no_caps)
          (fun s => match rest s with
                    | EmptyString => Some s
                    | _ => None
                    end) with
  | Some _ => true
  | None => false
  end.

End Regex.
Import Regex.

(* ------------------------------------------------------------------ *)
(** ** The extractors *)

Definition ws_star : regex := Star true (Chr is_space).

(** [extractTagContent(txt, tag, n)] *)
Definition backslash : string := String (ascii_of_nat 92) EmptyString.

Definition extractTagContent (txt tag : string) (n : nat) : option string :=
  let openTag := "<" ++ tag ++ ">" in
  let content := Group 1 (Star false (Chr any_char)) in
  let closeTag := "<" ++ backslash ++ "/" ++ tag ++ ">" in
  let regex := Seq (lit_ci openTag)
                 (Seq content (lit_ci ("</" ++ tag ++ ">"))) in
  let matches := match_all regex txt in
  if List.length matches <=? n then None
  else match nth_error matches n with
       | Some m => Some (slice_off (String.length closeTag) (substr (String.length openTag) m))
       | None => None
       end.

(** [extractVariable(txt, variable)] *)
Definition extractVariable (txt variable : string) : option string :=
  let varStart := Seq (lit variable) (Seq ws_star (Chr (is_char "="))) in
  let content := Group 1 (Star false (Chr any_char)) in
  let varEnd := Chr (is_char ";") in
  let regex := Seq varStart (Seq content varEnd) in
  match exec regex txt with
  | None => None
  | Some (_, m) => option_map trim (caps m 1)
  end.

(** The double quote. *)
Definition dquote : ascii := ascii_of_nat 34.

(** [stripQuotes(txt)] *)
Definition stripQuotes (txt : string) : string :=
  if startsWith txt dquote && endsWith txt dquote then
    remove_trailing dquote (remove_leading dquote txt)
  else if startsWith txt "'" && endsWith txt "'" then
    remove_trailing "'" (remove_leading "'" txt)
  else txt.

(** The five value shapes of [extractAttribute]. *)
Definition aString : regex :=
  Seq (Chr (is_char "'"))
    (Seq (Group 1 (Star true (Chr (not_char "'")))) (Chr (is_char "'"))).

Definition aBoolean : regex :=
  Seq WordB (Seq (Group 2 (Alt (lit "true") (lit "false"))) WordB).

Definition aNumber : regex :=
  Seq WordB
    (Seq (Opt (Group 3 (Seq (Plus (Chr is_digit))
                          (Seq (Opt (Chr (is_char ".")))
                               (Opt (Chr is_digit))))))
         WordB).

Definition aList : regex :=
  Seq (Chr (is_char "["))
    (Seq (Group 4 (Star true (Chr (not_char "]")))) (Chr (is_char "]"))).

Definition aDict : regex :=
  Seq (Chr (is_char "{"))
    (Seq (Group 5 (Star true (Chr (not_char "}")))) (Chr (is_char "}"))).

Definition attribute_regex (attribute : string) : regex :=
  Seq (lit attribute)
    (Seq ws_star
       (Seq (Chr (is_char ":"))
          (Seq ws_star
             (Alt aString (Alt aBoolean (Alt aNumber (Alt aList aDict))))))).

(** [if (match[i])]: a group that took part with a non-empty text. *)
Definition truthy_group (m : mstate) (i : nat) : option string :=
  match caps m i with
  | Some EmptyString => None
  | Some v => Some v
  | None => None
  end.

(** The loop [for (let i = 1; i <= 5; i++)] of [extractAttribute]. *)
Fixpoint first_group (m : mstate) (i count : nat) : option string :=
  match count with
  | O => None
  | S count' =>
      match truthy_group m i with
      | Some v =>
          let value := trim v in
          Some (if negb (Nat.eqb i 4) && negb (Nat.eqb i 5)
                then stripQuotes value else value)
      | None => first_group m (S i) count'
      end
  end.

(** [extractAttribute(txt, attribute)] *)
Definition extractAttribute (txt attribute : string) : option string :=
  match exec (attribute_regex attribute) txt with
  | None => None
  | Some (_, m) => first_group m 1 5
  end.

(* ------------------------------------------------------------------ *)
(** ** Numbers *)

(** The Number nearest to a non-negative integer: 53 significant bits,
    ties to even.  (A result of [2^1024] or more stands for Infinity.) *)
Definition toNumber (z : Z) : Z :=
  if (z <? 2 ^ 53)%Z then z
  else
    let e := (Z.log2 z - 52)%Z in
    let q := Z.shiftr z e in
    let r := Z.land z (2 ^ e - 1) in
    let half := (2 ^ (e - 1))%Z in
    let q' := if (half <? r)%Z || ((r =? half)%Z && Z.odd q)
              then (q + 1)%Z else q in
    Z.shiftl q' e.

Definition digit_value (c : ascii) : option nat :=
  if is_digit c then Some (code c - 48)
  else if is_lower c then Some (code c - 87)
  else if is_upper c then Some (code c - 55)
  else None.

(** The longest prefix of digits of radix [R]; [acc] is the value read so
    far, [None] before the first digit. *)
Fixpoint read_digits (R : nat) (s : string) (acc : option Z) : option Z :=
  match s with
  | EmptyString => acc
  | String c t =>
      match digit_value c with
      | Some d =>
          if d <? R then
            read_digits R t
              (Some (match acc with Some a => a | None => 0 end
                     * Z.of_nat R + Z.of_nat d)%Z)
          else acc
      | None => acc
      end
  end.

Definition strip_0x (s : string) : option string :=
  match s with
  | String "0" (String "x" t) => Some t
  | String "0" (String "X" t) => Some t
  | _ => None
  end.

(** [parseInt(s, radix)] for a string [s]; the radix is absent ([None]) or
    between 2 and 36.  [None] is NaN. *)
Definition parseInt (s : string) (radix : option nat) : option Z :=
  let S1 := trimStart s in
  let '(negative, S2) :=
    match S1 with
    | String "-" t => (true, t)
    | String "+" t => (false, t)
    | _ => (false, S1)
    end in
  let '(R, S3) :=
    match radix with
    | Some 16 => (16, match strip_0x S2 with Some t => t | None => S2 end)
    | Some R => (R, S2)
    | None => match strip_0x S2 with Some t => (16, t) | None => (10, S2) end
    end in
  match read_digits R S3 None with
  | None => None
  | Some v => Some (if negative then - toNumber v else toNumber v)%Z
  end.

(** [parseInt(x)] where [x] may be [null] or [undefined]: their texts hold no
    digit of radix 10 or 16. *)
Definition parseInt_opt (x : option string) (radix : option nat) : option Z :=
  match x with
  | Some s => parseInt s radix
  | None => None
  end.

(** The text of an integer Number below [10^21] in magnitude. *)
Definition number_to_string (z : Z) : string :=
  NilZero.string_of_int (Z.to_int z).

(** [parseInt(x)] for a Number argument goes through its text: for an
    integer below [10^21] in magnitude that is the decimal text.  (From
    [10^21] on the text is in exponent notation, of which [parseInt] reads
    the first digit; this is not covered.) *)
Definition parseInt_number (z : Z) : option Z :=
  parseInt (number_to_string z) None.

(** ToInt32 *)
Definition toInt32 (v : option Z) : Z :=
  match v with
  | None => 0
  | Some z => ((z + 2 ^ 31) mod 2 ^ 32 - 2 ^ 31)%Z
  end.

(* ------------------------------------------------------------------ *)
(** ** Values and codec tables *)

(** The values the routines store or splice into a URL.  [Obj text] is an
    object or function, with the text string concatenation gives it. *)
Inductive jsval : Type :=
| Undefined
| NaN
| Num (z : Z)
| Str (s : string)
| Obj (text : string).

Definition truthy (v : jsval) : bool :=
  match v with
  | Undefined => false
  | NaN => false
  | Num z => negb (z =? 0)%Z
  | Str s => negb (String.eqb s "")
  | Obj _ => true
  end.

Definition to_string (v : jsval) : string :=
  match v with
  | Undefined => "undefined"
  | NaN => "NaN"
  | Num z => number_to_string z
  | Str s => s
  | Obj text => text
  end.

Definition of_number (n : option Z) : jsval :=
  match n with
  | Some z => Num z
  | None => NaN
  end.

Definition LOGIN_PATH       : string := ":80/logon.cgi".
Definition LOGOUT_PATH      : string := ":80/Logout.htm".
Definition SWITCH_INFO_PATH : string := ":80/SystemInfoRpm.htm".
Definition PORT_INFO_1_PATH : string := ":80/PortSettingRpm.htm".
Definition PORT_INFO_2_PATH : string := ":80/PortStatisticsRpm.htm".
Definition VLAN_INFO_PATH   : string := ":80/Vlan8021QRpm.htm".
Definition SWITCH_PATH      : string := ":80/system_name_set.cgi".
Definition VLAN_PATH        : string := ":80/qvlanSet.cgi".
Definition PORT_PATH        : string := ":80/port_setting.cgi".

Definition SPEEDS : list string :=
  ["down"; "Auto"; "10MH"; "10MF"; "100MH"; "100MF"; "1000MF"; ""].

Definition STATES : list string := ["Disabled"; "Enabled"].

(** The own properties of the object literal [SPEED2VALUE]. *)
Definition SPEED2VALUE_own : list (string * Z) :=
  [("down", 0); ("Auto", 1); ("10MH", 2); ("10MF", 3); ("100MH", 4);
   ("100MF", 5); ("1000MF", 6); ("", 7)]%Z.

(** The members an object literal inherits from [Object.prototype], with
    the text of each. *)
Definition native (name : string) : string :=
  "function " ++ name ++ "() { [native code] }".

Definition Object_prototype : list (string * string) :=
  [("constructor", native "Object");
   ("__defineGetter__", native "__defineGetter__");
   ("__defineSetter__", native "__defineSetter__");
   ("hasOwnProperty", native "hasOwnProperty");
   ("__lookupGetter__", native "__lookupGetter__");
   ("__lookupSetter__", native "__lookupSetter__");
   ("isPrototypeOf", native "isPrototypeOf");
   ("propertyIsEnumerable", native "propertyIsEnumerable");
   ("toString", native "toString");
   ("valueOf", native "valueOf");
   ("__proto__", "[object Object]");
   ("toLocaleString", native "toLocaleString")].

Fixpoint assoc {A : Type} (key : string) (l : list (string * A)) : option A :=
  match l with
  | [] => None
  | (k, v) :: l' => if String.eqb key k then Some v else assoc key l'
  end.

(** [SPEED2VALUE[speed]] *)
Definition SPEED2VALUE (speed : string) : jsval :=
  match assoc speed SPEED2VALUE_own with
  | Some z => Num z
  | None =>
      match assoc speed Object_prototype with
      | Some text => Obj text
      | None => Undefined
      end
  end.

(** [table[n]] for a Number [n]. *)
Definition at_number (table : list string) (n : option Z) : jsval :=
  match n with
  | Some z =>
      if (z <? 0)%Z then Undefined
      else match nth_error table (Z.to_nat z) with
           | Some s => Str s
           | None => Undefined
           end
  | None => Undefined
  end.

(** [table[key]] for a text [key] (or [undefined]): an element when the key
    is the canonical text of an index.  The device sends digits only; a key
    that names a property the table inherits as an array ([length],
    [constructor], ...) is not covered: every such name has a letter, and
    the statements about the pages are on keys without a letter
    ([no_letter]). *)
Definition at_key (table : list string) (key : option string) : jsval :=
  match key with
  | Some k =>
      match parseInt k (Some 10) with
      | Some z =>
          if (0 <=? z)%Z && String.eqb (number_to_string z) k
          then at_number table (Some z) else Undefined
      | None => Undefined
      end
  | None => Undefined
  end.

(** The two loops of [_vlanInfo] over the 16 bits of a membership mask. *)
Definition isBitSet (value : option Z) (portIndex : nat) : bool :=
  negb (Z.land (toInt32 value) (Z.shiftl 1 (Z.of_nat portIndex)) =? 0)%Z.

Definition members_of (value : option Z) : list Z :=
  fold_left
    (fun members portIndex =>
       if isBitSet value portIndex
       then (members ++ [Z.of_nat portIndex + 1])%list%Z
       else members)
    (seq 0 16) [].

(** The decoding of one entry of [tagMbrs] or [untagMbrs]. *)
Definition decode_members (entry : option string) : list Z :=
  members_of (parseInt_opt entry (Some 16)).

(* ------------------------------------------------------------------ *)
(** ** Transport, traces and programs *)

(** A thrown value, by its [name]. *)
Inductive exn : Type := Exn (name : string).

Definition exn_name (e : exn) : string := match e with Exn n => n end.

Definition AbortError : exn := Exn "AbortError".
Definition TypeError : exn := Exn "TypeError".

(** One call of [fetch]: the method, the URL, the form fields handed to
    [stringify] for the body, and the delay of [AbortSignal.timeout]. *)
Record request : Type := Request {
  method : string;
  url : string;
  form : list (string * string);
  signal : option Z
}.

Record response : Type := Response {
  status : Z;
  text : string
}.

Definition GET (u : string) : request := Request "GET" u [] None.

(** The device and the network: the answer to a request after the requests
    sent before it, a response or a rejection. *)
Definition transport : Type := list request -> request -> exn + response.

(** How a routine ends: it returns, it throws, or the process exits. *)
Inductive outcome (A : Type) : Type :=
| Return (a : A)
| Throw (e : exn)
| Exit (code : Z).
Arguments Return {A} a.
Arguments Throw {A} e.
Arguments Exit {A} code.

(** A routine with local variables of type [L]: it runs against a transport
    and extends the trace of requests. *)
Definition Prog (L A : Type) : Type :=
  transport -> L -> list request -> L * list request * outcome A.

Definition ret {L A : Type} (a : A) : Prog L A :=
  fun _ l h => (l, h, Return a).

Definition bind {L A B : Type} (m : Prog L A) (f : A -> Prog L B) : Prog L B :=
  fun tr l h =>
    match m tr l h with
    | (l', h', Return a) => f a tr l' h'
    | (l', h', Throw e) => (l', h', Throw e)
    | (l', h', Exit c) => (l', h', Exit c)
    end.

Notation "x <- m ;; k" := (bind m (fun x => k))
  (at level 61, m at next level, right associativity).
Notation "m ;; k" := (bind m (fun _ => k))
  (at level 61, right associativity).

Definition throw {L A : Type} (e : exn) : Prog L A :=
  fun _ l h => (l, h, Throw e).

(** [process.exit(code)] *)
Definition exit {L A : Type} (c : Z) : Prog L A :=
  fun _ l h => (l, h, Exit c).

Definition get {L : Type} : Prog L L :=
  fun _ l h => (l, h, Return l).

Definition put {L : Type} (l : L) : Prog L unit :=
  fun _ _ h => (l, h, Return tt).

(** [try { body } catch (error) { handler }] *)
Definition try_catch {L A : Type} (body : Prog L A) (handler : exn -> Prog L A)
  : Prog L A :=
  fun tr l h =>
    match body tr l h with
    | (l', h', Throw e) => handler e tr l' h'
    | r => r
    end.

(** [await fetch(...)] *)
Definition fetch {L : Type} (rq : request) : Prog L response :=
  fun tr l h =>
    match tr h rq with
    | inl e => ((l, h ++ [rq])%list, Throw e)
    | inr r => ((l, h ++ [rq])%list, Return r)
    end.

(** A call of a routine that has its own local variables. *)
Definition call {L L' A : Type} (init : L') (m : Prog L' A) : Prog L A :=
  fun tr l h =>
    match m tr init h with
    | (_, h', o) => (l, h', o)
    end.

(** [for (var i = from; i < bound; i++) body], [count] iterations. *)
Fixpoint for_loop {L : Type} (count from : nat) (body : nat -> Prog L unit)
  : Prog L unit :=
  match count with
  | O => ret tt
  | S count' => body from ;; for_loop count' (S from) body
  end.

Definition for_upto {L : Type} (bound : option Z) (body : nat -> Prog L unit)
  : Prog L unit :=
  match bound with
  | Some n => for_loop (Z.to_nat n) 0 body
  | None => ret tt
  end.

Definition when {L : Type} (c : bool) (m : Prog L unit) : Prog L unit :=
  if c then m else ret tt.

(** Running a routine from an empty trace. *)
Definition run {L A : Type} (m : Prog L A) (tr : transport) (l : L)
  : L * list request * outcome A := m tr l [].

Definition trace_of {L A : Type} (m : Prog L A) (tr : transport) (l : L)
  : list request := snd (fst (run m tr l)).

Definition result_of {L A : Type} (m : Prog L A) (tr : transport) (l : L)
  : outcome A := snd (run m tr l).

(* ------------------------------------------------------------------ *)
(** ** Session routines and the write operations *)

Definition login_request (server username password : string)
    (sig : option Z) : request :=
  Request "POST" ("http://" ++ server ++ LOGIN_PATH)
    [("username", username); ("password", password); ("logon", "Login")]
    sig.

Definition logout_request (server : string) : request :=
  GET ("http://" ++ server ++ LOGOUT_PATH).

(** [_login(server, username, password)] *)
Definition _login {L : Type} (server username password : string)
  : Prog L unit :=
  fetch (login_request server username password None) ;; ret tt.

(** [_logout(server)] *)
Definition _logout {L : Type} (server : string) : Prog L unit :=
  fetch (logout_request server) ;; ret tt.

(** [/^[a-zA-Z0-9-_]+$/.test(name)] *)
Definition name_regex_test (name : string) : bool :=
  test_anchored (Plus (Chr is_name_char)) name.

Definition rename_url (server name : string) : string :=
  "http://" ++ server ++ SWITCH_PATH ++ "?sysName=" ++ name.

Definition vlan_mode_url (server : string) (vlan : Z) : string :=
  "http://" ++ server ++ VLAN_PATH ++ "?qvlan_en=" ++ number_to_string vlan
  ++ "&qvlan_mode=Apply".

(** [SetSwitch(server, username, password, name, vlan)], for a text [name]
    and an integer [vlan]. *)
Definition SetSwitch (server username password name : string) (vlan : Z)
  : Prog unit unit :=
  _login server username password ;;
  when ((truthy (Str name) && negb (String.eqb name "")
         && (String.length name <? 32))
        || name_regex_test name)
       (fetch (GET (rename_url server name)) ;; ret tt) ;;
  when (truthy (Num vlan) && ((vlan =? 0)%Z || (vlan =? 1)%Z))
       (fetch (GET (vlan_mode_url server vlan)) ;; ret tt) ;;
  _logout server.

Definition port_url (server : string) (portIndex mode speedIndex : jsval)
  : string :=
  "http://" ++ server ++ PORT_PATH ++ "?portid=" ++ to_string portIndex
  ++ "&state=" ++ to_string mode ++ "&speed=" ++ to_string speedIndex
  ++ "&flowcontrol=0&apply=Apply".

(** [a <= b] and [a === b] on Numbers: false when an operand is NaN. *)
Definition num_le (a b : option Z) : bool :=
  match a, b with
  | Some x, Some y => (x <=? y)%Z
  | _, _ => false
  end.

Definition num_eq (a b : option Z) : bool :=
  match a, b with
  | Some x, Some y => (x =? y)%Z
  | _, _ => false
  end.

(** [SetPort(server, username, password, port, state, speed)], for integer
    [port] and [state] and a text [speed]. *)
Definition SetPort (server username password : string) (port state : Z)
    (speed : string) : Prog unit unit :=
  _login server username password ;;
  let portIndex := parseInt_number port in
  let mode := parseInt_number state in
  let speedIndex := SPEED2VALUE speed in
  when (num_le (Some 1%Z) portIndex && num_le portIndex (Some 8%Z)
        && (num_eq mode (Some 0%Z) || num_eq mode (Some 1%Z))
        && truthy speedIndex)
       (fetch (GET (port_url server (of_number portIndex) (of_number mode)
                      speedIndex)) ;; ret tt) ;;
  _logout server.

Definition vlan_delete_url (server : string) (vlanIndex : jsval) : string :=
  "http://" ++ server ++ VLAN_PATH ++ "?selVlans=" ++ to_string vlanIndex
  ++ "&qvlan_del=Delete".

(** [Array.isArray(members)]: the argument is typed as an array. *)
Definition isArray (members : list Z) : bool := true.

(** [members.includes(p)] on an array of integers. *)
Definition includes (members : list Z) (p : Z) : bool :=
  existsb (Z.eqb p) members.

Definition selType (members : list Z) (p : Z) : string :=
  "&selType_" ++ number_to_string p ++ "="
  ++ number_to_string (if includes members p then 1 else 2)%Z.

Definition vlan_modify_url (server : string) (vlanIndex : jsval)
    (name : string) (members : list Z) : string :=
  let url2 := "http://" ++ server ++ VLAN_PATH ++ "?vid="
              ++ to_string vlanIndex ++ "&vname=" ++ name in
  let url2 := url2 ++ selType members 1 in
  let url2 := url2 ++ selType members 2 in
  let url2 := url2 ++ selType members 3 in
  let url2 := url2 ++ selType members 4 in
  let url2 := url2 ++ selType members 5 in
  let url2 := url2 ++ selType members 6 in
  let url2 := url2 ++ selType members 7 in
  let url2 := url2 ++ selType members 8 in
  url2 ++ "&qvlan_add=Add%2FModify".

(** [SetVLAN(server, username, password, vlan, name, members)], for an
    integer [vlan], a text [name] and an array [members] of integers
    ([Array.isArray(members)] holds). *)
Definition SetVLAN (server username password : string) (vlan : Z)
    (name : string) (members : list Z) : Prog unit unit :=
  _login server username password ;;
  let vlanIndex := parseInt_number vlan in
  when (num_le (Some 2%Z) vlanIndex && num_le vlanIndex (Some 32%Z)
        && truthy (Str name) && negb (String.eqb name "")
        && name_regex_test name && isArray members)
       (if List.length members =? 0 then
          fetch (GET (vlan_delete_url server (of_number vlanIndex))) ;; ret tt
        else
          fetch (GET (vlan_modify_url server (of_number vlanIndex) name
                        members)) ;; ret tt) ;;
  _logout server.

(** [Diagnosis(server, username, password)]; the local variable is
    [connection_state]. *)
Definition Diagnosis (server username password : string)
  : Prog string string :=
  put "not accessible" ;;
  try_catch
    (fetch (login_request server username password (Some 1000%Z)) ;;
     put "not authorized" ;;
     response2 <- fetch (GET ("http://" ++ server ++ SWITCH_INFO_PATH)) ;;
     let status2 := status response2 in
     when (status2 =? 200)%Z (put "authorized") ;;
     fetch (GET ("http://" ++ server ++ LOGOUT_PATH)) ;; ret tt)
    (fun error =>
       when (negb (String.eqb (exn_name error) "AbortError")) (exit 1%Z)) ;;
  connection_state <- get ;;
  ret connection_state.

(* ------------------------------------------------------------------ *)
(** ** The read operation *)

(** The objects [Info] builds.  A field is [None] until the routine assigns
    the property. *)
Record Port : Type := MkPort {
  number : option jsval;
  state : option jsval;
  speed : option jsval;
  link : option jsval;
  TxGoodPkt : option jsval;
  TxBadPkt : option jsval;
  RxGoodPkt : option jsval;
  RxBadPkt : option jsval
}.

Record Vlan : Type := MkVlan {
  vlan_name : option jsval;
  vlan_id : option jsval;
  tagged : option (list Z);
  untagged : option (list Z)
}.

(** An array with holes: [None] is an index that was never assigned. *)
Definition array (A : Type) : Type := list (option A).

Record Switch : Type := MkSwitch {
  hardware : option jsval;
  fimrware : option jsval;
  name : option jsval;
  mac : option jsval;
  ip : option jsval;
  netmask : option jsval;
  gateway : option jsval;
  vlan : option jsval;
  ports : option (array Port);
  vlans : option (array Vlan)
}.

(** [{}] *)
Definition empty_port : Port :=
  MkPort None None None None None None None None.
Definition empty_vlan : Vlan := MkVlan None None None None.
Definition empty_switch : Switch :=
  MkSwitch None None None None None None None None None None.

(** [a[i]]: [None] is [undefined]. *)
Definition array_get {A : Type} (a : array A) (i : nat) : option A :=
  match nth_error a i with
  | Some (Some x) => Some x
  | _ => None
  end.

(** [a[i] = x]: an index past the end extends the array over holes. *)
Fixpoint array_set {A : Type} (a : array A) (i : nat) (x : A) : array A :=
  match i, a with
  | O, [] => [Some x]
  | O, _ :: a' => Some x :: a'
  | S i', [] => None :: array_set [] i' x
  | S i', y :: a' => y :: array_set a' i' x
  end.

Definition set_ports (s : Switch) (p : option (array Port)) : Switch :=
  MkSwitch (hardware s) (fimrware s) (name s) (mac s) (ip s) (netmask s)
    (gateway s) (vlan s) p (vlans s).

Definition set_vlans (s : Switch) (v : option (array Vlan)) : Switch :=
  MkSwitch (hardware s) (fimrware s) (name s) (mac s) (ip s) (netmask s)
    (gateway s) (vlan s) (ports s) v.

Definition set_vlan (s : Switch) (v : jsval) : Switch :=
  MkSwitch (hardware s) (fimrware s) (name s) (mac s) (ip s) (netmask s)
    (gateway s) (Some v) (ports s) (vlans s).

(** [if (scrpt)]: neither [null] nor the empty text. *)
Definition script_present (scrpt : option string) : option string :=
  match scrpt with
  | Some EmptyString => None
  | Some s => Some s
  | None => None
  end.

(** [stripQuotes(x)] where [x] may be [null] or [undefined]:
    [x.startsWith] throws then. *)
Definition stripQuotes_of {L : Type} (x : option string) : Prog L jsval :=
  match x with
  | Some s => ret (Str (stripQuotes s))
  | None => throw TypeError
  end.

(** [x.split(',')] where [x] may be [null]. *)
Definition split_of {L : Type} (x : option string) : Prog L (list string) :=
  match x with
  | Some s => ret (split "," s)
  | None => throw TypeError
  end.

(** [swtch.ports[portIndex] = {}] *)
Definition allocate_port (portIndex : nat) : Prog Switch unit :=
  swtch <- get ;;
  match ports swtch with
  | Some a => put (set_ports swtch (Some (array_set a portIndex empty_port)))
  | None => throw TypeError
  end.

(** [const port = swtch.ports[portIndex]; ...] followed by assignments to
    the properties of [port]: the lookup throws when [swtch.ports] is
    undefined, the first assignment when [port] is. *)
Definition update_port (portIndex : nat) (f : Port -> Port)
  : Prog Switch unit :=
  swtch <- get ;;
  match ports swtch with
  | Some a =>
      match array_get a portIndex with
      | Some port =>
          put (set_ports swtch (Some (array_set a portIndex (f port))))
      | None => throw TypeError
      end
  | None => throw TypeError
  end.

(** [_portInfo1(server, swtch)] *)
Definition _portInfo1 (server : string) : Prog Switch unit :=
  response <- fetch (GET ("http://" ++ server ++ PORT_INFO_1_PATH)) ;;
  let data := text response in
  match script_present (extractTagContent data "script" 0) with
  | Some scrpt =>
      let ports := parseInt_opt (extractVariable scrpt "max_port_num") None in
      states <- split_of (extractAttribute scrpt "state") ;;
      speeds <- split_of (extractAttribute scrpt "spd_act") ;;
      for_upto ports (fun portIndex =>
        allocate_port portIndex ;;
        update_port portIndex (fun port =>
          MkPort
            (Some (Num (Z.of_nat portIndex + 1)))
            (Some (at_number STATES
                     (parseInt_opt (nth_error states portIndex) None)))
            (Some (at_key SPEEDS (nth_error speeds portIndex)))
            (link port) (TxGoodPkt port) (TxBadPkt port)
            (RxGoodPkt port) (RxBadPkt port)))
  | None => ret tt
  end.

(** [_portInfo2(server, swtch)] *)
Definition _portInfo2 (server : string) : Prog Switch unit :=
  response <- fetch (GET ("http://" ++ server ++ PORT_INFO_2_PATH)) ;;
  let data := text response in
  match script_present (extractTagContent data "script" 0) with
  | Some scrpt =>
      let ports := parseInt_opt (extractVariable scrpt "max_port_num") None in
      links <- split_of (extractAttribute scrpt "link_status") ;;
      pkts <- split_of (extractAttribute scrpt "pkts") ;;
      for_upto ports (fun portIndex =>
        update_port portIndex (fun port =>
          let pkt k := of_number
                         (parseInt_opt (nth_error pkts (4 * portIndex + k))
                            None) in
          MkPort (number port) (state port) (speed port)
            (Some (at_key SPEEDS (nth_error links portIndex)))
            (Some (pkt 0)) (Some (pkt 1)) (Some (pkt 2)) (Some (pkt 3))))
  | None => ret tt
  end.

(** [swtch.vlans[vlanIndex] = {}] and the assignments to its properties. *)
Definition allocate_vlan (vlanIndex : nat) : Prog Switch unit :=
  swtch <- get ;;
  match vlans swtch with
  | Some a => put (set_vlans swtch (Some (array_set a vlanIndex empty_vlan)))
  | None => throw TypeError
  end.

Definition update_vlan (vlanIndex : nat) (f : Vlan -> Vlan)
  : Prog Switch unit :=
  swtch <- get ;;
  match vlans swtch with
  | Some a =>
      match array_get a vlanIndex with
      | Some v => put (set_vlans swtch (Some (array_set a vlanIndex (f v))))
      | None => throw TypeError
      end
  | None => throw TypeError
  end.

(** [_vlanInfo(server, swtch)] *)
Definition _vlanInfo (server : string) : Prog Switch unit :=
  response <- fetch (GET ("http://" ++ server ++ VLAN_INFO_PATH)) ;;
  let data := text response in
  match script_present (extractTagContent data "script" 0) with
  | Some scrpt =>
      swtch <- get ;;
      put (set_vlan swtch
             (at_number STATES
                (parseInt_opt (extractAttribute scrpt "state") None))) ;;
      let vlans := parseInt_opt (extractAttribute scrpt "count") None in
      vids <- split_of (extractAttribute scrpt "vids") ;;
      names <- split_of (extractAttribute scrpt "names") ;;
      tag <- split_of (extractAttribute scrpt "tagMbrs") ;;
      untag <- split_of (extractAttribute scrpt "untagMbrs") ;;
      for_upto vlans (fun vlanIndex =>
        allocate_vlan vlanIndex ;;
        vname <- stripQuotes_of (nth_error names vlanIndex) ;;
        update_vlan vlanIndex (fun _ =>
          MkVlan
            (Some vname)
            (Some (of_number (parseInt_opt (nth_error vids vlanIndex) None)))
            (Some (decode_members (nth_error tag vlanIndex)))
            (Some (decode_members (nth_error untag vlanIndex)))))
  | None => ret tt
  end.

(** [_switchInfo(server)]; the local variable is [swtch], and the result
    [{switch: swtch}] is given by its one property. *)
Definition _switchInfo (server : string) : Prog Switch Switch :=
  put empty_switch ;;
  response <- fetch (GET ("http://" ++ server ++ SWITCH_INFO_PATH)) ;;
  let data := text response in
  match script_present (extractTagContent data "script" 0) with
  | Some scrpt =>
      hardware <- stripQuotes_of (extractAttribute scrpt "hardwareStr") ;;
      fimrware <- stripQuotes_of (extractAttribute scrpt "firmwareStr") ;;
      name <- stripQuotes_of (extractAttribute scrpt "descriStr") ;;
      mac <- stripQuotes_of (extractAttribute scrpt "macStr") ;;
      ip <- stripQuotes_of (extractAttribute scrpt "ipStr") ;;
      netmask <- stripQuotes_of (extractAttribute scrpt "netmaskStr") ;;
      gateway <- stripQuotes_of (extractAttribute scrpt "gatewayStr") ;;
      put (MkSwitch (Some hardware) (Some fimrware) (Some name) (Some mac)
             (Some ip) (Some netmask) (Some gateway)
             (Some (at_number STATES (Some 0%Z))) (Some []) (Some []))
  | None => ret tt
  end ;;
  _portInfo1 server ;;
  _portInfo2 server ;;
  _vlanInfo server ;;
  swtch <- get ;;
  ret swtch.

(** [Info(server, username, password)] *)
Definition Info (server username password : string) : Prog unit Switch :=
  _login server username password ;;
  result <- call empty_switch (_switchInfo server) ;;
  _logout server ;;
  ret result.

(* ------------------------------------------------------------------ *)
(** ** Derived forms of the matcher, for the proofs *)

Fixpoint all_chars (p : ascii -> bool) (s : string) : bool :=
  match s with
  | EmptyString => true
  | String c t => p c && all_chars p t
  end.

(** The next character is none of class [p]. *)
Definition stops (p : ascii -> bool) (s : string) : bool :=
  match s with
  | EmptyString => true
  | String c _ => negb (p c)
  end.

(** The character left of the cursor once [w] has been read. *)
Fixpoint last_of (b : option ascii) (w : string) : option ascii :=
  match w with
  | EmptyString => b
  | String c t => last_of (Some c) t
  end.

(** [p*] by recursion on the text: the longest run first, then shorter
    ones. *)
Fixpoint greedy_class (p : ascii -> bool) (b : option ascii) (txt : string)
    (g : nat -> option string) (k : cont) : option mstate :=
  match txt with
  | String c t =>
      if p c then
        match greedy_class p (Some c) t g k with
        | Some r => Some r
        | None => k (MState b txt g)
        end
      else k (MState b txt g)
  | EmptyString => k (MState b txt g)
  end.

(** [p*?] by recursion on the text: the shortest run first. *)
Fixpoint lazy_class (p : ascii -> bool) (b : option ascii) (txt : string)
    (g : nat -> option string) (k : cont) : option mstate :=
  match k (MState b txt g) with
  | Some r => Some r
  | None =>
      match txt with
      | String c t => if p c then lazy_class p (Some c) t g k else None
      | EmptyString => None
      end
  end.

Fixpoint strip_prefix (p txt : string) : option string :=
  match p, txt with
  | EmptyString, _ => Some txt
  | String a p', String b t =>
      if Ascii.eqb b a then strip_prefix p' t else None
  | String _ _, EmptyString => None
  end.

(** The text before the first [c]; [None] when there is no [c]. *)
Fixpoint until_char (c : ascii) (txt : string) : option string :=
  match txt with
  | EmptyString => None
  | String d t =>
      if Ascii.eqb d c then Some EmptyString
      else option_map (String d) (until_char c t)
  end.

(** The text after the first [c]. *)
Fixpoint after_char (c : ascii) (txt : string) : string :=
  match txt with
  | EmptyString => EmptyString
  | String d t => if Ascii.eqb d c then t else after_char c t
  end.

(** Some occurrence of [a] starts among the first [n] positions of [txt]. *)
Fixpoint occurs_within (a txt : string) (n : nat) : bool :=
  match n with
  | O => false
  | S n' =>
      match strip_prefix a txt with
      | Some _ => true
      | None =>
          match txt with
          | String _ t => occurs_within a t n'
          | EmptyString => false
          end
      end
  end.

(* ------------------------------------------------------------------ *)
(** ** Statements of the specification, for comparison with the code *)

(** [extractVariable] in the words of its description: the text after the
    first occurrence of the name, optional white space and [=], up to the
    next semicolon, trimmed. *)
Fixpoint after_assignment (name txt : string) : option string :=
  let here :=
    match strip_prefix name txt with
    | Some t =>
        match trimStart t with
        | String c t' => if Ascii.eqb c "=" then Some t' else None
        | EmptyString => None
        end
    | None => None
    end in
  match here with
  | Some t' => Some t'
  | None =>
      match txt with
      | String _ t => after_assignment name t
      | EmptyString => None
      end
  end.

Definition extractVariable_spec (txt name : string) : option string :=
  match after_assignment name txt with
  | Some t => option_map trim (until_char ";" t)
  | None => None
  end.

(** The membership decoding as the specification words it: ports 1..8
    only. *)
Definition members_within_8 (entry : string) : Prop :=
  forall p : Z,
    In p (decode_members (Some entry)) <->
    (1 <= p <= 8)%Z /\
    exists v, parseInt entry (Some 16) = Some v /\ Z.testbit v (p - 1) = true.

(** The five value shapes in their order of priority. *)
Definition shapes : regex :=
  Alt aString (Alt aBoolean (Alt aNumber (Alt aList aDict))).

(** No word character stands left of the cursor. *)
Definition nonword_before (b : option ascii) : bool :=
  match b with
  | Some c => negb (is_word c)
  | None => true
  end.

(** The key pattern of [extractAttribute] in front of one value shape. *)
Definition key_then (attribute : string) (shape : regex) : regex :=
  Seq (lit attribute)
    (Seq ws_star (Seq (Chr (is_char ":")) (Seq ws_star shape))).

Definition shape_matches (shape : regex) (txt attribute : string) : bool :=
  match exec (key_then attribute shape) txt with
  | Some _ => true
  | None => false
  end.

(** The value of a [selType_<n>] parameter as the specification words it. *)
Definition selector (members : list Z) (p : Z) : string :=
  if in_dec Z.eq_dec p members then "1" else "2".

(** The pattern of [extractVariable], as one term. *)
Definition variable_regex (variable : string) : regex :=
  Seq (Seq (lit variable) (Seq ws_star (Chr (is_char "="))))
    (Seq (Group 1 (Star false (Chr any_char))) (Chr (is_char ";"))).

(** The requests sent when [reqs] are issued in order and the first
    rejection ends the routine. *)
Fixpoint attempts (tr : transport) (h reqs : list request) : list request :=
  match reqs with
  | [] => h
  | rq :: reqs' =>
      match tr h rq with
      | inl _ => (h ++ [rq])%list
      | inr _ => attempts tr (h ++ [rq])%list reqs'
      end
  end.

(** The four domain operations, and the trace and outcome of one. *)
Inductive operation : Type :=
| OpInfo
| OpSetSwitch (name : string) (vlan : Z)
| OpSetPort (port state : Z) (speed : string)
| OpSetVLAN (vlan : Z) (name : string) (members : list Z).

Definition forget {A : Type} (o : outcome A) : outcome unit :=
  match o with
  | Return _ => Return tt
  | Throw e => Throw e
  | Exit c => Exit c
  end.

Definition perform (o : operation) (server username password : string)
    (tr : transport) : list request * outcome unit :=
  match o with
  | OpInfo =>
      let r := run (Info server username password) tr tt in
      (snd (fst r), forget (snd r))
  | OpSetSwitch name vlan =>
      let r := run (SetSwitch server username password name vlan) tr tt in
      (snd (fst r), forget (snd r))
  | OpSetPort port state speed =>
      let r := run (SetPort server username password port state speed) tr tt in
      (snd (fst r), forget (snd r))
  | OpSetVLAN vlan name members =>
      let r := run (SetVLAN server username password vlan name members) tr tt in
      (snd (fst r), forget (snd r))
  end.

(** A routine every request of which satisfies [P], and which never exits
    the process. *)
Definition quiet {L A : Type} (P : request -> Prop) (m : Prog L A) : Prop :=
  forall tr l h,
    exists l' ext o,
      m tr l h = (l', (h ++ ext)%list, o)
      /\ Forall P ext /\ (forall c, o <> Exit c).

Definition not_logout (server : string) (rq : request) : Prop :=
  rq <> logout_request server.

(** A routine that sends the logout last when all went well before it, and
    not at all when a step before it threw. *)
Definition closes_session {L A : Type} (server : string) (m : Prog L A)
  : Prop :=
  forall tr l h,
    exists l' ext o,
      m tr l h = (l', (h ++ ext)%list, o)
      /\ match o with
         | Return _ =>
             exists ext', ext = (ext' ++ [logout_request server])%list
         | Throw e =>
             (exists ext', ext = (ext' ++ [logout_request server])%list
                           /\ tr (h ++ ext')%list (logout_request server)
                              = inl e)
             \/ Forall (not_logout server) ext
         | Exit _ => False
         end.

(** The number of entries of [swtch.ports]. *)
Definition allocated (swtch : Switch) : nat :=
  match ports swtch with
  | Some a => List.length a
  | None => 0
  end.

(** What the [catch] of [Diagnosis] makes of a rejection. *)
Definition on_rejection (e : exn) (connection_state : string)
  : outcome string :=
  if String.eqb (exn_name e) "AbortError" then Return connection_state
  else Exit 1%Z.

(** [Diagnosis] case by case: the final [connection_state], the requests
    sent and the outcome. *)
Definition Diagnosis_cases (server username password : string)
    (tr : transport) : string * list request * outcome string :=
  let login := login_request server username password (Some 1000%Z) in
  let info := GET ("http://" ++ server ++ ":80/SystemInfoRpm.htm") in
  let logout := GET ("http://" ++ server ++ ":80/Logout.htm") in
  match tr [] login with
  | inl e => ("not accessible", [login], on_rejection e "not accessible")
  | inr _ =>
      match tr [login] info with
      | inl e =>
          ("not authorized", [login; info], on_rejection e "not authorized")
      | inr response2 =>
          let connection_state :=
            if (status response2 =? 200)%Z then "authorized"
            else "not authorized" in
          (connection_state, [login; info; logout],
           match tr [login; info] logout with
           | inl e => on_rejection e connection_state
           | inr _ => Return connection_state
           end)
      end
  end.

(* ------------------------------------------------------------------ *)
(** ** Sample devices *)

Definition newline : string := String (ascii_of_nat 10) EmptyString.

Definition page (script : string) : string :=
  "<html><head><script>" ++ newline ++ script ++ newline
  ++ "</script></head><body></body></html>".

(** A device that answers every request with an empty page. *)
Definition silent_device : transport :=
  fun _ _ => inr (Response 200 "").

(** A device that answers the login and rejects every later request. *)
Definition login_only_device : transport :=
  fun h _ =>
    match h with
    | [] => inr (Response 200 "")
    | _ => inl (Exn "FetchError")
    end.

(** A device that lets the login time out. *)
Definition unreachable_device : transport :=
  fun _ _ => inl AbortError.

Definition quoted (s : string) : string :=
  String dquote (s ++ String dquote EmptyString).

Definition identity_page : string :=
  page ("var info_ds = {descriStr:[" ++ quoted "TL-SG108E"
        ++ "],macStr:[" ++ quoted "70:4F:57:6B:94:AE"
        ++ "],ipStr:[" ++ quoted "192.168.0.1"
        ++ "],netmaskStr:[" ++ quoted "255.255.255.0"
        ++ "],gatewayStr:[" ++ quoted "0.0.0.0"
        ++ "],firmwareStr:[" ++ quoted "1.0.0 Build 20171214 Rel.70905"
        ++ "],hardwareStr:[" ++ quoted "TL-SG108E 3.0" ++ "]};").

Definition settings_page (max_port_num : string) : string :=
  page ("var max_port_num = " ++ max_port_num ++ ";"
        ++ "var all_info = {state:[1,1,1,0,1,1,1,1,0,0],"
        ++ "spd_act:[6,0,0,0,0,0,0,0,0,0]};").

Definition statistics_page : string :=
  page ("var max_port_num = 8;"
        ++ "var all_info = {state:[1,1,1,1,1,1,1,1,0,0],"
        ++ "link_status:[6,0,0,0,0,0,0,0,0,0],"
        ++ "pkts:[786,0,1080,0,0,0,0,0,0,0,0,0,0,0,0,0,0,0,0,0,0,0,0,0,0,0,"
        ++ "0,0,0,0,0,0,0,0]};").

(** A statistics page whose script lacks the [pkts] attribute. *)
Definition statistics_page_without_pkts : string :=
  page ("var max_port_num = 8;"
        ++ "var all_info = {link_status:[6,0,0,0,0,0,0,0,0,0]};").

Definition vlan_page : string :=
  page ("var qvlan_ds = {state:1,portNum:8,vids:[1,3],count:2,maxVids:32,"
        ++ "names:['Default','alpha'],tagMbrs:[0x0,0xAA],"
        ++ "untagMbrs:[0xFF,0x0]};").

(** A device that serves the given pages in the order [Info] asks. *)
Definition device (identity settings statistics vlans : string) : transport :=
  fun h _ =>
    match List.length h with
    | 1 => inr (Response 200 identity)
    | 2 => inr (Response 200 settings)
    | 3 => inr (Response 200 statistics)
    | 4 => inr (Response 200 vlans)
    | _ => inr (Response 200 "")
    end.

(* ------------------------------------------------------------------ *)
(** ** Forms of the further properties *)

(** A routine that sends the requests [reqs] in this order up to the first
    step that throws, all of them when it returns, and never exits the
    process. *)
Definition sends {L A : Type} (reqs : list request) (m : Prog L A) : Prop :=
  forall tr l h,
    exists l' k o,
      m tr l h = (l', (h ++ firstn k reqs)%list, o)
      /\ k <= List.length reqs
      /\ (forall a, o = Return a -> k = List.length reqs)
      /\ (forall c, o <> Exit c).

(** The requests of [Info], in the order of the source. *)
Definition Info_requests (server username password : string)
  : list request :=
  [login_request server username password None;
   GET ("http://" ++ server ++ SWITCH_INFO_PATH);
   GET ("http://" ++ server ++ PORT_INFO_1_PATH);
   GET ("http://" ++ server ++ PORT_INFO_2_PATH);
   GET ("http://" ++ server ++ VLAN_INFO_PATH);
   logout_request server].

(** A routine whose local state stays related by [R] to the one it started
    from, however it ends. *)
Definition keeps {L A : Type} (R : L -> L -> Prop) (m : Prog L A) : Prop :=
  forall tr l h, R l (fst (fst (m tr l h))).

(** The seven properties [_switchInfo] reads from the identity page. *)
Definition identity (s : Switch) : list (option jsval) :=
  [hardware s; fimrware s; name s; mac s; ip s; netmask s; gateway s].

(** What [_portInfo1] stores of a port. *)
Definition settings (p : Port) : option jsval * option jsval * option jsval :=
  (number p, state p, speed p).

Definition port_settings (s : Switch)
  : option (list (option (option jsval * option jsval * option jsval))) :=
  option_map (map (option_map settings)) (ports s).

(** The changes a page routine may make to the switch object: the port
    settings page touches [ports] only, the statistics page moreover keeps
    the number, state and speed of every port, and the VLAN page touches
    [vlan] and [vlans] only.  An array that is undefined stays so. *)
Definition ports_only (s s' : Switch) : Prop :=
  identity s' = identity s /\ vlan s' = vlan s /\ vlans s' = vlans s
  /\ (ports s = None <-> ports s' = None).

Definition statistics_only (s s' : Switch) : Prop :=
  ports_only s s' /\ port_settings s' = port_settings s.

Definition vlans_only (s s' : Switch) : Prop :=
  identity s' = identity s /\ ports s' = ports s
  /\ (vlans s = None <-> vlans s' = None).

(** The sample device of the pages below once the login has been answered:
    it serves the pages to the routines that [Info] calls after it. *)
Definition logged_in (tr : transport) : transport :=
  fun h => tr (login_request "192.168.0.1" "admin" "admin" None :: h).

(** A list of entries written as the page formats in the comments of the
    source show it: a comma and a blank between two entries. *)
Fixpoint comma_blank (entries : list string) : string :=
  match entries with
  | [] => ""
  | [e] => e
  | e :: rest => e ++ ", " ++ comma_blank rest
  end.

(* ------------------------------------------------------------------ *)
(** ** The earlier script *)

(** The second script of the repository reads the same pages from a fixed
    address.  Its four extractors repeat those above word for word; its
    routines wrap their bodies in [try] and end the process in [catch]. *)
Module Legacy.

Definition PREFIX : string := "http://192.168.178.101:80/".
Definition USERNAME : string := "admin".
Definition PASSWORD : string := "admin".

(** [try { body } catch (error) { console.error(...); process.exit(1) }] *)
Definition guarded {L A : Type} (body : Prog L A) : Prog L A :=
  try_catch body (fun _ => exit 1%Z).

(** [login()] *)
Definition login {L : Type} : Prog L unit :=
  guarded
    (response <- fetch (Request "POST" (PREFIX ++ "logon.cgi")
                          [("username", USERNAME); ("password", PASSWORD);
                           ("logon", "Login")] None) ;;
     ret tt).

(** [logout()] *)
Definition logout {L : Type} : Prog L unit :=
  guarded (response <- fetch (GET (PREFIX ++ "Logout.htm")) ;; ret tt).

(** The array literals [portInfo1] and [portInfo2] index. *)
Definition speed_names : list string :=
  [""; "Auto"; "10MH"; "10MF"; "100MH"; "100MF"; "1000MF"; ""].

Definition link_names : list string :=
  ["down"; "Auto"; "10MH"; "10MF"; "100MH"; "100MF"; "1000MF"; ""].

(** [portInfo1(swtch)] *)
Definition portInfo1 : Prog Switch unit :=
  guarded
    (response <- fetch (GET (PREFIX ++ "PortSettingRpm.htm")) ;;
     let data := text response in
     match script_present (extractTagContent data "script" 0) with
     | Some scrpt =>
         let ports :=
           parseInt_opt (extractVariable scrpt "max_port_num") None in
         states <- split_of (extractAttribute scrpt "state") ;;
         speeds <- split_of (extractAttribute scrpt "spd_act") ;;
         for_upto ports (fun portIndex =>
           allocate_port portIndex ;;
           update_port portIndex (fun port =>
             MkPort
               (Some (Num (Z.of_nat portIndex + 1)))
               (Some (of_number
                        (parseInt_opt (nth_error states portIndex) None)))
               (Some (at_key speed_names (nth_error speeds portIndex)))
               (link port) (TxGoodPkt port) (TxBadPkt port)
               (RxGoodPkt port) (RxBadPkt port)))
     | None => ret tt
     end).

(** [portInfo2(swtch)] *)
Definition portInfo2 : Prog Switch unit :=
  guarded
    (response <- fetch (GET (PREFIX ++ "PortStatisticsRpm.htm")) ;;
     let data := text response in
     match script_present (extractTagContent data "script" 0) with
     | Some scrpt =>
         let ports :=
           parseInt_opt (extractVariable scrpt "max_port_num") None in
         links <- split_of (extractAttribute scrpt "link_status") ;;
         pkts <- split_of (extractAttribute scrpt "pkts") ;;
         for_upto ports (fun portIndex =>
           update_port portIndex (fun port =>
             let pkt k := of_number
                            (parseInt_opt (nth_error pkts (4 * portIndex + k))
                               None) in
             MkPort (number port) (state port) (speed port)
               (Some (at_key link_names (nth_error links portIndex)))
               (Some (pkt 0)) (Some (pkt 1)) (Some (pkt 2)) (Some (pkt 3))))
     | None => ret tt
     end).

(** [vlanInfo1(swtch)]; the variable [ports] it reads from [portNum] is not
    used. *)
Definition vlanInfo1 : Prog Switch unit :=
  guarded
    (response <- fetch (GET (PREFIX ++ "Vlan8021QRpm.htm")) ;;
     let data := text response in
     match script_present (extractTagContent data "script" 0) with
     | Some scrpt =>
         swtch <- get ;;
         put (set_vlan swtch
                (of_number
                   (parseInt_opt (extractAttribute scrpt "state") None))) ;;
         let ports := parseInt_opt (extractAttribute scrpt "portNum") None in
         let vlans := parseInt_opt (extractAttribute scrpt "count") None in
         vids <- split_of (extractAttribute scrpt "vids") ;;
         names <- split_of (extractAttribute scrpt "names") ;;
         tag <- split_of (extractAttribute scrpt "tagMbrs") ;;
         untag <- split_of (extractAttribute scrpt "untagMbrs") ;;
         for_upto vlans (fun vlanIndex =>
           allocate_vlan vlanIndex ;;
           vname <- stripQuotes_of (nth_error names vlanIndex) ;;
           update_vlan vlanIndex (fun _ =>
             MkVlan
               (Some vname)
               (Some (of_number
                        (parseInt_opt (nth_error vids vlanIndex) None)))
               (Some (decode_members (nth_error tag vlanIndex)))
               (Some (decode_members (nth_error untag vlanIndex)))))
     | None => ret tt
     end).

(** [switchInfo()]; the local variable is [swtch]. *)
Definition switchInfo : Prog Switch Switch :=
  put empty_switch ;;
  guarded
    (response <- fetch (GET (PREFIX ++ "SystemInfoRpm.htm")) ;;
     let data := text response in
     match script_present (extractTagContent data "script" 0) with
     | Some scrpt =>
         hardware <- stripQuotes_of (extractAttribute scrpt "hardwareStr") ;;
         fimrware <- stripQuotes_of (extractAttribute scrpt "firmwareStr") ;;
         name <- stripQuotes_of (extractAttribute scrpt "descriStr") ;;
         mac <- stripQuotes_of (extractAttribute scrpt "macStr") ;;
         ip <- stripQuotes_of (extractAttribute scrpt "ipStr") ;;
         netmask <- stripQuotes_of (extractAttribute scrpt "netmaskStr") ;;
         gateway <- stripQuotes_of (extractAttribute scrpt "gatewayStr") ;;
         put (MkSwitch (Some hardware) (Some fimrware) (Some name) (Some mac)
                (Some ip) (Some netmask) (Some gateway)
                (Some (Str "")) (Some []) (Some []))
     | None => ret tt
     end ;;
     portInfo1 ;;
     portInfo2 ;;
     vlanInfo1) ;;
  swtch <- get ;;
  ret swtch.

(** The main routine.  [dump] stands for the YAML printer of the library,
    which may throw on the object it is given ([None]: it does not). *)
Definition main (dump : Switch -> option exn) : Prog unit unit :=
  login ;;
  swtch <- call empty_switch switchInfo ;;
  match dump swtch with
  | Some e => throw e
  | None => ret tt
  end ;;
  logout.

End Legacy.

(** The part of [_switchInfo] between the empty object and its return: the
    four pages in turn. *)
Definition pages_of (server : string) : Prog Switch unit :=
  response <- fetch (GET ("http://" ++ server ++ SWITCH_INFO_PATH)) ;;
  let data := text response in
  match script_present (extractTagContent data "script" 0) with
  | Some scrpt =>
      hardware <- stripQuotes_of (extractAttribute scrpt "hardwareStr") ;;
      fimrware <- stripQuotes_of (extractAttribute scrpt "firmwareStr") ;;
      name <- stripQuotes_of (extractAttribute scrpt "descriStr") ;;
      mac <- stripQuotes_of (extractAttribute scrpt "macStr") ;;
      ip <- stripQuotes_of (extractAttribute scrpt "ipStr") ;;
      netmask <- stripQuotes_of (extractAttribute scrpt "netmaskStr") ;;
      gateway <- stripQuotes_of (extractAttribute scrpt "gatewayStr") ;;
      put (MkSwitch (Some hardware) (Some fimrware) (Some name) (Some mac)
             (Some ip) (Some netmask) (Some gateway)
             (Some (at_number STATES (Some 0%Z))) (Some []) (Some []))
  | None => ret tt
  end ;;
  _portInfo1 server ;;
  _portInfo2 server ;;
  _vlanInfo server.

(** Two outcomes of the two readers that correspond: both return the same
    value or both fail, the earlier script by ending the process with
    code 1 where the later one throws. *)
Definition same_end {A : Type} (o o' : outcome A) : Prop :=
  match o, o' with
  | Return a, Return a' => a = a'
  | Throw _, Throw _ => True
  | Exit c, Throw _ => c = 1%Z
  | _, _ => False
  end.

(** Two port objects that agree on all but [state] and [speed]. *)
Definition port_agrees (p p' : Port) : Prop :=
  number p = number p' /\ link p = link p'
  /\ TxGoodPkt p = TxGoodPkt p' /\ TxBadPkt p = TxBadPkt p'
  /\ RxGoodPkt p = RxGoodPkt p' /\ RxBadPkt p = RxBadPkt p'.

Definition entry_agrees (x x' : option Port) : Prop :=
  match x, x' with
  | Some p, Some p' => port_agrees p p'
  | None, None => True
  | _, _ => False
  end.

(** Two switch objects that agree on the identity, on the VLAN table and,
    port by port, on all but [state] and [speed]; [vlan] is left out. *)
Definition agrees (s s' : Switch) : Prop :=
  identity s = identity s'
  /\ match ports s, ports s' with
     | Some a, Some a' => Forall2 entry_agrees a a'
     | None, None => True
     | _, _ => False
     end
  /\ vlans s = vlans s'.

(** A routine of the earlier script and one of the later script that send
    the same requests and end alike from switch objects that agree, and
    leave switch objects that agree. *)
Definition simulates {A : Type} (m m' : Prog Switch A) : Prop :=
  forall tr l l' h,
    agrees l l' ->
    exists s s' t o o',
      m tr l h = (s, t, o) /\ m' tr l' h = (s', t, o')
      /\ agrees s s' /\ same_end o o'.

(* ------------------------------------------------------------------ *)
(** ** The value of an attribute, place by place *)

(** [extractAttribute] without the pattern: the places where the key starts
    are tried from left to right.  At a place, after the key, optional white
    space, a colon and optional white space, the value is read by its first
    character. *)

(** The longest run of characters of class [p] at the head of a text, and
    the text after it. *)
Fixpoint span (p : ascii -> bool) (s : string) : string * string :=
  match s with
  | String c t =>
      if p c then let '(a, r) := span p t in (String c a, r)
      else (EmptyString, s)
  | EmptyString => (EmptyString, EmptyString)
  end.

(** The word [w] stands at the head of [V] and no word character follows
    it. *)
Definition word_at (w V : string) : bool :=
  match strip_prefix w V with
  | Some r => stops is_word r
  | None => false
  end.

(** What the number shape takes of a run [d] of digits followed by [r]: the
    digits, a point and one more digit when a word boundary follows that
    digit; the digits and the point when a word character follows the
    point; the digits alone when a word boundary follows them; nothing at
    all when a letter or [_] follows the digits. *)
Definition number_text (d r : string) : option string :=
  match r with
  | EmptyString => Some d
  | String c r1 =>
      if Ascii.eqb c "." then
        match r1 with
        | String x r2 =>
            if is_digit x then
              if stops is_word r2 then Some (d ++ "." ++ String x EmptyString)
              else Some (d ++ ".")
            else if is_word x then Some (d ++ ".")
            else Some d
        | EmptyString => Some d
        end
      else if is_word c then None
      else Some d
  end.

(** The value of a text that starts with a word character: [true] or
    [false] as a whole word, else the number at its head, else nothing (the
    number shape then matches the empty text). *)
Definition word_value (V : string) : option string :=
  if word_at "true" V then Some "true"
  else if word_at "false" V then Some "false"
  else match span is_digit V with
       | (EmptyString, _) => None
       | (d, r) => number_text d r
       end.

(** [if (match[i])] on a captured text, and what is made of it. *)
Definition captured (f : string -> string) (s : string) : option string :=
  if String.eqb s "" then None else Some (f s).

(** The value at the cursor.  [None]: no shape matches here, and the search
    goes on to the next place.  [Some None]: a shape matches and the result
    is null. *)
Definition value_here (V : string) : option (option string) :=
  match V with
  | EmptyString => None
  | String c t =>
      if Ascii.eqb c "'" then
        option_map (captured (fun s => stripQuotes (trim s)))
          (until_char "'" t)
      else if Ascii.eqb c "[" then
        option_map (captured trim) (until_char "]" t)
      else if Ascii.eqb c "{" then
        option_map (captured trim) (until_char "}" t)
      else if is_word c then Some (word_value V)
      else None
  end.

(** The key at the head of [txt], then white space, a colon, white space
    and a value. *)
Definition attribute_here (attribute txt : string) : option (option string) :=
  match strip_prefix attribute txt with
  | Some t =>
      match trimStart t with
      | String c t' =>
          if Ascii.eqb c ":" then value_here (trimStart t') else None
      | EmptyString => None
      end
  | None => None
  end.

(** The value at the leftmost place at which the name, the colon and a
    value stand together; null when there is no such place. *)
Fixpoint extractAttribute_spec (txt attribute : string) : option string :=
  match attribute_here attribute txt with
  | Some result => result
  | None =>
      match txt with
      | String _ t => extractAttribute_spec t attribute
      | EmptyString => None
      end
  end.

(** The end of the number shape: the group is closed, the optional group
    must have read something, and a word boundary must follow. *)
Definition number_end (s0 : mstate) : cont :=
  fun s2 =>
    if progress s0
         (MState (before s2) (rest s2)
            (set_cap 3 (consumed s0 s2) (caps s2)))
    then rmatch WordB
           (MState (before s2) (rest s2)
              (set_cap 3 (consumed s0 s2) (caps s2))) Some
    else None.

(** The number shape after its run of digits. *)
Definition number_tail (s0 : mstate) : cont :=
  fun s1 =>
    rmatch (Seq (Opt (Chr (is_char "."))) (Opt (Chr is_digit))) s1
      (number_end s0).

(** No letter: a key made of such characters names no property that a table
    inherits as an array ([length], [constructor], ...), so that
    [at_key] is what [table[key]] gives. *)
Definition no_letter (c : ascii) : bool := negb (is_upper c || is_lower c).

(** A routine that sends the requests [reqs] in this order, all of them when
    it returns, that never exits the process, and that stops at the first
    request that is rejected, throwing the rejection. *)
Definition halts {L A : Type} (reqs : list request) (m : Prog L A) : Prop :=
  forall tr l h,
    exists l' k o,
      m tr l h = (l', (h ++ firstn k reqs)%list, o)
      /\ k <= List.length reqs
      /\ (forall a, o = Return a -> k = List.length reqs)
      /\ (forall c, o <> Exit c)
      /\ (forall i rq e,
            i < k -> nth_error reqs i = Some rq ->
            tr (h ++ firstn i reqs)%list rq = inl e ->
            k = S i /\ o = Throw e).

(** The rejection that ends a sequence of requests sent one after the other
    ([attempts] gives the requests sent). *)
Fixpoint first_rejection (tr : transport) (h reqs : list request)
  : option exn :=
  match reqs with
  | [] => None
  | rq :: reqs' =>
      match tr h rq with
      | inl e => Some e
      | inr _ => first_rejection tr (h ++ [rq])%list reqs'
      end
  end.

(** Requests sent one after the other up to the first one that is rejected:
    the requests sent, and the rejection thrown or the return. *)
Definition in_sequence (tr : transport) (reqs : list request)
  : list request * outcome unit :=
  (attempts tr [] reqs,
   match first_rejection tr [] reqs with
   | Some e => Throw e
   | None => Return tt
   end).

(* ================================================================== *)
(** * Properties *)

(* ------------------------------------------------------------------ *)
(** ** Texts *)

Lemma append_assoc (s1 s2 s3 : string) : (s1 ++ s2) ++ s3 = s1 ++ (s2 ++ s3).
Proof.
  induction s1 as [|c s1 IH]; simpl; [reflexivity | now rewrite IH].
Qed.

Lemma length_append (s1 s2 : string) :
  String.length (s1 ++ s2) = String.length s1 + String.length s2.
Proof.
  induction s1 as [|c s1 IH]; simpl; [reflexivity | now rewrite IH].
Qed.

Lemma substring_all (s t : string) :
  substring 0 (String.length s) (s ++ t) = s.
Proof.
  induction s as [|c s IH]; simpl.
  - now destruct t.
  - now rewrite IH.
Qed.

Lemma consumed_app (b b' : option ascii) (w t : string)
    (g g' : nat -> option string) :
  consumed (MState b (w ++ t) g) (MState b' t g') = w.
Proof.
  unfold consumed; simpl. rewrite length_append.
  replace (String.length w + String.length t - String.length t)
    with (String.length w) by lia.
  apply substring_all.
Qed.

Lemma all_chars_app (p : ascii -> bool) (s1 s2 : string) :
  all_chars p (s1 ++ s2) = all_chars p s1 && all_chars p s2.
Proof.
  induction s1 as [|c s1 IH]; simpl; [reflexivity |].
  now rewrite IH, andb_assoc.
Qed.

Lemma strip_prefix_app (a t : string) : strip_prefix a (a ++ t) = Some t.
Proof.
  induction a as [|c a IH]; simpl.
  - now destruct t.
  - now rewrite Ascii.eqb_refl.
Qed.

Lemma strip_prefix_inv (a txt t : string) :
  strip_prefix a txt = Some t -> txt = a ++ t.
Proof.
  revert txt; induction a as [|c a IH]; intros txt H; simpl in *.
  - destruct txt; now inversion H.
  - destruct txt as [|d txt]; [discriminate |].
    destruct (Ascii.eqb d c) eqn:E; [| discriminate].
    apply Ascii.eqb_eq in E; subst d. now rewrite (IH _ H).
Qed.

Lemma trimStart_split (t : string) :
  exists w, t = w ++ trimStart t /\ all_chars is_space w = true
            /\ stops is_space (trimStart t) = true.
Proof.
  induction t as [|c t (w & Hw & Hs & Hn)]; simpl.
  - now exists "".
  - destruct (is_space c) eqn:E.
    + exists (String c w); simpl. rewrite E, Hs. repeat split; try assumption.
      now rewrite <- Hw.
    + exists ""; simpl. now rewrite E.
Qed.

Lemma until_char_split (x : ascii) (txt c : string) :
  until_char x txt = Some c ->
  exists t, txt = c ++ String x t /\ all_chars (not_char x) c = true.
Proof.
  revert c; induction txt as [|d txt IH]; intros c H; simpl in H.
  - discriminate.
  - destruct (Ascii.eqb d x) eqn:E.
    + inversion H; subst c. apply Ascii.eqb_eq in E; subst d.
      now exists txt.
    + destruct (until_char x txt) as [c'|] eqn:U; [| discriminate].
      inversion H; subst c. destruct (IH _ eq_refl) as (t & -> & Hc).
      exists t; simpl. unfold not_char at 1. now rewrite E, Hc.
Qed.

Lemma until_char_none (x : ascii) (txt : string) :
  until_char x txt = None -> all_chars (not_char x) txt = true.
Proof.
  induction txt as [|d txt IH]; simpl; intros H; [reflexivity |].
  unfold not_char at 1. destruct (Ascii.eqb d x); [discriminate |].
  destruct (until_char x txt); [discriminate |]. now rewrite IH.
Qed.

(* ------------------------------------------------------------------ *)
(** ** The matcher on literals and on runs of one class *)

Lemma rmatch_chr (p : ascii -> bool) (b : option ascii) (c : ascii)
    (t : string) (g : nat -> option string) (k : cont) :
  rmatch (Chr p) (MState b (String c t) g) k =
  if p c then k (MState (Some c) t g) else None.
Proof. reflexivity. Qed.

Lemma rmatch_chr_end (p : ascii -> bool) (b : option ascii)
    (g : nat -> option string) (k : cont) :
  rmatch (Chr p) (MState b "" g) k = None.
Proof. reflexivity. Qed.

Lemma rmatch_plus (a : regex) (s : mstate) (k : cont) :
  rmatch (Plus a) s k =
  rmatch a s (fun s1 => rmatch (Star true a) s1 k).
Proof. reflexivity. Qed.

Lemma rmatch_opt (a : regex) (s : mstate) (k : cont) :
  rmatch (Opt a) s k =
  match rmatch a s (fun s' => if progress s s' then k s' else None) with
  | Some x => Some x
  | None => k s
  end.
Proof. reflexivity. Qed.

Lemma rmatch_seq (a b : regex) (s : mstate) (k : cont) :
  rmatch (Seq a b) s k = rmatch a s (fun s1 => rmatch b s1 k).
Proof. reflexivity. Qed.

Lemma rmatch_alt (a b : regex) (s : mstate) (k : cont) :
  rmatch (Alt a b) s k =
  match rmatch a s k with
  | Some x => Some x
  | None => rmatch b s k
  end.
Proof. reflexivity. Qed.

Lemma rmatch_group (n : nat) (a : regex) (s : mstate) (k : cont) :
  rmatch (Group n a) s k =
  rmatch a s (fun s1 => k (MState (before s1) (rest s1)
                             (set_cap n (consumed s s1) (caps s1)))).
Proof. reflexivity. Qed.

Lemma rmatch_wordb (s : mstate) (k : cont) :
  rmatch WordB s k = if at_boundary s then k s else None.
Proof. reflexivity. Qed.

Lemma rmatch_lit (a : string) (b : option ascii) (txt : string)
    (g : nat -> option string) (k : cont) :
  rmatch (lit a) (MState b txt g) k =
  match strip_prefix a txt with
  | Some t => k (MState (last_of b a) t g)
  | None => None
  end.
Proof.
  revert b txt; induction a as [|c a IH]; intros b txt; simpl.
  - now destruct txt.
  - destruct txt as [|d txt]; [reflexivity |].
    unfold is_char. destruct (Ascii.eqb d c) eqn:E; [| reflexivity].
    apply Ascii.eqb_eq in E; subst d. apply IH.
Qed.

Lemma star_greedy_class (p : ascii -> bool) (fuel : nat) (b : option ascii)
    (txt : string) (g : nat -> option string) (k : cont) :
  String.length txt <= fuel ->
  star_loop true (rmatch (Chr p)) fuel (MState b txt g) k
  = greedy_class p b txt g k.
Proof.
  revert b txt; induction fuel as [|fuel IH]; intros b txt Hlen.
  - destruct txt; simpl in *; [reflexivity | lia].
  - destruct txt as [|c t]; simpl; [reflexivity |].
    destruct (p c); [| reflexivity].
    unfold progress; simpl.
    replace (String.length t <? S (String.length t)) with true
      by (symmetry; apply Nat.ltb_lt; lia).
    rewrite IH by (simpl in Hlen; lia). reflexivity.
Qed.

Lemma star_lazy_class (p : ascii -> bool) (fuel : nat) (b : option ascii)
    (txt : string) (g : nat -> option string) (k : cont) :
  String.length txt <= fuel ->
  star_loop false (rmatch (Chr p)) fuel (MState b txt g) k
  = lazy_class p b txt g k.
Proof.
  revert b txt; induction fuel as [|fuel IH]; intros b txt Hlen.
  - destruct txt; simpl in *; [| lia].
    now destruct (k (MState b "" g)).
  - destruct txt as [|c t]; simpl.
    + now destruct (k (MState b "" g)).
    + destruct (k (MState b (String c t) g)); [reflexivity |].
      destruct (p c); [| reflexivity].
      unfold progress; simpl.
      replace (String.length t <? S (String.length t)) with true
        by (symmetry; apply Nat.ltb_lt; lia).
      apply IH. simpl in Hlen; lia.
Qed.

Lemma rmatch_star_greedy (p : ascii -> bool) (b : option ascii) (txt : string)
    (g : nat -> option string) (k : cont) :
  rmatch (Star true (Chr p)) (MState b txt g) k = greedy_class p b txt g k.
Proof. simpl. now apply star_greedy_class. Qed.

Lemma rmatch_star_lazy (p : ascii -> bool) (b : option ascii) (txt : string)
    (g : nat -> option string) (k : cont) :
  rmatch (Star false (Chr p)) (MState b txt g) k = lazy_class p b txt g k.
Proof. simpl. now apply star_lazy_class. Qed.

(** The greedy run stops at the end of the run when the continuation
    refuses every earlier stop. *)
Lemma greedy_class_end (p : ascii -> bool) (I : option ascii -> Prop)
    (g : nat -> option string) (k : cont) :
  (forall c, p c = true -> I (Some c)) ->
  (forall b' c t', I b' -> p c = true -> k (MState b' (String c t') g) = None) ->
  forall (w tl : string) (b : option ascii),
    I b -> all_chars p w = true -> stops p tl = true ->
    greedy_class p b (w ++ tl) g k = k (MState (last_of b w) tl g).
Proof.
  intros HI Hk w tl; induction w as [|c w IH]; intros b Hb Hw Htl; simpl.
  - destruct tl as [|d tl]; simpl in *; [reflexivity |].
    apply negb_true_iff in Htl. now rewrite Htl.
  - simpl in Hw. apply andb_true_iff in Hw as [Hc Hw]. rewrite Hc.
    rewrite IH by auto.
    destruct (k (MState (last_of (Some c) w) tl g)) eqn:E; [reflexivity |].
    now apply Hk.
Qed.

(** The greedy run stops at the end of the run when the continuation
    accepts there. *)
Lemma greedy_class_first (p : ascii -> bool) (g : nat -> option string)
    (k : cont) (r : mstate) :
  forall (w tl : string) (b : option ascii),
    all_chars p w = true -> stops p tl = true ->
    k (MState (last_of b w) tl g) = Some r ->
    greedy_class p b (w ++ tl) g k = Some r.
Proof.
  intros w tl; induction w as [|c w IH]; intros b Hw Htl Hk; simpl in *.
  - destruct tl as [|d tl]; simpl in *; [assumption |].
    apply negb_true_iff in Htl. now rewrite Htl.
  - apply andb_true_iff in Hw as [Hc Hw]. rewrite Hc.
    now rewrite (IH (Some c) Hw Htl Hk).
Qed.

(** The lazy run passes over a text at no point of which the continuation
    accepts. *)
Lemma lazy_class_skip (p : ascii -> bool) (q : ascii -> bool)
    (g : nat -> option string) (k : cont) :
  (forall b' c t', q c = true -> k (MState b' (String c t') g) = None) ->
  forall (w tl : string) (b : option ascii),
    all_chars p w = true -> all_chars q w = true ->
    lazy_class p b (w ++ tl) g k = lazy_class p (last_of b w) tl g k.
Proof.
  intros Hk w tl; induction w as [|c w IH]; intros b Hp Hq; simpl in *.
  - reflexivity.
  - apply andb_true_iff in Hp as [Hc Hp].
    apply andb_true_iff in Hq as [Hd Hq].
    rewrite (Hk b c (w ++ tl) Hd), Hc. now apply IH.
Qed.

Lemma lazy_class_fail (p : ascii -> bool) (q : ascii -> bool)
    (g : nat -> option string) (k : cont) :
  (forall b' c t', q c = true -> k (MState b' (String c t') g) = None) ->
  (forall b', k (MState b' "" g) = None) ->
  forall (w : string) (b : option ascii),
    all_chars q w = true -> lazy_class p b w g k = None.
Proof.
  intros Hk He w; induction w as [|c w IH]; intros b Hq; simpl in *.
  - now rewrite He.
  - apply andb_true_iff in Hq as [Hd Hq].
    rewrite (Hk b c w Hd). destruct (p c); [now apply IH | reflexivity].
Qed.

(** A pattern fails where its continuation refuses every text of a class
    of texts that is closed under taking tails. *)
Lemma star_loop_refused (Q : string -> Prop) (greedy : bool)
    (body : mstate -> cont -> option mstate) :
  (forall s k, Q (rest s) -> (forall s', Q (rest s') -> k s' = None) ->
               body s k = None) ->
  forall fuel s k, Q (rest s) -> (forall s', Q (rest s') -> k s' = None) ->
                   star_loop greedy body fuel s k = None.
Proof.
  intros Hbody fuel; induction fuel as [|fuel IH]; intros s k Hs Hk; simpl.
  - now apply Hk.
  - assert (body s (fun s' => if progress s s'
                              then star_loop greedy body fuel s' k
                              else None) = None) as E.
    { apply Hbody; [assumption |]. intros s' Hs'.
      destruct (progress s s'); [now apply IH | reflexivity]. }
    destruct greedy; rewrite E, ?(Hk s Hs); reflexivity.
Qed.

Lemma rmatch_refused (Q : string -> Prop) :
  (forall c t, Q (String c t) -> Q t) ->
  forall r s k, Q (rest s) -> (forall s', Q (rest s') -> k s' = None) ->
                rmatch r s k = None.
Proof.
  intros Htail r; induction r as [| p | a IHa b IHb | a IHa b IHb
                                  | gr a IHa | a IHa | a IHa | n a IHa |];
    intros s k Hs Hk; simpl.
  - now apply Hk.
  - destruct (rest s) as [|c t] eqn:E; [reflexivity |].
    destruct (p c); [| reflexivity]. apply Hk; simpl.
    now apply Htail in Hs.
  - apply IHa; [assumption |]. intros s' Hs'. now apply IHb.
  - rewrite IHa by assumption. now apply IHb.
  - now apply (star_loop_refused Q gr (rmatch a) IHa).
  - apply IHa; [assumption |]. intros s' Hs'.
    now apply (star_loop_refused Q true (rmatch a) IHa).
  - rewrite IHa; [now apply Hk | assumption |].
    intros s' Hs'. destruct (progress s s'); [now apply Hk | reflexivity].
  - apply IHa; [assumption |]. intros s' Hs'. now apply Hk.
  - destruct (at_boundary s); [now apply Hk | reflexivity].
Qed.

(* ------------------------------------------------------------------ *)
(** ** Character classes *)

Lemma any_char_true (c : ascii) : any_char c = true.
Proof. unfold any_char. apply orb_negb_r. Qed.

Lemma all_any_char (s : string) : all_chars any_char s = true.
Proof.
  induction s as [|c s IH]; simpl; [reflexivity |].
  now rewrite any_char_true.
Qed.

Lemma is_char_false (x c : ascii) (p : ascii -> bool) :
  p c = true -> p x = false -> is_char x c = false.
Proof.
  intros Hc Hx. unfold is_char. destruct (Ascii.eqb c x) eqn:E; [| reflexivity].
  apply Ascii.eqb_eq in E; subst c. congruence.
Qed.

Lemma word_not_space (c : ascii) : is_word c = true -> is_space c = false.
Proof.
  unfold is_word, is_space, is_lower, is_upper, is_digit.
  intros H. generalize dependent (code c); intros n H.
  repeat match goal with
         | H : _ || _ = true |- _ => apply orb_true_iff in H as [H | H]
         | H : _ && _ = true |- _ => apply andb_true_iff in H as [? ?]
         | H : (_ <=? _) = true |- _ => apply Nat.leb_le in H
         | H : (_ =? _) = true |- _ => apply Nat.eqb_eq in H
         end;
  repeat match goal with
         | |- _ || _ = false => apply orb_false_iff; split
         | |- _ && _ = false => apply andb_false_iff
         end;
  try (apply Nat.eqb_neq; lia);
  try (right; apply Nat.leb_gt; lia);
  try (left; apply Nat.leb_gt; lia).
Qed.

Lemma space_not_word (c : ascii) : is_space c = true -> is_word c = false.
Proof.
  intros H. destruct (is_word c) eqn:E; [| reflexivity].
  apply word_not_space in E. congruence.
Qed.

Lemma identifier_all_word (s : string) :
  identifier s = all_chars is_word s.
Proof. induction s as [|c s IH]; simpl; [reflexivity | now rewrite IH]. Qed.

Lemma all_chars_impl (p q : ascii -> bool) (s : string) :
  (forall c, p c = true -> q c = true) ->
  all_chars p s = true -> all_chars q s = true.
Proof.
  intros Hpq; induction s as [|c s IH]; simpl; [reflexivity |].
  intros H. apply andb_true_iff in H as [Hc Hs].
  now rewrite (Hpq c Hc), IH.
Qed.

Lemma not_char_of (p : ascii -> bool) (x c : ascii) :
  p x = false -> p c = true -> not_char x c = true.
Proof.
  intros Hx Hc. unfold not_char. apply negb_true_iff.
  destruct (Ascii.eqb c x) eqn:E; [| reflexivity].
  apply Ascii.eqb_eq in E; subst c. congruence.
Qed.

(* ------------------------------------------------------------------ *)
(** ** [extractVariable] *)

Lemma search_none (Q : string -> Prop) (r : regex) :
  (forall c t, Q (String c t) -> Q t) ->
  (forall s, Q (rest s) -> rmatch r s Some = None) ->
  forall txt b, Q txt -> search r b txt = None.
Proof.
  intros Htail Hr txt; induction txt as [|c t IH]; intros b HQ; cbn [search].
  - now rewrite Hr.
  - rewrite Hr by assumption. apply IH. now apply Htail in HQ.
Qed.

Lemma extractVariable_unfold (txt variable : string) :
  extractVariable txt variable =
  match search (variable_regex variable) None txt with
  | None => None
  | Some (_, m) => option_map trim (caps m 1)
  end.
Proof. reflexivity. Qed.

Lemma no_semicolon_tail (c : ascii) (t : string) :
  all_chars (not_char ";") (String c t) = true ->
  all_chars (not_char ";") t = true.
Proof. simpl. intros H. now apply andb_true_iff in H as [_ H]. Qed.

Lemma variable_needs_semicolon (variable : string) (s : mstate) :
  all_chars (not_char ";") (rest s) = true ->
  rmatch (variable_regex variable) s Some = None.
Proof.
  intros Hs. unfold variable_regex.
  change (rmatch (Seq (lit variable) (Seq ws_star (Chr (is_char "=")))) s
            (fun s1 => rmatch (Group 1 (Star false (Chr any_char))) s1
                         (fun s2 => rmatch (Chr (is_char ";")) s2 Some)) = None).
  apply (rmatch_refused (fun t => all_chars (not_char ";") t = true)
           no_semicolon_tail); [assumption |].
  intros s1 Hs1.
  apply (rmatch_refused (fun t => all_chars (not_char ";") t = true)
           no_semicolon_tail); [assumption |].
  intros s2 Hs2. simpl. destruct (rest s2) as [|d t]; [reflexivity |].
  simpl in Hs2. apply andb_true_iff in Hs2 as [Hd _].
  unfold not_char in Hd. unfold is_char. apply negb_true_iff in Hd.
  now rewrite Hd.
Qed.

Lemma variable_regex_steps (variable : string) (s : mstate) (k : cont) :
  rmatch (variable_regex variable) s k =
  rmatch (lit variable) s
    (fun s0 => rmatch (Star true (Chr is_space)) s0
       (fun s1 => rmatch (Chr (is_char "=")) s1
          (fun s2 => rmatch (Star false (Chr any_char)) s2
             (fun s3 => rmatch (Chr (is_char ";"))
                          (MState (before s3) (rest s3)
                             (set_cap 1 (consumed s2 s3) (caps s3)))
                          k)))).
Proof. reflexivity. Qed.

(** One attempt of the pattern at the cursor. *)
Lemma variable_attempt (variable : string) (b : option ascii) (txt : string) :
  rmatch (variable_regex variable) (MState b txt no_caps) Some =
  match strip_prefix variable txt with
  | Some t =>
      match trimStart t with
      | String c t' =>
          if Ascii.eqb c "=" then
            match until_char ";" t' with
            | Some v => Some (MState (Some ";"%char) (after_char ";" t')
                                (set_cap 1 v no_caps))
            | None => None
            end
          else None
      | EmptyString => None
      end
  | None => None
  end.
Proof.
  rewrite variable_regex_steps, rmatch_lit. destruct (strip_prefix variable txt) as [t|]; [| reflexivity].
  rewrite rmatch_star_greedy.
  destruct (trimStart_split t) as (w & Ht & Hw & Hstop).
  remember (trimStart t) as t2 eqn:Et2. clear Et2. subst t.
  rewrite (greedy_class_end is_space (fun _ => True)); try assumption; auto.
  2:{ intros b' c t' _ Hc. simpl.
      now rewrite (is_char_false "=" c is_space Hc eq_refl). }
  destruct t2 as [|c t']; [reflexivity |].
  rewrite rmatch_chr. unfold is_char at 1.
  destruct (Ascii.eqb c "="); [| reflexivity].
  rewrite rmatch_star_lazy.
  destruct (until_char ";" t') as [v|] eqn:U.
  - destruct (until_char_split _ _ _ U) as (t3 & -> & Hv).
    rewrite (lazy_class_skip any_char (not_char ";"));
      [| | apply all_any_char | assumption].
    2:{ intros b' d t'' Hd. simpl. unfold is_char.
        unfold not_char in Hd. apply negb_true_iff in Hd. now rewrite Hd. }
    cbn [lazy_class rmatch rest caps before]. unfold is_char.
    rewrite Ascii.eqb_refl, consumed_app.
    replace (after_char ";" (v ++ String ";" t3)) with t3; [reflexivity |].
    clear U. induction v as [|d v IH]; simpl; [reflexivity |].
    simpl in Hv. apply andb_true_iff in Hv as [Hd Hv].
    unfold not_char in Hd. apply negb_true_iff in Hd. rewrite Hd. now apply IH.
  - apply (lazy_class_fail any_char (not_char ";")).
    + intros b' d t'' Hd. simpl. unfold is_char.
      unfold not_char in Hd. apply negb_true_iff in Hd. now rewrite Hd.
    + reflexivity.
    + now apply until_char_none.
Qed.

(** The first group of the leftmost match. *)
Lemma variable_search (variable : string) :
  identifier variable = true ->
  forall (txt : string) (b : option ascii),
    match search (variable_regex variable) b txt with
    | None => None
    | Some (_, m) => option_map trim (caps m 1)
    end = extractVariable_spec txt variable.
Proof.
  intros Hid txt; induction txt as [|c0 t0 IH]; intros b;
    unfold extractVariable_spec; cbn [search after_assignment];
    rewrite variable_attempt.
  - destruct (strip_prefix variable "") as [t|] eqn:S; [| reflexivity].
    destruct (trimStart t) as [|c t']; [reflexivity |].
    destruct (Ascii.eqb c "="); [| reflexivity].
    now destruct (until_char ";" t').
  - destruct (strip_prefix variable (String c0 t0)) as [t|] eqn:S;
      [| apply IH].
    destruct (trimStart t) as [|c t'] eqn:T; [apply IH |].
    destruct (Ascii.eqb c "=") eqn:Ec; [| apply IH].
    destruct (until_char ";" t') as [v|] eqn:U; [reflexivity |].
    (* no semicolon follows: no later start can match either *)
    simpl. apply Ascii.eqb_eq in Ec; subst c.
    assert (all_chars (not_char ";") (String c0 t0) = true) as Hno.
    { rewrite (strip_prefix_inv _ _ _ S).
      destruct (trimStart_split t) as (w & Ht & Hw & _). rewrite T in Ht.
      rewrite Ht, !all_chars_app. simpl.
      rewrite (until_char_none _ _ U).
      rewrite identifier_all_word in Hid.
      rewrite (all_chars_impl is_word (not_char ";") variable), 
              (all_chars_impl is_space (not_char ";") w); auto.
      - intros d Hd. now apply (not_char_of is_space).
      - intros d Hd. now apply (not_char_of is_word). }
    rewrite (search_none (fun t => all_chars (not_char ";") t = true));
      [reflexivity | apply no_semicolon_tail | | now apply no_semicolon_tail in Hno].
    intros s Hs. now apply variable_needs_semicolon.
Qed.

(** C10.  [extractVariable] looks for the name as a bare substring, with no
    word boundary in front of it: for every script text and every name
    (an identifier, which the pattern takes literally) it returns the
    trimmed text between the first occurrence of the name followed by
    optional white space and [=] (wherever it starts, also inside a longer
    identifier) and the next semicolon, and null when there is none; on
    [var max_port_num = 8;] the name [port_num] yields [8], the value of
    [max_port_num]. *)
Theorem extractVariable_bare_substring (txt variable : string) :
  identifier variable = true ->
  extractVariable txt variable = extractVariable_spec txt variable
  /\ extractVariable "var max_port_num = 8;" "port_num" = Some "8".
Proof.
  intros Hid. split; [| reflexivity].
  rewrite extractVariable_unfold. now apply variable_search.
Qed.

Lemma extractVariable_bare_substring_witness :
  identifier "port_num" = true
  /\ extractVariable "var max_port_num = 8;" "port_num" = Some "8"
  /\ extractVariable_spec "var max_port_num = 8;" "port_num" = Some "8".
Proof.
  split; [reflexivity |].
  destruct (extractVariable_bare_substring "var max_port_num = 8;" "port_num"
              eq_refl) as [H1 H2].
  split; [exact H2 |]. rewrite <- H1. exact H2.
Defined.

(* ------------------------------------------------------------------ *)
(** ** The name pattern and small numbers *)

Lemma greedy_class_to_end (p : ascii -> bool) (t : string) (b : option ascii)
    (g : nat -> option string) :
  match greedy_class p b t g
          (fun s => match rest s with
                    | EmptyString => Some s
                    | _ => None
                    end) with
  | Some _ => true
  | None => false
  end = all_chars p t.
Proof.
  revert b; induction t as [|c t IH]; intros b; simpl; [reflexivity |].
  destruct (p c); [| reflexivity]. specialize (IH (Some c)).
  destruct (greedy_class p (Some c) t g _); simpl; now rewrite <- IH.
Qed.

Lemma name_regex_test_spec (name : string) :
  name_regex_test name
  = negb (String.eqb name "") && all_chars is_name_char name.
Proof.
  unfold name_regex_test, test_anchored. destruct name as [|c t]; [reflexivity |].
  rewrite rmatch_plus, rmatch_chr. simpl (String.eqb _ _). simpl (all_chars _ _).
  destruct (is_name_char c); [| reflexivity].
  rewrite rmatch_star_greedy. apply greedy_class_to_end.
Qed.

Lemma parseInt_number_small (n : nat) :
  n < 40 -> parseInt_number (Z.of_nat n) = Some (Z.of_nat n).
Proof.
  intros H.
  do 40 (destruct n as [|n]; [vm_compute; reflexivity |]). lia.
Qed.

Lemma parseInt_number_range (z : Z) :
  (0 <= z < 40)%Z -> parseInt_number z = Some z.
Proof.
  intros H. rewrite <- (Z2Nat.id z) by lia.
  apply parseInt_number_small. lia.
Qed.

Lemma includes_In (members : list Z) (p : Z) :
  includes members p = true <-> In p members.
Proof.
  unfold includes. rewrite existsb_exists. split.
  - intros (x & Hx & E). apply Z.eqb_eq in E. now subst.
  - intros H. exists p. split; [assumption | apply Z.eqb_refl].
Qed.

(* ------------------------------------------------------------------ *)
(** ** [SetVLAN] *)

Ltac run_prog :=
  cbv beta iota zeta delta
    [trace_of result_of run bind fetch when ret throw exit get put try_catch
     call _login _logout fst snd];
  simpl.

Lemma selType_selector (members : list Z) (p : Z) (digit : string) :
  number_to_string p = digit ->
  selType members p = "&selType_" ++ digit ++ "=" ++ selector members p.
Proof.
  intros <-. unfold selType, selector.
  destruct (includes members p) eqn:E.
  - apply includes_In in E. now destruct (in_dec Z.eq_dec p members).
  - destruct (in_dec Z.eq_dec p members) as [H|H]; [| reflexivity].
    apply includes_In in H. congruence.
Qed.

(** C7.  For an id in 2..32 and a non-empty name over [[a-zA-Z0-9_-]],
    [SetVLAN] sends, between login and logout, exactly one GET: the delete
    request [selVlans=<id>&qvlan_del=Delete] when the member list is empty,
    and otherwise the add-or-modify request with the id, the name and the
    eight parameters [selType_1] .. [selType_8], each 1 when its port is a
    member and 2 when it is not.  Ids 1 and 33 are rejected: nothing is sent
    between login and logout. *)
Theorem SetVLAN_requests (server username password name : string)
    (vlan : Z) (members : list Z) (tr : transport) :
  (2 <= vlan <= 32)%Z ->
  name <> "" ->
  all_chars is_name_char name = true ->
  trace_of (SetVLAN server username password vlan name members) tr tt
  = attempts tr []
      [login_request server username password None;
       GET (match members with
            | [] =>
                "http://" ++ server ++ ":80/qvlanSet.cgi?selVlans="
                ++ number_to_string vlan ++ "&qvlan_del=Delete"
            | _ :: _ =>
                "http://" ++ server ++ ":80/qvlanSet.cgi?vid="
                ++ number_to_string vlan ++ "&vname=" ++ name
                ++ "&selType_1=" ++ selector members 1
                ++ "&selType_2=" ++ selector members 2
                ++ "&selType_3=" ++ selector members 3
                ++ "&selType_4=" ++ selector members 4
                ++ "&selType_5=" ++ selector members 5
                ++ "&selType_6=" ++ selector members 6
                ++ "&selType_7=" ++ selector members 7
                ++ "&selType_8=" ++ selector members 8
                ++ "&qvlan_add=Add%2FModify"
            end);
       logout_request server]
  /\ trace_of (SetVLAN server username password 1 name members) tr tt
     = attempts tr []
         [login_request server username password None; logout_request server]
  /\ trace_of (SetVLAN server username password 33 name members) tr tt
     = attempts tr []
         [login_request server username password None; logout_request server].
Proof.
  intros Hvlan Hne Hname.
  assert (name_regex_test name = true) as Htest.
  { rewrite name_regex_test_spec, Hname.
    destruct name; [congruence | reflexivity]. }
  assert (String.eqb name "" = false) as Hne' by now apply String.eqb_neq.
  split; [| split].
  - unfold SetVLAN. rewrite parseInt_number_range by lia.
    unfold num_le, isArray, truthy. rewrite Htest, Hne'.
    replace (2 <=? vlan)%Z with true by (symmetry; apply Z.leb_le; lia).
    replace (vlan <=? 32)%Z with true by (symmetry; apply Z.leb_le; lia).
    run_prog.
    destruct (tr [] _) as [e|r]; [reflexivity |]. simpl.
    destruct members as [|m members']; simpl.
    + unfold vlan_delete_url, VLAN_PATH; simpl.
      rewrite ?append_assoc; simpl.
      destruct (tr [_] _) as [e|r']; [reflexivity |]. simpl.
      destruct (tr [_; _] _) as [e|r'']; reflexivity.
    + set (ms := m :: members').
      assert (vlan_modify_url server (Num vlan) name ms
              = "http://" ++ server ++ ":80/qvlanSet.cgi?vid="
                ++ number_to_string vlan ++ "&vname=" ++ name
                ++ "&selType_1=" ++ selector ms 1
                ++ "&selType_2=" ++ selector ms 2
                ++ "&selType_3=" ++ selector ms 3
                ++ "&selType_4=" ++ selector ms 4
                ++ "&selType_5=" ++ selector ms 5
                ++ "&selType_6=" ++ selector ms 6
                ++ "&selType_7=" ++ selector ms 7
                ++ "&selType_8=" ++ selector ms 8
                ++ "&qvlan_add=Add%2FModify")%string as Hurl.
      { unfold vlan_modify_url, VLAN_PATH.
        rewrite (selType_selector ms 1 "1"), (selType_selector ms 2 "2"),
          (selType_selector ms 3 "3"), (selType_selector ms 4 "4"),
          (selType_selector ms 5 "5"), (selType_selector ms 6 "6"),
          (selType_selector ms 7 "7"), (selType_selector ms 8 "8")
          by reflexivity.
        rewrite !append_assoc. reflexivity. }
      rewrite Hurl.
      destruct (tr [_] _) as [e|r']; [reflexivity |]. simpl.
      destruct (tr [_; _] _) as [e|r'']; reflexivity.
  - run_prog. unfold SetVLAN; run_prog.
    destruct (tr [] _) as [e|r]; [reflexivity |]. simpl.
    destruct (tr [_] _) as [e|r']; reflexivity.
  - run_prog. unfold SetVLAN; run_prog.
    destruct (tr [] _) as [e|r]; [reflexivity |]. simpl.
    destruct (tr [_] _) as [e|r']; reflexivity.
Qed.

Lemma SetVLAN_requests_witness :
  (2 <= 5 <= 32)%Z
  /\ "ops-1" <> ""
  /\ all_chars is_name_char "ops-1" = true
  /\ trace_of (SetVLAN "192.168.0.1" "admin" "admin" 5 "ops-1" [2; 4]%Z)
       silent_device tt
     = [login_request "192.168.0.1" "admin" "admin" None;
        GET ("http://192.168.0.1:80/qvlanSet.cgi?vid=5&vname=ops-1"
             ++ "&selType_1=2&selType_2=1&selType_3=2&selType_4=1"
             ++ "&selType_5=2&selType_6=2&selType_7=2&selType_8=2"
             ++ "&qvlan_add=Add%2FModify");
        logout_request "192.168.0.1"].
Proof.
  split; [lia |]. split; [discriminate |]. split; [reflexivity |].
  destruct (SetVLAN_requests "192.168.0.1" "admin" "admin" "ops-1" 5
              [2; 4]%Z silent_device) as [H _];
    [lia | discriminate | reflexivity |].
  rewrite H. reflexivity.
Defined.

(* ------------------------------------------------------------------ *)
(** ** [SetSwitch] and [SetPort] *)

(** What decides the rename request. *)
Lemma SetSwitch_rename_condition (name : string) :
  (truthy (Str name) && negb (String.eqb name "") && (String.length name <? 32))
  || name_regex_test name
  = negb (String.eqb name "")
    && ((String.length name <? 32) || all_chars is_name_char name).
Proof.
  rewrite name_regex_test_spec. unfold truthy.
  destruct (String.eqb name ""); simpl; [reflexivity |].
  reflexivity.
Qed.

(** C3.  The rename condition of [SetSwitch] joins the length test and the
    charset test with [||]: a short name with a space and a name of 40
    characters of the charset are both sent to the device. *)
Theorem SetSwitch_sends_invalid_names :
  trace_of (SetSwitch "192.168.0.1" "admin" "admin" "my switch" 1)
    silent_device tt
  = [login_request "192.168.0.1" "admin" "admin" None;
     GET "http://192.168.0.1:80/system_name_set.cgi?sysName=my switch";
     GET "http://192.168.0.1:80/qvlanSet.cgi?qvlan_en=1&qvlan_mode=Apply";
     logout_request "192.168.0.1"]
  /\ String.length "a123456789b123456789c123456789d123456789" = 40
  /\ trace_of (SetSwitch "192.168.0.1" "admin" "admin"
                 "a123456789b123456789c123456789d123456789" 1)
       silent_device tt
     = [login_request "192.168.0.1" "admin" "admin" None;
        GET ("http://192.168.0.1:80/system_name_set.cgi?sysName="
             ++ "a123456789b123456789c123456789d123456789");
        GET "http://192.168.0.1:80/qvlanSet.cgi?qvlan_en=1&qvlan_mode=Apply";
        logout_request "192.168.0.1"].
Proof. repeat split; vm_compute; reflexivity. Qed.

(** C4.  With the flag 0 [SetSwitch] sends no mode request: the test
    [vlan && (vlan === 0 || vlan === 1)] is false for 0, whatever the name.
    The flag 1 is sent, also next to a name that is not valid. *)
Theorem SetSwitch_skips_vlan_zero (server username password name : string)
    (tr : transport) :
  trace_of (SetSwitch server username password name 0) tr tt
  = trace_of (SetSwitch server username password name 2) tr tt
  /\ trace_of (SetSwitch "192.168.0.1" "admin" "admin" "Switch-007" 0)
       silent_device tt
     = [login_request "192.168.0.1" "admin" "admin" None;
        GET "http://192.168.0.1:80/system_name_set.cgi?sysName=Switch-007";
        logout_request "192.168.0.1"]
  /\ trace_of (SetSwitch "192.168.0.1" "admin" "admin" "" 1)
       silent_device tt
     = [login_request "192.168.0.1" "admin" "admin" None;
        GET "http://192.168.0.1:80/qvlanSet.cgi?qvlan_en=1&qvlan_mode=Apply";
        logout_request "192.168.0.1"].
Proof.
  split; [reflexivity |]. split; vm_compute; reflexivity.
Qed.

(** C5.  [SetPort] accepts the placeholder speed [''] (index 7): the test
    on [speedIndex] only refuses an unknown speed and ['down'].  Port 4 with
    state 0 and ['100MH'] is sent with speed index 4; port 9 and the speed
    ['down'] are refused. *)
Theorem SetPort_accepts_unset_speed :
  trace_of (SetPort "192.168.0.1" "admin" "admin" 4 0 "") silent_device tt
  = [login_request "192.168.0.1" "admin" "admin" None;
     GET ("http://192.168.0.1:80/port_setting.cgi?portid=4&state=0&speed=7"
          ++ "&flowcontrol=0&apply=Apply");
     logout_request "192.168.0.1"]
  /\ trace_of (SetPort "192.168.0.1" "admin" "admin" 4 0 "100MH")
       silent_device tt
     = [login_request "192.168.0.1" "admin" "admin" None;
        GET ("http://192.168.0.1:80/port_setting.cgi?portid=4&state=0&speed=4"
             ++ "&flowcontrol=0&apply=Apply");
        logout_request "192.168.0.1"]
  /\ trace_of (SetPort "192.168.0.1" "admin" "admin" 9 0 "100MH")
       silent_device tt
     = [login_request "192.168.0.1" "admin" "admin" None;
        logout_request "192.168.0.1"]
  /\ trace_of (SetPort "192.168.0.1" "admin" "admin" 4 0 "down")
       silent_device tt
     = [login_request "192.168.0.1" "admin" "admin" None;
        logout_request "192.168.0.1"].
Proof. repeat split; vm_compute; reflexivity. Qed.

(* ------------------------------------------------------------------ *)
(** ** [Diagnosis] *)

(** C8 as stated fails: when the login times out, the probe returns
    'not accessible' and no logout is attempted. *)
Lemma Diagnosis_timeout_sends_no_logout :
  result_of (Diagnosis "192.168.0.1" "admin" "admin") unreachable_device ""
  = Return "not accessible"
  /\ ~ In (logout_request "192.168.0.1")
       (trace_of (Diagnosis "192.168.0.1" "admin" "admin")
          unreachable_device "").
Proof.
  split; [reflexivity |].
  vm_compute. intros [H | []]. discriminate H.
Qed.

(** C8, amended.  [Diagnosis] starts at 'not accessible'; a login POST
    (sent with a timeout of 1000 ms) that is answered advances it to
    'not authorized'; an answer of status 200 to the GET of the switch-info
    page advances it to 'authorized'.  A rejection named AbortError, of any
    of the three requests, ends the probe with the state reached; any other
    rejection exits the process with code 1.  The logout is attempted exactly
    when the login and the switch-info request were both answered. *)
Theorem Diagnosis_by_cases (server username password : string)
    (tr : transport) (connection_state : string) :
  run (Diagnosis server username password) tr connection_state
  = Diagnosis_cases server username password tr.
Proof.
  unfold Diagnosis, Diagnosis_cases, on_rejection. run_prog.
  unfold SWITCH_INFO_PATH, LOGOUT_PATH.
  destruct (tr [] _) as [e|r]; simpl.
  - destruct (String.eqb (exn_name e) "AbortError"); reflexivity.
  - destruct (tr [_] _) as [e|r2]; simpl.
    + destruct (String.eqb (exn_name e) "AbortError"); reflexivity.
    + destruct (status r2 =? 200)%Z; simpl;
        (destruct (tr [_; _] _) as [e|r3]; simpl;
         [destruct (String.eqb (exn_name e) "AbortError"); reflexivity
         | reflexivity]).
Qed.

(* ------------------------------------------------------------------ *)
(** ** The membership masks of [_vlanInfo] *)

Lemma fold_left_push {A B : Type} (f : A -> bool) (g : A -> B) (l : list A)
    (init : list B) :
  fold_left (fun acc i => if f i then (acc ++ [g i])%list else acc) l init
  = (init ++ map g (filter f l))%list.
Proof.
  revert init; induction l as [|a l IH]; intros init; simpl.
  - now rewrite app_nil_r.
  - rewrite IH. destruct (f a); simpl; [| reflexivity].
    now rewrite <- app_assoc.
Qed.

Lemma members_of_filter (value : option Z) :
  members_of value
  = map (fun i => (Z.of_nat i + 1)%Z) (filter (isBitSet value) (seq 0 16)).
Proof. unfold members_of. now rewrite fold_left_push. Qed.

Lemma land_bit (a : Z) (i : Z) :
  (0 <= i)%Z ->
  negb (Z.land a (Z.shiftl 1 i) =? 0)%Z = Z.testbit a i.
Proof.
  intros Hi. rewrite Z.shiftl_1_l.
  destruct (Z.testbit a i) eqn:E.
  - apply negb_true_iff, Z.eqb_neq. intros H.
    assert (Z.testbit (Z.land a (2 ^ i)) i = true) as Hb.
    { rewrite Z.land_spec, E, Z.pow2_bits_true by assumption. reflexivity. }
    rewrite H, Z.bits_0 in Hb. discriminate.
  - apply negb_false_iff, Z.eqb_eq. apply Z.bits_inj'. intros m Hm.
    rewrite Z.land_spec, Z.bits_0.
    destruct (Z.eq_dec i m) as [<- | Hne].
    + now rewrite E.
    + rewrite (Z.pow2_bits_false i m) by assumption. apply andb_false_r.
Qed.

Lemma toInt32_testbit (z i : Z) :
  (0 <= i < 32)%Z -> Z.testbit (toInt32 (Some z)) i = Z.testbit z i.
Proof.
  intros Hi. unfold toInt32.
  rewrite <- (Z.mod_pow2_bits_low _ 32 i) by lia.
  rewrite <- (Z.mod_pow2_bits_low z 32 i) by lia.
  f_equal.
  rewrite <- Zminus_mod_idemp_l, Z.mod_mod by lia.
  rewrite Zminus_mod_idemp_l. f_equal. lia.
Qed.

Lemma isBitSet_testbit (z : Z) (i : nat) :
  i < 16 -> isBitSet (Some z) i = Z.testbit z (Z.of_nat i).
Proof.
  intros Hi. unfold isBitSet.
  rewrite land_bit by lia. apply toInt32_testbit. lia.
Qed.

Lemma isBitSet_NaN (i : nat) : isBitSet None i = false.
Proof. unfold isBitSet. simpl. reflexivity. Qed.

(** C6 as stated fails: bit 8 of a mask yields port 9. *)
Lemma mask_bit_8_yields_port_9 : ~ members_within_8 "100".
Proof.
  intros H. destruct (H 9%Z) as [H1 _].
  assert (In 9%Z (decode_members (Some "100"))) as Hin
    by (vm_compute; auto).
  apply H1 in Hin. lia.
Qed.

(** C6, amended.  The decoding of a mask entry holds exactly the port
    numbers p in 1..16 whose bit p-1 is set in the value [parseInt] reads
    from the entry in radix 16 (none when that is NaN): the loops run over
    all 16 bits, and bits 8..15 yield the ports 9..16.  ['FF'] gives 1..8,
    ['AA'] gives 2, 4, 6, 8 and ['00'] gives nothing. *)
Theorem decode_members_16_bits (entry : string) (p : Z) :
  (In p (decode_members (Some entry)) <->
   (1 <= p <= 16)%Z /\
   exists v, parseInt entry (Some 16) = Some v /\ Z.testbit v (p - 1) = true)
  /\ decode_members (Some "FF") = [1; 2; 3; 4; 5; 6; 7; 8]%Z
  /\ decode_members (Some "AA") = [2; 4; 6; 8]%Z
  /\ decode_members (Some "00") = []
  /\ decode_members (Some "100") = [9]%Z.
Proof.
  split; [| repeat split; vm_compute; reflexivity].
  unfold decode_members, parseInt_opt. rewrite members_of_filter.
  rewrite in_map_iff. split.
  - intros (i & <- & Hi). apply filter_In in Hi as [Hr Hb].
    apply in_seq in Hr. split; [lia |].
    destruct (parseInt entry (Some 16)) as [v|].
    + exists v. split; [reflexivity |].
      rewrite isBitSet_testbit in Hb by lia.
      now replace (Z.of_nat i + 1 - 1)%Z with (Z.of_nat i) by lia.
    + now rewrite isBitSet_NaN in Hb.
  - intros (Hp & v & -> & Hb). exists (Z.to_nat (p - 1)). split; [lia |].
    apply filter_In. split; [apply in_seq; lia |].
    rewrite isBitSet_testbit by lia. now rewrite Z2Nat.id by lia.
Qed.

(* ------------------------------------------------------------------ *)
(** ** Requests of a routine *)

Lemma append_inj_l (s a b : string) : s ++ a = s ++ b -> a = b.
Proof.
  induction s as [|c s IH]; simpl; intros H; [assumption |].
  inversion H. now apply IH.
Qed.

Section Quiet.
Context {L : Type} (P : request -> Prop).

Lemma quiet_ret {A : Type} (a : A) : quiet P (@ret L A a).
Proof.
  intros tr l h. exists l, [], (Return a). rewrite app_nil_r.
  repeat split; [constructor | discriminate].
Qed.

Lemma quiet_throw {A : Type} (e : exn) : quiet P (@throw L A e).
Proof.
  intros tr l h. exists l, [], (Throw e). rewrite app_nil_r.
  repeat split; [constructor | discriminate].
Qed.

Lemma quiet_get : quiet P (@get L).
Proof.
  intros tr l h. exists l, [], (Return l). rewrite app_nil_r.
  repeat split; [constructor | discriminate].
Qed.

Lemma quiet_put (l0 : L) : quiet P (put l0).
Proof.
  intros tr l h. exists l0, [], (Return tt). rewrite app_nil_r.
  repeat split; [constructor | discriminate].
Qed.

Lemma quiet_fetch (rq : request) : P rq -> quiet P (@fetch L rq).
Proof.
  intros Hrq tr l h. unfold fetch.
  destruct (tr h rq) as [e|r];
    [exists l, [rq], (Throw e) | exists l, [rq], (Return r)];
    repeat split; try (constructor; [assumption | constructor]);
    discriminate.
Qed.

Lemma quiet_bind {A B : Type} (m : Prog L A) (f : A -> Prog L B) :
  quiet P m -> (forall a, quiet P (f a)) -> quiet P (bind m f).
Proof.
  intros Hm Hf tr l h. unfold bind.
  destruct (Hm tr l h) as (l1 & ext1 & o1 & -> & HP1 & Hx1).
  destruct o1 as [a|e|c].
  - destruct (Hf a tr l1 (h ++ ext1)%list) as (l2 & ext2 & o2 & -> & HP2 & Hx2).
    exists l2, (ext1 ++ ext2)%list, o2. rewrite app_assoc.
    repeat split; [now apply Forall_app | assumption].
  - exists l1, ext1, (Throw e). repeat split; [assumption | discriminate].
  - now destruct (Hx1 c).
Qed.

Lemma quiet_when (c : bool) (m : Prog L unit) :
  quiet P m -> quiet P (when c m).
Proof. intros Hm. destruct c; [assumption | apply quiet_ret]. Qed.

Lemma quiet_for_loop (body : nat -> Prog L unit) :
  (forall i, quiet P (body i)) ->
  forall count from, quiet P (for_loop count from body).
Proof.
  intros Hbody count; induction count as [|count IH]; intros from; simpl.
  - apply quiet_ret.
  - apply quiet_bind; [apply Hbody | intros _; apply IH].
Qed.

Lemma quiet_for_upto (bound : option Z) (body : nat -> Prog L unit) :
  (forall i, quiet P (body i)) -> quiet P (for_upto bound body).
Proof.
  intros Hbody. destruct bound; simpl;
    [now apply quiet_for_loop | apply quiet_ret].
Qed.
End Quiet.

Lemma quiet_call {L L' A : Type} (P : request -> Prop) (init : L')
    (m : Prog L' A) :
  quiet P m -> quiet P (@call L L' A init m).
Proof.
  intros Hm tr l h. unfold call.
  destruct (Hm tr init h) as (l1 & ext1 & o1 & -> & HP1 & Hx1).
  now exists l, ext1, o1.
Qed.

Ltac quiet_step :=
  match goal with
  | |- quiet _ (bind _ _) => apply quiet_bind; [| intros]
  | |- quiet _ (ret _) => apply quiet_ret
  | |- quiet _ (throw _) => apply quiet_throw
  | |- quiet _ get => apply quiet_get
  | |- quiet _ (put _) => apply quiet_put
  | |- quiet _ (fetch _) => apply quiet_fetch
  | |- quiet _ (when _ _) => apply quiet_when
  | |- quiet _ (for_upto _ _) => apply quiet_for_upto; intros
  | |- quiet _ (call _ _) => apply quiet_call
  | |- quiet _ (match ?x with _ => _ end) => destruct x
  end.

(** No request of the authenticated region goes to the logout page. *)
Lemma GET_not_logout (server tail : string) :
  tail <> LOGOUT_PATH ->
  not_logout server (GET ("http://" ++ server ++ tail)).
Proof.
  intros Hne H. unfold logout_request, GET in H.
  assert ("http://" ++ server ++ tail = "http://" ++ server ++ LOGOUT_PATH)
    as Hu by congruence.
  apply (append_inj_l "http://"), append_inj_l in Hu. contradiction.
Qed.

Lemma login_not_logout (server username password : string) (sig : option Z) :
  not_logout server (login_request server username password sig).
Proof. intros H. discriminate H. Qed.

Lemma quiet_portInfo1 (server : string) :
  quiet (not_logout server) (_portInfo1 server).
Proof.
  unfold _portInfo1, split_of, allocate_port, update_port.
  repeat quiet_step. now apply GET_not_logout.
Qed.

Lemma quiet_portInfo2 (server : string) :
  quiet (not_logout server) (_portInfo2 server).
Proof.
  unfold _portInfo2, split_of, update_port.
  repeat quiet_step. now apply GET_not_logout.
Qed.

Lemma quiet_vlanInfo (server : string) :
  quiet (not_logout server) (_vlanInfo server).
Proof.
  unfold _vlanInfo, split_of, stripQuotes_of, allocate_vlan, update_vlan.
  repeat quiet_step. now apply GET_not_logout.
Qed.

Lemma quiet_switchInfo (server : string) :
  quiet (not_logout server) (_switchInfo server).
Proof.
  unfold _switchInfo, stripQuotes_of.
  repeat (first [ apply quiet_portInfo1 | apply quiet_portInfo2
                | apply quiet_vlanInfo | quiet_step ]).
  now apply GET_not_logout.
Qed.

(** The frame of the operations. *)
Lemma closes_logout {L : Type} (server : string) :
  closes_session server (@_logout L server).
Proof.
  intros tr l h. unfold _logout, bind, fetch, ret.
  destruct (tr h (logout_request server)) as [e|r] eqn:E.
  - exists l, [logout_request server], (Throw e). split; [reflexivity |].
    left. exists []. now rewrite app_nil_r.
  - exists l, [logout_request server], (Return tt). split; [reflexivity |].
    now exists [].
Qed.

Lemma closes_bind {L A B : Type} (server : string) (m : Prog L A)
    (f : A -> Prog L B) :
  quiet (not_logout server) m -> (forall a, closes_session server (f a)) ->
  closes_session server (bind m f).
Proof.
  intros Hm Hf tr l h. unfold bind.
  destruct (Hm tr l h) as (l1 & ext1 & o1 & -> & HP1 & Hx1).
  destruct o1 as [a|e|c].
  - destruct (Hf a tr l1 (h ++ ext1)%list) as (l2 & ext2 & o2 & -> & H2).
    exists l2, (ext1 ++ ext2)%list, o2. rewrite app_assoc.
    split; [reflexivity |]. destruct o2 as [b|e|c].
    + destruct H2 as (ext' & ->). exists (ext1 ++ ext')%list.
      now rewrite app_assoc.
    + destruct H2 as [(ext' & -> & Htr) | HP2].
      * left. exists (ext1 ++ ext')%list. now rewrite !app_assoc.
      * right. now apply Forall_app.
    + assumption.
  - exists l1, ext1, (Throw e). split; [reflexivity | now right].
  - now destruct (Hx1 c).
Qed.

(** After the logout nothing is sent and nothing is thrown. *)
Lemma closes_then {L A B : Type} (server : string) (m : Prog L A)
    (f : A -> Prog L B) :
  closes_session server m ->
  (forall a tr l h, exists l' b, f a tr l h = (l', h, Return b)) ->
  closes_session server (bind m f).
Proof.
  intros Hm Hf tr l h. unfold bind.
  destruct (Hm tr l h) as (l1 & ext1 & o1 & -> & H1).
  destruct o1 as [a|e|c].
  - destruct (Hf a tr l1 (h ++ ext1)%list) as (l2 & b & ->).
    now exists l2, ext1, (Return b).
  - now exists l1, ext1, (Throw e).
  - destruct H1.
Qed.

Lemma closes_Info (server username password : string) :
  closes_session server (Info server username password).
Proof.
  unfold Info.
  apply closes_bind;
    [unfold _login; repeat quiet_step; apply login_not_logout | intros _].
  apply closes_bind; [apply quiet_call, quiet_switchInfo | intros result].
  apply closes_then; [apply closes_logout |].
  intros _ tr l h. now exists l, result.
Qed.

Lemma closes_SetSwitch (server username password name : string) (vlan : Z) :
  closes_session server (SetSwitch server username password name vlan).
Proof.
  unfold SetSwitch.
  apply closes_bind;
    [unfold _login; repeat quiet_step; apply login_not_logout | intros _].
  apply closes_bind.
  { repeat quiet_step. unfold rename_url.
    now apply (GET_not_logout server (SWITCH_PATH ++ "?sysName=" ++ name)). }
  intros _. apply closes_bind; [| intros _; apply closes_logout].
  repeat quiet_step. unfold vlan_mode_url.
  now apply (GET_not_logout server
               (VLAN_PATH ++ "?qvlan_en=" ++ number_to_string vlan
                ++ "&qvlan_mode=Apply")).
Qed.

Lemma closes_SetPort (server username password : string) (port state : Z)
    (speed : string) :
  closes_session server (SetPort server username password port state speed).
Proof.
  unfold SetPort.
  apply closes_bind;
    [unfold _login; repeat quiet_step; apply login_not_logout | intros _].
  cbv zeta. apply closes_bind; [| intros _; apply closes_logout].
  repeat quiet_step. unfold port_url.
  match goal with
  | |- not_logout _ (GET ("http://" ++ server ++ ?tail)) =>
      now apply (GET_not_logout server tail)
  end.
Qed.

Lemma closes_SetVLAN (server username password : string) (vlan : Z)
    (name : string) (members : list Z) :
  closes_session server (SetVLAN server username password vlan name members).
Proof.
  unfold SetVLAN.
  apply closes_bind;
    [unfold _login; repeat quiet_step; apply login_not_logout | intros _].
  cbv zeta. apply closes_bind; [| intros _; apply closes_logout].
  apply quiet_when. destruct (List.length members =? 0); repeat quiet_step.
  - unfold vlan_delete_url.
    match goal with
    | |- not_logout _ (GET ("http://" ++ server ++ ?tail)) =>
        now apply (GET_not_logout server tail)
    end.
  - unfold vlan_modify_url. rewrite !append_assoc.
    match goal with
    | |- not_logout _ (GET ("http://" ++ server ++ ?tail)) =>
        now apply (GET_not_logout server tail)
    end.
Qed.

(** [Info] after a login that went through and an identity request that is
    rejected: the rejection leaves [Info], and no logout is sent.  (The
    header of [Info] in the source promises [{}] in case of an error.) *)
Lemma Info_failure_skips_logout :
  login_only_device [] (login_request "192.168.0.1" "admin" "admin" None)
  = inr (Response 200 "")
  /\ perform OpInfo "192.168.0.1" "admin" "admin" login_only_device
     = ([login_request "192.168.0.1" "admin" "admin" None;
         GET "http://192.168.0.1:80/SystemInfoRpm.htm"],
        Throw (Exn "FetchError"))
  /\ ~ In (logout_request "192.168.0.1")
       (fst (perform OpInfo "192.168.0.1" "admin" "admin" login_only_device)).
Proof.
  split; [reflexivity |]. split; [reflexivity |].
  vm_compute. intros [H | [H | []]]; discriminate H.
Qed.

(** C1 as stated fails: the configure request of [SetPort] is rejected after
    a login that went through, the rejection leaves [SetPort], and no logout
    is sent. *)
Lemma SetPort_failure_skips_logout :
  login_only_device [] (login_request "192.168.0.1" "admin" "admin" None)
  = inr (Response 200 "")
  /\ perform (OpSetPort 4 1 "Auto") "192.168.0.1" "admin" "admin"
       login_only_device
     = ([login_request "192.168.0.1" "admin" "admin" None;
         GET ("http://192.168.0.1:80/port_setting.cgi?portid=4&state=1"
              ++ "&speed=1&flowcontrol=0&apply=Apply")],
        Throw (Exn "FetchError"))
  /\ ~ In (logout_request "192.168.0.1")
       (fst (perform (OpSetPort 4 1 "Auto") "192.168.0.1" "admin" "admin"
               login_only_device)).
Proof.
  split; [reflexivity |]. split; [vm_compute; reflexivity |].
  vm_compute. intros [H | [H | []]]; discriminate H.
Qed.

(** An operation that closes its session has sent the logout last when it
    returns, and it does not exit the process. *)
Lemma closes_returns {L A : Type} (server : string) (m : Prog L A)
    (tr : transport) (l : L) :
  closes_session server m ->
  match (snd (fst (run m tr l)), forget (snd (run m tr l))) with
  | (trace, Return _) => exists h, trace = (h ++ [logout_request server])%list
  | (_, Throw _) => True
  | (_, Exit _) => False
  end.
Proof.
  intros Hm. unfold run.
  destruct (Hm tr l []) as (l' & ext & o' & -> & H). simpl.
  destruct o' as [a|e|c]; simpl; [assumption | exact I | assumption].
Qed.

Lemma not_logout_In (server : string) (reqs : list request) :
  Forall (not_logout server) reqs -> ~ In (logout_request server) reqs.
Proof.
  intros H Hin. rewrite Forall_forall in H. now apply (H _ Hin).
Qed.

Ltac answer_all tr :=
  repeat (match goal with
          | |- context [tr ?h ?rq] => destruct (tr h rq); simpl
          end); reflexivity.

(** The write operations send a fixed sequence of requests. *)
Lemma SetSwitch_in_sequence (server username password name : string)
    (vlan : Z) :
  exists middle,
    Forall (not_logout server) middle
    /\ forall tr,
         perform (OpSetSwitch name vlan) server username password tr
         = in_sequence tr
             (login_request server username password None
              :: middle ++ [logout_request server]).
Proof.
  exists ((if (truthy (Str name) && negb (String.eqb name "")
               && (String.length name <? 32))
              || name_regex_test name
           then [GET (rename_url server name)] else [])
          ++ (if truthy (Num vlan) && ((vlan =? 0)%Z || (vlan =? 1)%Z)
              then [GET (vlan_mode_url server vlan)] else []))%list.
  split.
  - apply Forall_app. split.
    + destruct (_ || _); constructor; [| constructor].
      unfold rename_url.
      now apply (GET_not_logout server (SWITCH_PATH ++ "?sysName=" ++ name)).
    + destruct (_ && _); constructor; [| constructor].
      unfold vlan_mode_url.
      now apply (GET_not_logout server
                   (VLAN_PATH ++ "?qvlan_en=" ++ number_to_string vlan
                    ++ "&qvlan_mode=Apply")).
  - intros tr. unfold perform, in_sequence, SetSwitch.
    destruct (_ || _); destruct (_ && _); run_prog; answer_all tr.
Qed.

Lemma SetPort_in_sequence (server username password : string)
    (port state : Z) (speed : string) :
  exists middle,
    Forall (not_logout server) middle
    /\ forall tr,
         perform (OpSetPort port state speed) server username password tr
         = in_sequence tr
             (login_request server username password None
              :: middle ++ [logout_request server]).
Proof.
  exists (if num_le (Some 1%Z) (parseInt_number port)
             && num_le (parseInt_number port) (Some 8%Z)
             && (num_eq (parseInt_number state) (Some 0%Z)
                 || num_eq (parseInt_number state) (Some 1%Z))
             && truthy (SPEED2VALUE speed)
          then [GET (port_url server (of_number (parseInt_number port))
                       (of_number (parseInt_number state))
                       (SPEED2VALUE speed))]
          else []).
  split.
  - destruct (_ && _); constructor; [| constructor].
    unfold port_url.
    match goal with
    | |- not_logout _ (GET ("http://" ++ server ++ ?tail)) =>
        now apply (GET_not_logout server tail)
    end.
  - intros tr. unfold perform, in_sequence, SetPort. cbv zeta.
    destruct (_ && _); run_prog; answer_all tr.
Qed.

Lemma SetVLAN_in_sequence (server username password : string) (vlan : Z)
    (name : string) (members : list Z) :
  exists middle,
    Forall (not_logout server) middle
    /\ forall tr,
         perform (OpSetVLAN vlan name members) server username password tr
         = in_sequence tr
             (login_request server username password None
              :: middle ++ [logout_request server]).
Proof.
  exists (if num_le (Some 2%Z) (parseInt_number vlan)
             && num_le (parseInt_number vlan) (Some 32%Z)
             && truthy (Str name) && negb (String.eqb name "")
             && name_regex_test name && isArray members
          then [GET (if List.length members =? 0
                     then vlan_delete_url server
                            (of_number (parseInt_number vlan))
                     else vlan_modify_url server
                            (of_number (parseInt_number vlan)) name members)]
          else []).
  split.
  - destruct (_ && _); constructor; [| constructor].
    destruct (List.length members =? 0).
    + unfold vlan_delete_url.
      match goal with
      | |- not_logout _ (GET ("http://" ++ server ++ ?tail)) =>
          now apply (GET_not_logout server tail)
      end.
    + unfold vlan_modify_url. rewrite !append_assoc.
      match goal with
      | |- not_logout _ (GET ("http://" ++ server ++ ?tail)) =>
          now apply (GET_not_logout server tail)
      end.
  - intros tr. unfold perform, in_sequence, SetVLAN. cbv zeta.
    destruct (_ && _); [destruct (List.length members =? 0) |];
      run_prog; answer_all tr.
Qed.

(** [Info] once the login is answered and the reader has returned. *)
Lemma Info_after_reading (server username password : string)
    (tr : transport) (r : response) (l : Switch) (t : list request)
    (s : Switch) :
  tr [] (login_request server username password None) = inr r ->
  _switchInfo server tr empty_switch
    [login_request server username password None] = (l, t, Return s) ->
  ~ In (logout_request server) t
  /\ perform OpInfo server username password tr
     = ((t ++ [logout_request server])%list,
        match tr t (logout_request server) with
        | inl e => Throw e
        | inr _ => Return tt
        end).
Proof.
  intros Hlogin Hread. split.
  - destruct (quiet_switchInfo server tr empty_switch
                [login_request server username password None])
      as (l' & ext & o & E & HF & _).
    rewrite Hread in E. injection E as _ -> _.
    apply (not_logout_In server
             (login_request server username password None :: ext)).
    constructor; [apply login_not_logout | assumption].
  - assert (Info server username password tr tt []
            = (tt, (t ++ [logout_request server])%list,
               match tr t (logout_request server) with
               | inl e => Throw e
               | inr _ => Return s
               end)) as E.
    { unfold Info.
      unfold bind at 1. unfold _login at 1. unfold bind at 1, fetch at 1.
      rewrite Hlogin. unfold ret at 1. unfold bind at 1, call at 1.
      change ([] ++ [login_request server username password None])%list
        with [login_request server username password None].
      rewrite Hread. unfold bind at 1. unfold _logout at 1.
      unfold bind at 1, fetch at 1.
      now destruct (tr t (logout_request server)). }
    unfold perform, run. cbv zeta. rewrite E. simpl.
    now destruct (tr t (logout_request server)).
Qed.

(** C1, amended.  Each of [Info], [SetSwitch], [SetPort] and [SetVLAN] sends
    the logout, as its last request, when the login and the step between
    login and logout complete; an operation that returns has sent the
    logout last, and none of them exits the process.  For [Info]: once the
    login is answered and the reader has returned, the logout follows the
    requests of the reader, and [Info] returns when it is answered.  For
    [SetSwitch], [SetPort] and [SetVLAN]: the login, the requests of the
    modify step and the logout form a fixed sequence that is sent up to the
    first rejected request; a rejection of the login or of a request of the
    modify step leaves the operation, and the logout is not sent. *)
Theorem logout_only_after_completion (o : operation)
    (server username password : string) :
  let login := login_request server username password None in
  let logout := logout_request server in
  (forall tr,
     match perform o server username password tr with
     | (trace, Return _) => exists h, trace = (h ++ [logout])%list
     | (_, Throw _) => True
     | (_, Exit _) => False
     end)
  /\ match o with
     | OpInfo =>
         forall tr r l t s,
           tr [] login = inr r ->
           _switchInfo server tr empty_switch [login] = (l, t, Return s) ->
           ~ In logout t
           /\ perform o server username password tr
              = ((t ++ [logout])%list,
                 match tr t logout with
                 | inl e => Throw e
                 | inr _ => Return tt
                 end)
     | _ =>
         exists middle,
           ~ In logout middle
           /\ forall tr,
                perform o server username password tr
                = in_sequence tr (login :: middle ++ [logout])
     end.
Proof.
  intros login logout. split.
  - intros tr. destruct o; unfold perform.
    + apply closes_returns, closes_Info.
    + apply closes_returns, closes_SetSwitch.
    + apply closes_returns, closes_SetPort.
    + apply closes_returns, closes_SetVLAN.
  - destruct o as [| name vlan | port state speed | vlan name members].
    + intros tr r l t s. apply Info_after_reading.
    + destruct (SetSwitch_in_sequence server username password name vlan)
        as (middle & HF & H).
      exists middle. split; [now apply not_logout_In | exact H].
    + destruct (SetPort_in_sequence server username password port state speed)
        as (middle & HF & H).
      exists middle. split; [now apply not_logout_In | exact H].
    + destruct (SetVLAN_in_sequence server username password vlan name members)
        as (middle & HF & H).
      exists middle. split; [now apply not_logout_In | exact H].
Qed.

Lemma logout_only_after_completion_witness :
  perform OpInfo "192.168.0.1" "admin" "admin"
    (device identity_page (settings_page "8") statistics_page vlan_page)
  = ([login_request "192.168.0.1" "admin" "admin" None;
      GET "http://192.168.0.1:80/SystemInfoRpm.htm";
      GET "http://192.168.0.1:80/PortSettingRpm.htm";
      GET "http://192.168.0.1:80/PortStatisticsRpm.htm";
      GET "http://192.168.0.1:80/Vlan8021QRpm.htm";
      logout_request "192.168.0.1"],
     Return tt).
Proof.
  destruct (logout_only_after_completion OpInfo "192.168.0.1" "admin" "admin")
    as [_ H].
  edestruct (H (device identity_page (settings_page "8") statistics_page
                  vlan_page)) as [_ E];
    [reflexivity | vm_compute; reflexivity |].
  rewrite E. reflexivity.
Defined.

(* ------------------------------------------------------------------ *)
(** ** The read operation *)

Lemma array_get_some {A : Type} (a : array A) (i : nat) (x : A) :
  array_get a i = Some x -> i < List.length a.
Proof.
  unfold array_get. intros H. apply nth_error_Some.
  destruct (nth_error a i); [discriminate | discriminate H].
Qed.

Lemma array_set_length {A : Type} (a : array A) (i : nat) (x : A) :
  i < List.length a -> List.length (array_set a i x) = List.length a.
Proof.
  revert i; induction a as [|y a IH]; intros i Hi; simpl in Hi; [lia |].
  destruct i as [|i]; simpl; [reflexivity |].
  rewrite IH by lia. reflexivity.
Qed.

(** A loop of property assignments over more indices than there are port
    objects throws. *)
Lemma update_loop_throws (f : nat -> Port -> Port) (tr : transport) :
  forall (count from : nat) (swtch : Switch) (h : list request),
    from <= allocated swtch -> allocated swtch < from + count ->
    snd (for_loop count from (fun i => update_port i (f i)) tr swtch h)
    = Throw TypeError.
Proof.
  intros count; induction count as [|count IH]; intros from swtch h Hle Hlt.
  - lia.
  - cbn [for_loop]. unfold bind at 1. unfold update_port at 1.
    unfold bind at 1, get at 1. unfold allocated in *.
    destruct (ports swtch) as [a|] eqn:Ea; [| reflexivity].
    destruct (array_get a from) as [port|] eqn:Eg; [| reflexivity].
    unfold put. apply IH; simpl.
    + rewrite array_set_length by (now apply array_get_some in Eg).
      apply array_get_some in Eg. lia.
    + rewrite array_set_length by (now apply array_get_some in Eg). lia.
Qed.

(** The read of a device with eight ports, port 4 disabled, and two VLANs. *)
Example Info_reads_sample_device :
  exists swtch,
    result_of (Info "192.168.0.1" "admin" "admin")
      (device identity_page (settings_page "8") statistics_page vlan_page) tt
    = Return swtch
    /\ hardware swtch = Some (Str "TL-SG108E 3.0")
    /\ vlan swtch = Some (Str "Enabled")
    /\ option_map (map (option_map state)) (ports swtch)
       = Some (map (fun s => Some (Some (Str s)))
                 ["Enabled"; "Enabled"; "Enabled"; "Disabled";
                  "Enabled"; "Enabled"; "Enabled"; "Enabled"])
    /\ option_map (map (option_map untagged)) (vlans swtch)
       = Some [Some (Some [1; 2; 3; 4; 5; 6; 7; 8]%Z); Some (Some [])]
    /\ option_map (map (option_map tagged)) (vlans swtch)
       = Some [Some (Some []); Some (Some [2; 4; 6; 8]%Z)].
Proof.
  eexists. split; [vm_compute; reflexivity |]. repeat split.
Qed.

(** C2 as stated fails: a statistics page that names eight ports after a
    settings page that allocated two, and a statistics page without the
    [pkts] attribute, both end the whole read with a TypeError. *)
Lemma Info_aborts_on_parse_miss :
  result_of (Info "192.168.0.1" "admin" "admin")
    (device identity_page (settings_page "2") statistics_page vlan_page) tt
  = Throw TypeError
  /\ result_of (Info "192.168.0.1" "admin" "admin")
       (device identity_page (settings_page "8")
          statistics_page_without_pkts vlan_page) tt
     = Throw TypeError.
Proof. split; vm_compute; reflexivity. Qed.

(** C2, amended.  During the read a parse miss is tolerated in these cases:
    a page of the port settings, the port statistics or the VLAN table that
    holds no script block is passed over, its routine returns and leaves
    the switch object as it was; and where [max_port_num] (on the two port
    pages) or [count] (on the VLAN page) is absent while the list attributes
    are present, the routine returns without adding or updating a port or a
    VLAN.  An absent list attribute
    ([state] or [spd_act] on the settings page, [link_status] or [pkts] on
    the statistics page, [vids], [names], [tagMbrs] or [untagMbrs] on the
    VLAN page) or an absent attribute of the identity page makes the routine
    of the page throw a TypeError, and so does, on the statistics page, a
    [max_port_num] above the number of port objects allocated from the
    settings page: there is no guard. *)
Theorem parse_miss_handling (server : string) (tr : transport)
    (swtch : Switch) (h : list request) (r : response) :
  (tr h (GET ("http://" ++ server ++ ":80/PortSettingRpm.htm")) = inr r ->
   script_present (extractTagContent (text r) "script" 0) = None ->
   _portInfo1 server tr swtch h
   = (swtch, (h ++ [GET ("http://" ++ server ++ ":80/PortSettingRpm.htm")])%list,
      Return tt))
  /\ (tr h (GET ("http://" ++ server ++ ":80/PortStatisticsRpm.htm")) = inr r ->
      script_present (extractTagContent (text r) "script" 0) = None ->
      _portInfo2 server tr swtch h
      = (swtch,
         (h ++ [GET ("http://" ++ server ++ ":80/PortStatisticsRpm.htm")])%list,
         Return tt))
  /\ (tr h (GET ("http://" ++ server ++ ":80/Vlan8021QRpm.htm")) = inr r ->
      script_present (extractTagContent (text r) "script" 0) = None ->
      _vlanInfo server tr swtch h
      = (swtch, (h ++ [GET ("http://" ++ server ++ ":80/Vlan8021QRpm.htm")])%list,
         Return tt))
  /\ (forall scrpt : string,
        tr h (GET ("http://" ++ server ++ ":80/PortStatisticsRpm.htm"))
        = inr r ->
        script_present (extractTagContent (text r) "script" 0) = Some scrpt ->
        (extractAttribute scrpt "link_status" = None
         \/ extractAttribute scrpt "pkts" = None
         \/ exists n,
              parseInt_opt (extractVariable scrpt "max_port_num") None = Some n
              /\ (Z.of_nat (allocated swtch) < n)%Z) ->
        snd (_portInfo2 server tr swtch h) = Throw TypeError)
  /\ (forall scrpt st sp : string,
        tr h (GET ("http://" ++ server ++ ":80/PortSettingRpm.htm")) = inr r ->
        script_present (extractTagContent (text r) "script" 0) = Some scrpt ->
        extractAttribute scrpt "state" = Some st ->
        extractAttribute scrpt "spd_act" = Some sp ->
        parseInt_opt (extractVariable scrpt "max_port_num") None = None ->
        _portInfo1 server tr swtch h
        = (swtch,
           (h ++ [GET ("http://" ++ server ++ ":80/PortSettingRpm.htm")])%list,
           Return tt))
  /\ (forall scrpt li pk : string,
        tr h (GET ("http://" ++ server ++ ":80/PortStatisticsRpm.htm"))
        = inr r ->
        script_present (extractTagContent (text r) "script" 0) = Some scrpt ->
        extractAttribute scrpt "link_status" = Some li ->
        extractAttribute scrpt "pkts" = Some pk ->
        parseInt_opt (extractVariable scrpt "max_port_num") None = None ->
        _portInfo2 server tr swtch h
        = (swtch,
           (h ++ [GET ("http://" ++ server
                       ++ ":80/PortStatisticsRpm.htm")])%list,
           Return tt))
  /\ (forall scrpt vi na ta un : string,
        tr h (GET ("http://" ++ server ++ ":80/Vlan8021QRpm.htm")) = inr r ->
        script_present (extractTagContent (text r) "script" 0) = Some scrpt ->
        extractAttribute scrpt "vids" = Some vi ->
        extractAttribute scrpt "names" = Some na ->
        extractAttribute scrpt "tagMbrs" = Some ta ->
        extractAttribute scrpt "untagMbrs" = Some un ->
        parseInt_opt (extractAttribute scrpt "count") None = None ->
        _vlanInfo server tr swtch h
        = (set_vlan swtch
             (at_number STATES
                (parseInt_opt (extractAttribute scrpt "state") None)),
           (h ++ [GET ("http://" ++ server ++ ":80/Vlan8021QRpm.htm")])%list,
           Return tt))
  /\ (forall scrpt : string,
        tr h (GET ("http://" ++ server ++ ":80/PortSettingRpm.htm")) = inr r ->
        script_present (extractTagContent (text r) "script" 0) = Some scrpt ->
        extractAttribute scrpt "state" = None
        \/ extractAttribute scrpt "spd_act" = None ->
        snd (_portInfo1 server tr swtch h) = Throw TypeError)
  /\ (forall scrpt : string,
        tr h (GET ("http://" ++ server ++ ":80/Vlan8021QRpm.htm")) = inr r ->
        script_present (extractTagContent (text r) "script" 0) = Some scrpt ->
        extractAttribute scrpt "vids" = None
        \/ extractAttribute scrpt "names" = None
        \/ extractAttribute scrpt "tagMbrs" = None
        \/ extractAttribute scrpt "untagMbrs" = None ->
        snd (_vlanInfo server tr swtch h) = Throw TypeError)
  /\ (forall scrpt attribute : string,
        tr h (GET ("http://" ++ server ++ ":80/SystemInfoRpm.htm")) = inr r ->
        script_present (extractTagContent (text r) "script" 0) = Some scrpt ->
        In attribute ["hardwareStr"; "firmwareStr"; "descriStr"; "macStr";
                      "ipStr"; "netmaskStr"; "gatewayStr"] ->
        extractAttribute scrpt attribute = None ->
        _switchInfo server tr swtch h
        = (empty_switch,
           (h ++ [GET ("http://" ++ server ++ ":80/SystemInfoRpm.htm")])%list,
           Throw TypeError)).
Proof.
  split; [| split; [| split; [| split; [| split; [| split; [| split;
    [| split; [| split]]]]]]]].
  - intros Htr Hnone. unfold _portInfo1, bind, fetch, PORT_INFO_1_PATH.
    rewrite Htr. cbv zeta. now rewrite Hnone.
  - intros Htr Hnone. unfold _portInfo2, bind, fetch, PORT_INFO_2_PATH.
    rewrite Htr. cbv zeta. now rewrite Hnone.
  - intros Htr Hnone. unfold _vlanInfo, bind, fetch, VLAN_INFO_PATH.
    rewrite Htr. cbv zeta. now rewrite Hnone.
  - intros scrpt Htr Hsome Hmiss.
    unfold _portInfo2, PORT_INFO_2_PATH. unfold bind at 1, fetch.
    rewrite Htr. cbv zeta. rewrite Hsome.
    unfold bind at 1. unfold split_of at 1.
    destruct (extractAttribute scrpt "link_status") as [links|];
      [| reflexivity].
    unfold ret at 1. unfold bind at 1. unfold split_of at 1.
    destruct (extractAttribute scrpt "pkts") as [pkts|]; [| reflexivity].
    unfold ret at 1.
    destruct Hmiss as [H | [H | (n & Hn & Hlt)]]; try discriminate H.
    rewrite Hn. unfold for_upto.
    apply (update_loop_throws
             (fun portIndex port =>
                MkPort (number port) (state port) (speed port)
                  (Some (at_key SPEEDS (nth_error (split "," links) portIndex)))
                  (Some (of_number (parseInt_opt
                     (nth_error (split "," pkts) (4 * portIndex + 0)) None)))
                  (Some (of_number (parseInt_opt
                     (nth_error (split "," pkts) (4 * portIndex + 1)) None)))
                  (Some (of_number (parseInt_opt
                     (nth_error (split "," pkts) (4 * portIndex + 2)) None)))
                  (Some (of_number (parseInt_opt
                     (nth_error (split "," pkts) (4 * portIndex + 3)) None)))));
      lia.
  - intros scrpt st sp Htr Hs Hst Hsp Hn.
    unfold _portInfo1, PORT_INFO_1_PATH. unfold bind at 1, fetch.
    rewrite Htr. cbv zeta. now rewrite Hs, Hst, Hsp, Hn.
  - intros scrpt li pk Htr Hs Hli Hpk Hn.
    unfold _portInfo2, PORT_INFO_2_PATH. unfold bind at 1, fetch.
    rewrite Htr. cbv zeta. now rewrite Hs, Hli, Hpk, Hn.
  - intros scrpt vi na ta un Htr Hs Hvi Hna Hta Hun Hn.
    unfold _vlanInfo, VLAN_INFO_PATH. unfold bind at 1, fetch.
    rewrite Htr. cbv zeta. now rewrite Hs, Hvi, Hna, Hta, Hun, Hn.
  - intros scrpt Htr Hs Hmiss.
    unfold _portInfo1, PORT_INFO_1_PATH. unfold bind at 1, fetch.
    rewrite Htr. cbv zeta. rewrite Hs.
    unfold bind at 1. unfold split_of at 1.
    destruct (extractAttribute scrpt "state") as [st|]; [| reflexivity].
    unfold ret at 1. unfold bind at 1. unfold split_of at 1.
    destruct (extractAttribute scrpt "spd_act") as [sp|]; [| reflexivity].
    destruct Hmiss as [H | H]; discriminate H.
  - intros scrpt Htr Hs Hmiss.
    unfold _vlanInfo, VLAN_INFO_PATH. unfold bind at 1, fetch.
    rewrite Htr. cbv zeta. rewrite Hs.
    unfold bind at 1, get at 1. unfold bind at 1, put at 1.
    unfold bind at 1. unfold split_of at 1.
    destruct (extractAttribute scrpt "vids") as [vi|]; [| reflexivity].
    unfold ret at 1. unfold bind at 1. unfold split_of at 1.
    destruct (extractAttribute scrpt "names") as [na|]; [| reflexivity].
    unfold ret at 1. unfold bind at 1. unfold split_of at 1.
    destruct (extractAttribute scrpt "tagMbrs") as [ta|]; [| reflexivity].
    unfold ret at 1. unfold bind at 1. unfold split_of at 1.
    destruct (extractAttribute scrpt "untagMbrs") as [un|]; [| reflexivity].
    destruct Hmiss as [H | [H | [H | H]]]; discriminate H.
  - intros scrpt attribute Htr Hs Hin Hmiss.
    unfold _switchInfo, SWITCH_INFO_PATH.
    unfold bind at 1, put at 1. unfold bind at 1, fetch.
    rewrite Htr. cbv zeta. rewrite Hs.
    unfold bind at 1. unfold bind at 1. unfold stripQuotes_of at 1.
    destruct (extractAttribute scrpt "hardwareStr") eqn:E1; [| reflexivity].
    unfold ret at 1. unfold bind at 1. unfold stripQuotes_of at 1.
    destruct (extractAttribute scrpt "firmwareStr") eqn:E2; [| reflexivity].
    unfold ret at 1. unfold bind at 1. unfold stripQuotes_of at 1.
    destruct (extractAttribute scrpt "descriStr") eqn:E3; [| reflexivity].
    unfold ret at 1. unfold bind at 1. unfold stripQuotes_of at 1.
    destruct (extractAttribute scrpt "macStr") eqn:E4; [| reflexivity].
    unfold ret at 1. unfold bind at 1. unfold stripQuotes_of at 1.
    destruct (extractAttribute scrpt "ipStr") eqn:E5; [| reflexivity].
    unfold ret at 1. unfold bind at 1. unfold stripQuotes_of at 1.
    destruct (extractAttribute scrpt "netmaskStr") eqn:E6; [| reflexivity].
    unfold ret at 1. unfold bind at 1. unfold stripQuotes_of at 1.
    destruct (extractAttribute scrpt "gatewayStr") eqn:E7; [| reflexivity].
    simpl in Hin.
    destruct Hin as [<- | [<- | [<- | [<- | [<- | [<- | [<- | []]]]]]]];
      congruence.
Qed.

Lemma parse_miss_handling_witness :
  silent_device [] (GET "http://192.168.0.1:80/Vlan8021QRpm.htm")
  = inr (Response 200 "")
  /\ script_present (extractTagContent "" "script" 0) = None
  /\ _vlanInfo "192.168.0.1" silent_device empty_switch []
     = (empty_switch, [GET "http://192.168.0.1:80/Vlan8021QRpm.htm"],
        Return tt)
  /\ allocated (set_ports empty_switch (Some [Some empty_port; Some empty_port]))
     = 2
  /\ parseInt_opt
       (match script_present (extractTagContent statistics_page "script" 0) with
        | Some scrpt => extractVariable scrpt "max_port_num"
        | None => None
        end) None
     = Some 8%Z
  /\ snd (_portInfo2 "192.168.0.1"
            (fun _ _ => inr (Response 200 statistics_page))
            (set_ports empty_switch (Some [Some empty_port; Some empty_port]))
            [])
     = Throw TypeError.
Proof.
  split; [reflexivity |]. split; [reflexivity |].
  split.
  { destruct (parse_miss_handling "192.168.0.1" silent_device empty_switch []
                (Response 200 "")) as (_ & _ & H & _).
    exact (H eq_refl eq_refl). }
  split; [reflexivity |]. split; [vm_compute; reflexivity |].
  destruct (parse_miss_handling "192.168.0.1"
              (fun _ _ => inr (Response 200 statistics_page))
              (set_ports empty_switch
                 (Some [Some empty_port; Some empty_port]))
              [] (Response 200 statistics_page)) as (_ & _ & _ & H & _).
  eapply H; [reflexivity | vm_compute; reflexivity |].
  right. right. exists 8%Z. split; [vm_compute; reflexivity | simpl; lia].
Defined.

(* ------------------------------------------------------------------ *)
(** ** [extractAttribute] *)

Lemma strip_prefix_none_app (a u tail : string) :
  strip_prefix a u = None -> String.length a <= String.length u ->
  strip_prefix a (u ++ tail) = None.
Proof.
  revert u; induction a as [|c a IH]; intros u H Hlen; simpl in *.
  - destruct u; discriminate.
  - destruct u as [|d u]; simpl in *; [lia |].
    destruct (Ascii.eqb d c); [apply IH; [assumption | lia] | reflexivity].
Qed.

Lemma attribute_regex_steps (attribute : string) (s : mstate) (k : cont) :
  rmatch (attribute_regex attribute) s k =
  rmatch (lit attribute) s
    (fun s0 => rmatch (Star true (Chr is_space)) s0
       (fun s1 => rmatch (Chr (is_char ":")) s1
          (fun s2 => rmatch (Star true (Chr is_space)) s2
             (fun s3 => rmatch shapes s3 k)))).
Proof. reflexivity. Qed.

(** The search passes over a text in which the key does not start. *)
Lemma attribute_search_skip (attribute tail : string) :
  forall (pre : string) (b : option ascii),
    occurs_within attribute (pre ++ attribute) (String.length pre) = false ->
    search (attribute_regex attribute) b (pre ++ attribute ++ tail)
    = search (attribute_regex attribute) (last_of b pre) (attribute ++ tail).
Proof.
  intros pre; induction pre as [|c pre IH]; intros b Hocc; [reflexivity |].
  simpl in Hocc.
  destruct (strip_prefix attribute (String c (pre ++ attribute))) eqn:S;
    [discriminate |].
  change (String c pre ++ attribute ++ tail)
    with (String c (pre ++ attribute ++ tail)).
  cbn [search]. rewrite attribute_regex_steps, rmatch_lit.
  replace (String c (pre ++ attribute ++ tail))
    with (String c (pre ++ attribute) ++ tail)
    by (simpl; now rewrite append_assoc).
  rewrite strip_prefix_none_app;
    [| assumption | simpl; rewrite length_append; lia].
  cbv beta match. now apply IH.
Qed.

(** No match where the key does not occur. *)
Lemma attribute_search_absent (attribute : string) :
  forall (txt : string) (b : option ascii) (n : nat),
    String.length txt < n ->
    occurs_within attribute txt n = false ->
    search (attribute_regex attribute) b txt = None.
Proof.
  intros txt; induction txt as [|c t IH]; intros b n Hn Hocc;
    (destruct n as [|n]; [lia |]); simpl in Hocc;
    cbn [search]; rewrite attribute_regex_steps, rmatch_lit.
  - now destruct (strip_prefix attribute "").
  - destruct (strip_prefix attribute (String c t)); [discriminate |].
    apply (IH (Some c) n); [simpl in Hn; lia | assumption].
Qed.

Lemma last_of_spaces (b : option ascii) (w : string) :
  nonword_before b = true -> all_chars is_space w = true ->
  nonword_before (last_of b w) = true.
Proof.
  revert b; induction w as [|c w IH]; intros b Hb Hw; simpl in *;
    [assumption |].
  apply andb_true_iff in Hw as [Hc Hw]. apply IH; [| assumption].
  simpl. now rewrite (space_not_word c Hc).
Qed.

Lemma at_boundary_nonword (b : option ascii) (c : ascii) (t : string)
    (g : nat -> option string) :
  nonword_before b = true ->
  at_boundary (MState b (String c t) g) = is_word c.
Proof.
  unfold at_boundary, word_before, word_after, nonword_before; simpl.
  destruct b as [d|]; [| now intros _].
  intros H. apply negb_true_iff in H. now rewrite H.
Qed.

(** No shape starts at a white space that follows no word character. *)
Lemma shapes_refuse_space (b : option ascii) (c : ascii) (t : string)
    (g : nat -> option string) (k : cont) :
  nonword_before b = true -> is_space c = true ->
  rmatch shapes (MState b (String c t) g) k = None.
Proof.
  intros Hb Hc. unfold shapes, aString, aBoolean, aNumber, aList, aDict.
  rewrite !rmatch_alt, !rmatch_seq, !rmatch_chr, !rmatch_wordb.
  rewrite (at_boundary_nonword b c t g Hb), (space_not_word c Hc).
  rewrite (is_char_false "'" c is_space Hc eq_refl),
    (is_char_false "[" c is_space Hc eq_refl),
    (is_char_false "{" c is_space Hc eq_refl).
  reflexivity.
Qed.

(** The attempt at the key comes down to the shapes at the value. *)
Lemma attribute_attempt (attribute ws1 ws2 V : string) (b : option ascii) :
  all_chars is_space ws1 = true -> all_chars is_space ws2 = true ->
  stops is_space V = true ->
  rmatch (attribute_regex attribute)
    (MState b (attribute ++ ws1 ++ ":" ++ ws2 ++ V) no_caps) Some
  = rmatch shapes (MState (last_of (Some ":"%char) ws2) V no_caps) Some.
Proof.
  intros H1 H2 HV.
  rewrite attribute_regex_steps, rmatch_lit, strip_prefix_app.
  rewrite rmatch_star_greedy.
  rewrite (greedy_class_end is_space (fun _ => True)); auto.
  2:{ intros b' c t' _ Hc. rewrite rmatch_chr.
      now rewrite (is_char_false ":" c is_space Hc eq_refl). }
  change (":" ++ ws2 ++ V) with (String ":" (ws2 ++ V)).
  rewrite rmatch_chr. change (is_char ":" ":") with true. cbv beta match.
  rewrite rmatch_star_greedy.
  rewrite (greedy_class_end is_space (fun b' => nonword_before b' = true));
    auto.
  - intros c Hc. simpl. now rewrite (space_not_word c Hc).
  - intros b' c t' Hb' Hc. now apply shapes_refuse_space.
Qed.

Lemma extractAttribute_at (attribute pre ws1 ws2 V : string) (m : mstate) :
  occurs_within attribute (pre ++ attribute) (String.length pre) = false ->
  all_chars is_space ws1 = true -> all_chars is_space ws2 = true ->
  stops is_space V = true ->
  rmatch shapes (MState (last_of (Some ":"%char) ws2) V no_caps) Some = Some m ->
  extractAttribute (pre ++ attribute ++ ws1 ++ ":" ++ ws2 ++ V) attribute
  = first_group m 1 5.
Proof.
  intros Hocc H1 H2 HV Hm. unfold extractAttribute, exec.
  rewrite attribute_search_skip by assumption.
  destruct (attribute ++ ws1 ++ ":" ++ ws2 ++ V) as [|c t] eqn:E;
    cbn [search]; rewrite <- E, attribute_attempt, Hm by assumption;
    reflexivity.
Qed.

Lemma nonword_after_colon (ws2 : string) :
  all_chars is_space ws2 = true ->
  nonword_before (last_of (Some ":"%char) ws2) = true.
Proof. intros H. now apply last_of_spaces. Qed.

Ltac eval_class :=
  repeat match goal with
         | |- context [is_char ?x ?y] =>
             let v := eval vm_compute in (is_char x y) in
             match v with
             | true => change (is_char x y) with true
             | false => change (is_char x y) with false
             end
         | |- context [is_word ?y] =>
             let v := eval vm_compute in (is_word y) in
             match v with
             | true => change (is_word y) with true
             | false => change (is_word y) with false
             end
         | |- context [is_digit ?y] =>
             let v := eval vm_compute in (is_digit y) in
             match v with
             | true => change (is_digit y) with true
             | false => change (is_digit y) with false
             end
         end.

Ltac steps :=
  repeat (progress (rewrite ?rmatch_alt, ?rmatch_seq, ?rmatch_chr,
                      ?rmatch_chr_end, ?rmatch_wordb, ?rmatch_group;
                    eval_class; cbv beta match; cbn [before rest caps])).

(** The shapes, one by one. *)
Lemma shape_string (b : option ascii) (s rest : string) :
  all_chars (not_char "'") s = true ->
  rmatch shapes (MState b (String "'" (s ++ String "'" rest)) no_caps) Some
  = Some (MState (Some "'"%char) rest (set_cap 1 s no_caps)).
Proof.
  intros Hs. unfold shapes, aString. steps.
  rewrite rmatch_star_greedy.
  rewrite (greedy_class_first (not_char "'") no_caps _
             (MState (Some "'"%char) rest (set_cap 1 s no_caps)));
    [reflexivity | assumption | reflexivity |].
  steps. now rewrite consumed_app.
Qed.

Lemma shape_list (b : option ascii) (s rest : string) :
  nonword_before b = true ->
  all_chars (not_char "]") s = true ->
  rmatch shapes (MState b (String "[" (s ++ String "]" rest)) no_caps) Some
  = Some (MState (Some "]"%char) rest (set_cap 4 s no_caps)).
Proof.
  intros Hb Hs. unfold shapes, aString, aBoolean, aNumber, aList. steps.
  rewrite !(at_boundary_nonword b _ _ _ Hb). steps.
  rewrite rmatch_star_greedy.
  rewrite (greedy_class_first (not_char "]") no_caps _
             (MState (Some "]"%char) rest (set_cap 4 s no_caps)));
    [reflexivity | assumption | reflexivity |].
  steps. now rewrite consumed_app.
Qed.

Lemma shape_dict (b : option ascii) (s rest : string) :
  nonword_before b = true ->
  all_chars (not_char "}") s = true ->
  rmatch shapes (MState b (String "{" (s ++ String "}" rest)) no_caps) Some
  = Some (MState (Some "}"%char) rest (set_cap 5 s no_caps)).
Proof.
  intros Hb Hs. unfold shapes, aString, aBoolean, aNumber, aList, aDict. steps.
  rewrite !(at_boundary_nonword b _ _ _ Hb). steps.
  rewrite rmatch_star_greedy.
  rewrite (greedy_class_first (not_char "}") no_caps _
             (MState (Some "}"%char) rest (set_cap 5 s no_caps)));
    [reflexivity | assumption | reflexivity |].
  steps. now rewrite consumed_app.
Qed.

Lemma digit_is_word (c : ascii) : is_digit c = true -> is_word c = true.
Proof. unfold is_word. intros ->. now rewrite !orb_true_r. Qed.

Lemma last_of_class (p : ascii -> bool) (c : ascii) (w : string) :
  p c = true -> all_chars p w = true ->
  exists e, last_of (Some c) w = Some e /\ p e = true.
Proof.
  revert c; induction w as [|d w IH]; intros c Hc Hw; simpl in *.
  - now exists c.
  - apply andb_true_iff in Hw as [Hd Hw]. now apply IH.
Qed.

Lemma stops_word_after (rest : string) (b : option ascii)
    (g : nat -> option string) :
  stops is_word rest = true -> word_after (MState b rest g) = false.
Proof.
  unfold word_after; simpl. destruct rest as [|x r]; simpl; [reflexivity |].
  now intros H%negb_true_iff.
Qed.

Lemma progress_app (b b' : option ascii) (w t : string)
    (g g' : nat -> option string) :
  w <> "" -> progress (MState b (w ++ t) g) (MState b' t g') = true.
Proof.
  intros Hw. unfold progress; simpl. rewrite length_append.
  apply Nat.ltb_lt. destruct w; [congruence | simpl; lia].
Qed.

Lemma shape_boolean (b : option ascii) (v tl : string) :
  v = "true" \/ v = "false" ->
  nonword_before b = true -> stops is_word tl = true ->
  exists e, rmatch shapes (MState b (v ++ tl) no_caps) Some
            = Some (MState e tl (set_cap 2 v no_caps)).
Proof.
  intros Hv Hb Hrest. unfold shapes, aString, aBoolean.
  destruct Hv as [-> | ->]; cbn [append]; steps;
    rewrite !(at_boundary_nonword b _ _ _ Hb); steps;
    rewrite ?rmatch_lit; cbn [strip_prefix]; eval_class;
    rewrite ?Ascii.eqb_refl; cbv beta match; cbn [before rest caps last_of Ascii.eqb Bool.eqb];
    rewrite ?rmatch_lit; cbn [strip_prefix Ascii.eqb Bool.eqb];
    cbv beta match; cbn [before rest caps last_of];
    rewrite rmatch_wordb; unfold at_boundary;
    rewrite (stops_word_after tl _ _ Hrest); cbn [word_before before];
    eval_class; cbn [xorb].
  - exists (Some "e"%char). do 3 f_equal.
    apply (consumed_app b (Some "e"%char) "true" tl).
  - exists (Some "e"%char). do 3 f_equal.
    apply (consumed_app b (Some "e"%char) "false" tl).
Qed.

Lemma shape_number (b : option ascii) (d tl : string) :
  d <> "" -> all_chars is_digit d = true ->
  nonword_before b = true ->
  stops is_word tl = true -> stops (is_char ".") tl = true ->
  exists e, rmatch shapes (MState b (d ++ tl) no_caps) Some
            = Some (MState e tl (set_cap 3 d no_caps)).
Proof.
  intros Hne Hd Hb Hw Hdot.
  destruct d as [|c d']; [congruence |]. simpl in Hd.
  apply andb_true_iff in Hd as [Hc Hd'].
  destruct (last_of_class is_digit c d' Hc Hd') as (e & He & Hde).
  exists (Some e).
  assert (stops is_digit tl = true) as Hnd.
  { destruct tl as [|x r]; [reflexivity |]. simpl in *.
    apply negb_true_iff in Hw. apply negb_true_iff.
    destruct (is_digit x) eqn:E; [| reflexivity].
    apply digit_is_word in E. congruence. }
  unfold shapes, aString, aBoolean, aNumber. cbn [append].
  rewrite !rmatch_alt, !rmatch_seq, !rmatch_chr, !rmatch_wordb.
  rewrite !(at_boundary_nonword b _ _ _ Hb), (digit_is_word c Hc).
  rewrite (is_char_false "'" c is_digit Hc eq_refl).
  cbv beta match.
  rewrite rmatch_seq, rmatch_group, rmatch_alt, !rmatch_lit. cbn [strip_prefix].
  change (Ascii.eqb c "t") with (is_char "t" c).
  change (Ascii.eqb c "f") with (is_char "f" c).
  rewrite (is_char_false "t" c is_digit Hc eq_refl),
    (is_char_false "f" c is_digit Hc eq_refl).
  cbv beta match.
  rewrite rmatch_seq, rmatch_opt, rmatch_group, rmatch_seq, rmatch_plus,
    rmatch_chr, Hc.
  rewrite rmatch_star_greedy.
  rewrite (greedy_class_first is_digit no_caps _
             (MState (Some e) tl (set_cap 3 (String c d') no_caps)));
    [reflexivity | assumption | assumption |].
  rewrite He, rmatch_seq.
  change (String c (d' ++ tl)) with (String c d' ++ tl).
  assert (forall k : cont,
             rmatch (Opt (Chr (is_char "."))) (MState (Some e) tl no_caps) k
             = k (MState (Some e) tl no_caps)) as Hopt1.
  { intros k. rewrite rmatch_opt. destruct tl as [|x r].
    - now rewrite rmatch_chr_end.
    - rewrite rmatch_chr. simpl in Hdot. apply negb_true_iff in Hdot.
      now rewrite Hdot. }
  assert (forall k : cont,
             rmatch (Opt (Chr is_digit)) (MState (Some e) tl no_caps) k
             = k (MState (Some e) tl no_caps)) as Hopt2.
  { intros k. rewrite rmatch_opt. destruct tl as [|x r].
    - now rewrite rmatch_chr_end.
    - rewrite rmatch_chr. simpl in Hnd. apply negb_true_iff in Hnd.
      now rewrite Hnd. }
  rewrite Hopt1. cbv beta. rewrite Hopt2. cbn [before rest caps].
  rewrite consumed_app, progress_app by discriminate.
  rewrite rmatch_wordb. unfold at_boundary.
  rewrite (stops_word_after tl _ _ Hw). cbn [word_before before].
  now rewrite (digit_is_word e Hde).
Qed.

Lemma trimEnd_nonspace (s : string) :
  all_chars (fun c => negb (is_space c)) s = true -> trimEnd s = s.
Proof.
  induction s as [|c s IH]; simpl; [reflexivity |].
  intros H. apply andb_true_iff in H as [Hc Hs]. rewrite (IH Hs).
  apply negb_true_iff in Hc. rewrite Hc. now destruct s.
Qed.

Lemma digits_unchanged (d : string) :
  all_chars is_digit d = true -> stripQuotes (trim d) = d.
Proof.
  intros Hd.
  assert (all_chars (fun c => negb (is_space c)) d = true) as Hns.
  { apply (all_chars_impl is_digit); [| assumption].
    intros c Hc. apply negb_true_iff, word_not_space. now apply digit_is_word. }
  assert (trim d = d) as ->.
  { unfold trim. destruct d as [|c d]; [reflexivity |].
    simpl in Hns. apply andb_true_iff in Hns as [Hc Hns'].
    apply negb_true_iff in Hc. cbn [trimStart]. rewrite Hc.
    apply trimEnd_nonspace. simpl. now rewrite Hc, Hns'. }
  unfold stripQuotes. destruct d as [|c d]; [reflexivity |].
  simpl in Hd. apply andb_true_iff in Hd as [Hc _]. cbn [startsWith].
  change (Ascii.eqb c dquote) with (is_char dquote c).
  change (Ascii.eqb c "'") with (is_char "'" c).
  now rewrite (is_char_false dquote c is_digit Hc eq_refl),
    (is_char_false "'" c is_digit Hc eq_refl).
Qed.

Lemma first_group_of (i : nat) (v : string) (b : option ascii) (tl : string) :
  1 <= i <= 5 ->
  first_group (MState b tl (set_cap i v no_caps)) 1 5
  = if String.eqb v "" then None
    else Some (if negb (Nat.eqb i 4) && negb (Nat.eqb i 5)
               then stripQuotes (trim v) else trim v).
Proof.
  intros Hi.
  assert (i = 1 \/ i = 2 \/ i = 3 \/ i = 4 \/ i = 5) as H by lia.
  destruct H as [-> | [-> | [-> | [-> | ->]]]];
    destruct v; reflexivity.
Qed.

(** C9 as stated fails: on [descr: ''] the quoted-string shape matches at the
    key, yet the result is null and not the empty text. *)
Lemma empty_quoted_value_is_null :
  shape_matches aString "descr: ''" "descr" = true
  /\ extractAttribute "descr: ''" "descr" = None.
Proof. split; vm_compute; reflexivity. Qed.

(** The value at the first occurrence of a key that is followed by optional
    white space, a colon, optional white space and a well-formed value: the
    text between single quotes, trimmed and stripped of enclosing quotes;
    [true] or [false]; a run of digits; the inner text of a bracketed list
    or of a brace-delimited dict, trimmed and otherwise unparsed; null for
    an empty capture, and for a text in which the key does not occur. *)
Lemma extractAttribute_at_value (attribute pre ws1 ws2 tl : string) :
  identifier attribute = true ->
  occurs_within attribute (pre ++ attribute) (String.length pre) = false ->
  all_chars is_space ws1 = true ->
  all_chars is_space ws2 = true ->
  let found value :=
    extractAttribute
      (pre ++ attribute ++ ws1 ++ ":" ++ ws2 ++ value ++ tl) attribute in
  (forall s, all_chars (not_char "'") s = true ->
     found ("'" ++ s ++ "'")
     = if String.eqb s "" then None else Some (stripQuotes (trim s)))
  /\ (stops is_word tl = true ->
      found "true" = Some "true" /\ found "false" = Some "false")
  /\ (forall d, d <> "" -> all_chars is_digit d = true ->
        stops is_word tl = true -> stops (is_char ".") tl = true ->
        found d = Some d)
  /\ (forall s, all_chars (not_char "]") s = true ->
        found ("[" ++ s ++ "]")
        = if String.eqb s "" then None else Some (trim s))
  /\ (forall s, all_chars (not_char "}") s = true ->
        found ("{" ++ s ++ "}")
        = if String.eqb s "" then None else Some (trim s))
  /\ (forall txt,
        occurs_within attribute txt (S (String.length txt)) = false ->
        extractAttribute txt attribute = None)
  /\ extractAttribute "state: [1, 1, 1, 1, 1, 1, 1, 1, 0, 0]" "state"
     = Some "1, 1, 1, 1, 1, 1, 1, 1, 0, 0".
Proof.
  intros _ Hocc H1 H2 found.
  pose proof (nonword_after_colon ws2 H2) as Hb.
  split; [| split; [| split; [| split; [| split; [| split; [| reflexivity]]]]]];
    [| | | | |
     intros txt Habs; unfold extractAttribute, exec;
     now rewrite (attribute_search_absent attribute txt None
                    (S (String.length txt)) (Nat.lt_succ_diag_r _) Habs)].
  - intros s Hs. unfold found.
    replace (("'" ++ s ++ "'") ++ tl) with (String "'" (s ++ String "'" tl))
      by (simpl; now rewrite append_assoc).
    rewrite (extractAttribute_at attribute pre ws1 ws2
               (String "'" (s ++ String "'" tl)) _ Hocc H1 H2 eq_refl
               (shape_string _ s tl Hs)).
    now rewrite first_group_of by lia.
  - intros Hw. unfold found. split.
    + destruct (shape_boolean _ "true" tl (or_introl eq_refl) Hb Hw)
        as (e & He).
      rewrite (extractAttribute_at attribute pre ws1 ws2 ("true" ++ tl) _
                 Hocc H1 H2 eq_refl He).
      now rewrite first_group_of by lia.
    + destruct (shape_boolean _ "false" tl (or_intror eq_refl) Hb Hw)
        as (e & He).
      rewrite (extractAttribute_at attribute pre ws1 ws2 ("false" ++ tl) _
                 Hocc H1 H2 eq_refl He).
      now rewrite first_group_of by lia.
  - intros d Hne Hd Hw Hdot. unfold found.
    destruct (shape_number _ d tl Hne Hd Hb Hw Hdot) as (e & He).
    assert (stops is_space (d ++ tl) = true) as Hstop.
    { destruct d as [|c d']; [congruence |]. simpl in *.
      apply andb_true_iff in Hd as [Hc _].
      apply negb_true_iff, word_not_space. now apply digit_is_word. }
    rewrite (extractAttribute_at attribute pre ws1 ws2 _ _ Hocc H1 H2 Hstop He).
    rewrite first_group_of by lia. rewrite (digits_unchanged d Hd).
    destruct d; [congruence | reflexivity].
  - intros s Hs. unfold found.
    replace (("[" ++ s ++ "]") ++ tl) with (String "[" (s ++ String "]" tl))
      by (simpl; now rewrite append_assoc).
    rewrite (extractAttribute_at attribute pre ws1 ws2
               (String "[" (s ++ String "]" tl)) _ Hocc H1 H2 eq_refl
               (shape_list _ s tl Hb Hs)).
    now rewrite first_group_of by lia.
  - intros s Hs. unfold found.
    replace (("{" ++ s ++ "}") ++ tl) with (String "{" (s ++ String "}" tl))
      by (simpl; now rewrite append_assoc).
    rewrite (extractAttribute_at attribute pre ws1 ws2
               (String "{" (s ++ String "}" tl)) _ Hocc H1 H2 eq_refl
               (shape_dict _ s tl Hb Hs)).
    now rewrite first_group_of by lia.
Qed.

(* ---- the shapes at every text ---- *)

Lemma first_group_none (b : option ascii) (t : string) :
  first_group (MState b t no_caps) 1 5 = None.
Proof. reflexivity. Qed.

Lemma first_group_captured (i : nat) (v : string) (b : option ascii)
    (tl : string) :
  1 <= i <= 5 ->
  first_group (MState b tl (set_cap i v no_caps)) 1 5
  = captured (if negb (Nat.eqb i 4) && negb (Nat.eqb i 5)
              then fun s => stripQuotes (trim s) else trim) v.
Proof.
  intros Hi. rewrite first_group_of by assumption. unfold captured.
  destruct (String.eqb v ""); [reflexivity |].
  now destruct (negb (Nat.eqb i 4) && negb (Nat.eqb i 5)).
Qed.

Lemma at_boundary_end (b : option ascii) (g : nat -> option string) :
  nonword_before b = true -> at_boundary (MState b "" g) = false.
Proof.
  unfold at_boundary, word_before, word_after, nonword_before; simpl.
  destruct b as [d|]; [| reflexivity].
  intros H. apply negb_true_iff in H. now rewrite H.
Qed.

Lemma shapes_at_end (b : option ascii) :
  nonword_before b = true -> rmatch shapes (MState b "" no_caps) Some = None.
Proof.
  intros Hb. unfold shapes, aString, aBoolean, aNumber, aList, aDict.
  rewrite !rmatch_alt, !rmatch_seq, !rmatch_chr_end, !rmatch_wordb.
  now rewrite (at_boundary_end b _ Hb).
Qed.

(** A run of the class up to a closing character that never comes. *)
Lemma class_never_closed (x : ascii) (g : nat -> option string) (k : cont) :
  (forall b' t', stops (is_char x) t' = true -> k (MState b' t' g) = None) ->
  forall (t : string) (b : option ascii),
    all_chars (not_char x) t = true ->
    greedy_class (not_char x) b t g k = None.
Proof.
  intros Hk t; induction t as [|c t IH]; intros b Ht; cbn [greedy_class].
  - now apply Hk.
  - simpl in Ht. apply andb_true_iff in Ht as [Hc Ht]. rewrite Hc.
    rewrite (IH (Some c) Ht). apply Hk. simpl. exact Hc.
Qed.

Lemma closing_refused (x : ascii) (n : nat) (s0 : mstate)
    (b' : option ascii) (t' : string) (g : nat -> option string) :
  stops (is_char x) t' = true ->
  rmatch (Chr (is_char x))
    (MState b' t' (set_cap n (consumed s0 (MState b' t' g)) g)) Some = None.
Proof.
  intros H. destruct t' as [|c t']; [reflexivity |].
  rewrite rmatch_chr. simpl in H. apply negb_true_iff in H. now rewrite H.
Qed.

Lemma shape_string_open (b : option ascii) (t : string) :
  nonword_before b = true -> until_char "'" t = None ->
  rmatch shapes (MState b (String "'" t) no_caps) Some = None.
Proof.
  intros Hb Hu. apply until_char_none in Hu.
  unfold shapes, aString, aBoolean, aNumber, aList, aDict. steps.
  rewrite !(at_boundary_nonword b _ _ _ Hb). steps.
  rewrite rmatch_star_greedy.
  rewrite (class_never_closed "'"); [reflexivity | | assumption].
  intros b' t' H. cbn [before rest caps]. now apply closing_refused.
Qed.

Lemma shape_list_open (b : option ascii) (t : string) :
  nonword_before b = true -> until_char "]" t = None ->
  rmatch shapes (MState b (String "[" t) no_caps) Some = None.
Proof.
  intros Hb Hu. apply until_char_none in Hu.
  unfold shapes, aString, aBoolean, aNumber, aList, aDict. steps.
  rewrite !(at_boundary_nonword b _ _ _ Hb). steps.
  rewrite rmatch_star_greedy.
  rewrite (class_never_closed "]"); [reflexivity | | assumption].
  intros b' t' H. cbn [before rest caps]. now apply closing_refused.
Qed.

Lemma shape_dict_open (b : option ascii) (t : string) :
  nonword_before b = true -> until_char "}" t = None ->
  rmatch shapes (MState b (String "{" t) no_caps) Some = None.
Proof.
  intros Hb Hu. apply until_char_none in Hu.
  unfold shapes, aString, aBoolean, aNumber, aList, aDict. steps.
  rewrite !(at_boundary_nonword b _ _ _ Hb). steps.
  rewrite rmatch_star_greedy.
  rewrite (class_never_closed "}"); [reflexivity | | assumption].
  intros b' t' H. cbn [before rest caps]. now apply closing_refused.
Qed.

(** No shape starts at a character that is neither a word character nor
    one of the three opening characters. *)
Lemma shapes_refuse_other (b : option ascii) (c : ascii) (t : string) :
  nonword_before b = true -> is_word c = false ->
  Ascii.eqb c "'" = false -> Ascii.eqb c "[" = false ->
  Ascii.eqb c "{" = false ->
  rmatch shapes (MState b (String c t) no_caps) Some = None.
Proof.
  intros Hb Hw H1 H2 H3.
  unfold shapes, aString, aBoolean, aNumber, aList, aDict.
  rewrite !rmatch_alt, !rmatch_seq, !rmatch_chr, !rmatch_wordb.
  rewrite (at_boundary_nonword b c t _ Hb), Hw. unfold is_char.
  now rewrite H1, H2, H3.
Qed.

Lemma at_boundary_after_word (e : ascii) (r : string)
    (g : nat -> option string) :
  is_word e = true -> at_boundary (MState (Some e) r g) = stops is_word r.
Proof.
  intros He. unfold at_boundary, word_before, word_after; simpl. rewrite He.
  now destruct r.
Qed.

Lemma at_boundary_after_nonword (e : ascii) (r : string)
    (g : nat -> option string) :
  is_word e = false ->
  at_boundary (MState (Some e) r g) = negb (stops is_word r).
Proof.
  intros He. unfold at_boundary, word_before, word_after; simpl. rewrite He.
  destruct r as [|x r]; simpl; [reflexivity | now rewrite negb_involutive].
Qed.

Lemma boolean_part (b : option ascii) (c : ascii) (t : string) :
  nonword_before b = true -> is_word c = true ->
  rmatch aBoolean (MState b (String c t) no_caps) Some
  = match strip_prefix "true" (String c t) with
    | Some r =>
        if stops is_word r
        then Some (MState (Some "e"%char) r (set_cap 2 "true" no_caps))
        else None
    | None =>
        match strip_prefix "false" (String c t) with
        | Some r =>
            if stops is_word r
            then Some (MState (Some "e"%char) r (set_cap 2 "false" no_caps))
            else None
        | None => None
        end
    end.
Proof.
  intros Hb Hc. unfold aBoolean.
  rewrite rmatch_seq, rmatch_wordb, (at_boundary_nonword b c t _ Hb), Hc.
  rewrite rmatch_seq, rmatch_group, rmatch_alt, !rmatch_lit.
  destruct (strip_prefix "true" (String c t)) as [r|] eqn:E1.
  - apply strip_prefix_inv in E1 as E1'. rewrite E1'.
    cbn [before rest caps last_of]. rewrite rmatch_wordb.
    rewrite at_boundary_after_word by reflexivity.
    rewrite (consumed_app b (Some "e"%char) "true" r).
    destruct (stops is_word r) eqn:Er; [reflexivity |].
    change (strip_prefix "false" ("true" ++ r)) with (@None string).
    reflexivity.
  - destruct (strip_prefix "false" (String c t)) as [r|] eqn:E2;
      [| reflexivity].
    apply strip_prefix_inv in E2 as E2'. rewrite E2'.
    cbn [before rest caps last_of]. rewrite rmatch_wordb.
    rewrite at_boundary_after_word by reflexivity.
    rewrite (consumed_app b (Some "e"%char) "false" r).
    now destruct (stops is_word r).
Qed.

Lemma span_split (p : ascii -> bool) (s : string) :
  s = fst (span p s) ++ snd (span p s)
  /\ all_chars p (fst (span p s)) = true
  /\ stops p (snd (span p s)) = true.
Proof.
  induction s as [|c s (H1 & H2 & H3)]; simpl; [now repeat split |].
  destruct (p c) eqn:E.
  - destruct (span p s) as [a r]; simpl in *. rewrite E. now subst s.
  - simpl. now rewrite E.
Qed.


Lemma number_end_at (b0 bx : option ascii) (pre rx : string) :
  pre <> "" ->
  number_end (MState b0 (pre ++ rx) no_caps) (MState bx rx no_caps)
  = if at_boundary (MState bx rx no_caps)
    then Some (MState bx rx (set_cap 3 pre no_caps)) else None.
Proof.
  intros Hpre. unfold number_end. cbn [before rest caps].
  rewrite progress_app by assumption. rewrite rmatch_wordb, consumed_app.
  reflexivity.
Qed.

Lemma number_end_refused (s0 : mstate) (e : ascii) (bx : option ascii)
    (rx : string) :
  bx = Some e -> is_word e = true -> stops is_word rx = false ->
  number_end s0 (MState bx rx no_caps) = None.
Proof.
  intros -> He Hrx. unfold number_end. cbn [before rest caps].
  destruct (progress s0 _); [| reflexivity].
  rewrite rmatch_wordb.
  unfold at_boundary, word_before, word_after. cbn [before rest].
  rewrite He. destruct rx as [|x rx]; [discriminate |].
  simpl in Hrx. apply negb_false_iff in Hrx. now rewrite Hrx.
Qed.

Lemma number_tail_steps (s0 s1 : mstate) :
  number_tail s0 s1
  = match rmatch (Chr (is_char ".")) s1
            (fun s' => if progress s1 s'
                       then rmatch (Opt (Chr is_digit)) s' (number_end s0)
                       else None) with
    | Some x => Some x
    | None => rmatch (Opt (Chr is_digit)) s1 (number_end s0)
    end.
Proof. reflexivity. Qed.

Lemma opt_digit_steps (s1 : mstate) (k : cont) :
  rmatch (Opt (Chr is_digit)) s1 k
  = match rmatch (Chr is_digit) s1
            (fun s' => if progress s1 s' then k s' else None) with
    | Some x => Some x
    | None => k s1
    end.
Proof. reflexivity. Qed.

Lemma progress_one (b b' : option ascii) (c : ascii) (t : string)
    (g g' : nat -> option string) :
  progress (MState b (String c t) g) (MState b' t g') = true.
Proof. unfold progress; simpl. apply Nat.ltb_lt. lia. Qed.

(** The digits have been read to their end. *)
Lemma number_tail_value (b0 : option ascii) (D R : string) (e : ascii) :
  D <> "" -> is_digit e = true -> stops is_digit R = true ->
  match number_text D R with
  | Some cap =>
      exists m,
        number_tail (MState b0 (D ++ R) no_caps) (MState (Some e) R no_caps)
        = Some m
        /\ caps m = set_cap 3 cap no_caps
  | None =>
      number_tail (MState b0 (D ++ R) no_caps) (MState (Some e) R no_caps)
      = None
  end.
Proof.
  intros HD He HR. pose proof (digit_is_word e He) as Hw.
  rewrite number_tail_steps.
  destruct R as [|c1 r1].
  - (* the text ends after the digits *)
    cbn [number_text]. rewrite rmatch_chr_end, opt_digit_steps, rmatch_chr_end.
    rewrite number_end_at by assumption.
    rewrite at_boundary_after_word by assumption. cbn [stops].
    eexists. split; reflexivity.
  - cbn [number_text]. rewrite rmatch_chr.
    change (is_char "." c1) with (Ascii.eqb c1 ".").
    destruct (Ascii.eqb c1 ".") eqn:Edot.
    + apply Ascii.eqb_eq in Edot. subst c1. rewrite progress_one.
      assert (rmatch (Opt (Chr is_digit))
                (MState (Some e) (String "." r1) no_caps)
                (number_end (MState b0 (D ++ String "." r1) no_caps))
              = Some (MState (Some e) (String "." r1) (set_cap 3 D no_caps)))
        as Hskip.
      { rewrite opt_digit_steps, rmatch_chr. change (is_digit ".") with false.
        cbv beta match. rewrite number_end_at by assumption.
        now rewrite at_boundary_after_word by assumption. }
      assert (forall (pre tl : string),
                 pre ++ String "." tl = (pre ++ ".") ++ tl) as Hre.
      { intros pre tl. now rewrite append_assoc. }
      assert (D ++ "." <> "") as Hne by (destruct D; discriminate).
      rewrite opt_digit_steps.
      destruct r1 as [|x r2].
      * rewrite rmatch_chr_end. rewrite (Hre D ""), number_end_at by assumption.
        rewrite at_boundary_after_nonword by reflexivity. cbn [stops negb].
        rewrite <- (Hre D ""), Hskip. eexists. split; reflexivity.
      * rewrite rmatch_chr. destruct (is_digit x) eqn:Ex.
        -- rewrite progress_one.
           replace (D ++ String "." (String x r2))
             with ((D ++ "." ++ String x "") ++ r2)
             by (now rewrite !append_assoc).
           rewrite number_end_at by (destruct D; discriminate).
           rewrite at_boundary_after_word by (now apply digit_is_word).
           destruct (stops is_word r2) eqn:Er2.
           ++ eexists. split; reflexivity.
           ++ replace ((D ++ "." ++ String x "") ++ r2)
                with ((D ++ ".") ++ String x r2)
                by (now rewrite !append_assoc).
              rewrite number_end_at by assumption.
              rewrite at_boundary_after_nonword by reflexivity.
              cbn [stops]. rewrite (digit_is_word x Ex). cbn [negb].
              eexists. split; reflexivity.
        -- rewrite (Hre D (String x r2)), number_end_at by assumption.
           rewrite at_boundary_after_nonword by reflexivity.
           cbn [stops]. rewrite negb_involutive.
           destruct (is_word x) eqn:Ewx.
           ++ eexists. split; reflexivity.
           ++ rewrite <- (Hre D (String x r2)), Hskip.
              eexists. split; reflexivity.
    + rewrite opt_digit_steps, rmatch_chr.
      simpl in HR. apply negb_true_iff in HR. rewrite HR.
      rewrite number_end_at by assumption.
      rewrite at_boundary_after_word by assumption. cbn [stops].
      destruct (is_word c1); cbn [negb]; [reflexivity |].
      eexists. split; reflexivity.
Qed.

Lemma trimEnd_plain (s : string) :
  all_chars (fun c => negb (is_space c)) s = true -> trimEnd s = s.
Proof.
  induction s as [|c s IH]; [reflexivity |]. simpl. intros H.
  apply andb_true_iff in H as [Hc Hs]. rewrite (IH Hs).
  apply negb_true_iff in Hc. rewrite Hc. now destruct s.
Qed.

Lemma trim_plain (s : string) :
  all_chars (fun c => negb (is_space c)) s = true -> trim s = s.
Proof.
  intros H. unfold trim.
  replace (trimStart s) with s; [now apply trimEnd_plain |].
  destruct s as [|c s]; [reflexivity |]. simpl in *.
  apply andb_true_iff in H as [Hc _]. apply negb_true_iff in Hc.
  now rewrite Hc.
Qed.

Lemma all_chars_weaken (p q : ascii -> bool) (s : string) :
  (forall c, p c = true -> q c = true) ->
  all_chars p s = true -> all_chars q s = true.
Proof.
  intros Hpq. induction s as [|c s IH]; simpl; [reflexivity |].
  intros H. apply andb_true_iff in H as [Hc Hs].
  now rewrite (Hpq c Hc), (IH Hs).
Qed.

Lemma digit_not_space (c : ascii) :
  is_digit c = true -> negb (is_space c) = true.
Proof.
  intros H. apply negb_true_iff.
  destruct (is_space c) eqn:E; [| reflexivity].
  pose proof (space_not_word c E) as Hw.
  rewrite (digit_is_word c H) in Hw. discriminate.
Qed.

(** The text of a number stays as it is under [trim] and [stripQuotes]. *)
Lemma number_text_plain (c : ascii) (d r cap : string) :
  all_chars is_digit (String c d) = true ->
  number_text (String c d) r = Some cap ->
  cap <> "" /\ stripQuotes (trim cap) = cap.
Proof.
  intros Hd Hn.
  assert (exists sfx, cap = String c (d ++ sfx)
                      /\ all_chars (fun x => negb (is_space x)) sfx = true)
    as (sfx & -> & Hs).
  { destruct r as [|c1 r1]; simpl in Hn.
    - exists "". inversion Hn. split; [| reflexivity].
      f_equal. clear. induction d; simpl; congruence.
    - assert (String c d = String c (d ++ "")) as E0.
      { f_equal. clear. induction d; simpl; congruence. }
      destruct (Ascii.eqb c1 ".").
      + destruct r1 as [|x r2].
        * exists "". inversion Hn. now split.
        * destruct (is_digit x) eqn:Ex.
          -- destruct (stops is_word r2); inversion Hn.
             ++ exists ("." ++ String x ""). split; [reflexivity |].
                simpl. now rewrite (digit_not_space x Ex).
             ++ exists ".". now split.
          -- destruct (is_word x); inversion Hn.
             ++ exists ".". now split.
             ++ exists "". now split.
      + destruct (is_word c1); inversion Hn. exists "". now split. }
  split; [discriminate |].
  assert (all_chars (fun x => negb (is_space x)) (String c (d ++ sfx)) = true)
    as Hall.
  { change (String c (d ++ sfx)) with (String c d ++ sfx).
    rewrite all_chars_app, Hs, andb_true_r.
    apply (all_chars_weaken is_digit); [apply digit_not_space | assumption]. }
  rewrite (trim_plain _ Hall).
  simpl in Hd. apply andb_true_iff in Hd as [Hc _].
  unfold stripQuotes. cbn [startsWith].
  change (Ascii.eqb c dquote) with (is_char dquote c).
  change (Ascii.eqb c "'") with (is_char "'" c).
  rewrite (is_char_false dquote c is_digit Hc eq_refl).
  now rewrite (is_char_false "'" c is_digit Hc eq_refl).
Qed.

(** Digits that run into a letter: no end of the digits is accepted. *)
Lemma digits_before_letter (s0 : mstate) (c1 : ascii) (r1 : string) :
  is_word c1 = true -> is_digit c1 = false ->
  forall (w : string) (e : ascii),
    is_word e = true -> all_chars is_digit w = true ->
    greedy_class is_digit (Some e) (w ++ String c1 r1) no_caps (number_tail s0)
    = None.
Proof.
  intros Hw1 Hd1.
  assert (is_char "." c1 = false) as Hdot.
  { unfold is_char. destruct (Ascii.eqb c1 ".") eqn:E; [| reflexivity].
    apply Ascii.eqb_eq in E. subst c1. discriminate. }
  intros w; induction w as [|d w IH]; intros e He Hw.
  - cbn [append greedy_class]. rewrite Hd1.
    rewrite number_tail_steps, rmatch_chr, Hdot.
    rewrite opt_digit_steps, rmatch_chr, Hd1.
    apply (number_end_refused s0 e); [reflexivity | assumption |].
    simpl. now rewrite Hw1.
  - simpl in Hw. apply andb_true_iff in Hw as [Hd Hw].
    change (String d w ++ String c1 r1) with (String d (w ++ String c1 r1)).
    cbn [greedy_class]. rewrite Hd.
    rewrite (IH d (digit_is_word d Hd) Hw).
    rewrite number_tail_steps, rmatch_chr.
    rewrite (is_char_false "." d is_digit Hd eq_refl).
    rewrite opt_digit_steps, rmatch_chr, Hd, progress_one.
    rewrite (number_end_refused s0 d (Some d)
               (w ++ String c1 r1) eq_refl (digit_is_word d Hd)).
    + apply (number_end_refused s0 e); [reflexivity | assumption |].
      simpl. now rewrite (digit_is_word d Hd).
    + destruct w as [|d' w]; simpl; [now rewrite Hw1 |].
      simpl in Hw. apply andb_true_iff in Hw as [Hd' _].
      now rewrite (digit_is_word d' Hd').
Qed.

Lemma number_text_none (d r : string) :
  number_text d r = None ->
  exists c1 r1, r = String c1 r1 /\ is_word c1 = true.
Proof.
  destruct r as [|c1 r1]; simpl; [discriminate |].
  destruct (Ascii.eqb c1 ".").
  - destruct r1 as [|x r2]; [discriminate |].
    destruct (is_digit x); [now destruct (stops is_word r2) |].
    now destruct (is_word x).
  - destruct (is_word c1) eqn:E; [| discriminate]. intros _. now exists c1, r1.
Qed.

(** The number shape at the start of a word: it always matches, and takes
    the text [number_text] gives, or nothing. *)
Lemma number_part (b : option ascii) (c : ascii) (t : string) :
  nonword_before b = true -> is_word c = true ->
  exists m,
    rmatch aNumber (MState b (String c t) no_caps) Some = Some m
    /\ caps m = match span is_digit (String c t) with
                | (EmptyString, _) => no_caps
                | (d, r) => match number_text d r with
                            | Some cap => set_cap 3 cap no_caps
                            | None => no_caps
                            end
                end.
Proof.
  intros Hb Hc. unfold aNumber.
  rewrite rmatch_seq, rmatch_wordb, (at_boundary_nonword b c t _ Hb), Hc.
  rewrite rmatch_seq, rmatch_opt, rmatch_group, rmatch_seq, rmatch_plus,
    rmatch_chr.
  assert (rmatch WordB (MState b (String c t) no_caps) Some
          = Some (MState b (String c t) no_caps)) as Hempty.
  { now rewrite rmatch_wordb, (at_boundary_nonword b c t _ Hb), Hc. }
  cbn [span]. destruct (is_digit c) eqn:Hd.
  - rewrite rmatch_star_greedy.
    change (greedy_class is_digit (Some c) t no_caps _)
      with (greedy_class is_digit (Some c) t no_caps
              (number_tail (MState b (String c t) no_caps))).
    destruct (span_split is_digit t) as (Ht & Ha & Hr).
    destruct (span is_digit t) as [a r]. cbn [fst snd] in *.
    destruct (last_of_class is_digit c a Hd Ha) as (e & He & Hde).
    subst t.
    pose proof (number_tail_value b (String c a) r e
                  ltac:(discriminate) Hde Hr) as Hv.
    destruct (number_text (String c a) r) as [cap|] eqn:En.
    + destruct Hv as (m & Hm & Hcaps). exists m. split; [| assumption].
      rewrite (greedy_class_first is_digit no_caps _ m a r (Some c) Ha Hr);
        [reflexivity |].
      rewrite He. exact Hm.
    + destruct (number_text_none _ _ En) as (c1 & r1 & -> & Hw1).
      simpl in Hr. apply negb_true_iff in Hr.
      rewrite (digits_before_letter _ c1 r1 Hw1 Hr a c Hc Ha).
      eexists. split; [exact Hempty | reflexivity].
  - eexists. split; [exact Hempty | reflexivity].
Qed.

Lemma first_group_caps (m m' : mstate) :
  caps m = caps m' -> forall i n, first_group m i n = first_group m' i n.
Proof.
  intros E i n. revert i. induction n as [|n IH]; intros i; [reflexivity |].
  cbn [first_group]. unfold truthy_group. rewrite E.
  destruct (caps m' i) as [[|x v]|]; auto.
Qed.

Lemma number_value (b : option ascii) (c : ascii) (t : string) (m : mstate) :
  caps m = match span is_digit (String c t) with
           | (EmptyString, _) => no_caps
           | (d, r) => match number_text d r with
                       | Some cap => set_cap 3 cap no_caps
                       | None => no_caps
                       end
           end ->
  first_group m 1 5 = match span is_digit (String c t) with
                      | (EmptyString, _) => None
                      | (d, r) => number_text d r
                      end.
Proof.
  intros Hcaps.
  destruct (span_split is_digit (String c t)) as (_ & Ha & _).
  destruct (span is_digit (String c t)) as [[|d0 d] r].
  - now rewrite (first_group_caps m (MState b "" no_caps)).
  - cbn [fst] in Ha. destruct (number_text (String d0 d) r) as [cap|] eqn:En.
    + rewrite (first_group_caps m (MState b "" (set_cap 3 cap no_caps)))
        by assumption.
      rewrite first_group_captured by lia. cbn [Nat.eqb negb andb].
      destruct (number_text_plain d0 d r cap Ha En) as (Hne & Hplain).
      unfold captured. rewrite Hplain.
      destruct (String.eqb cap "") eqn:E; [| reflexivity].
      apply String.eqb_eq in E. contradiction.
    + now rewrite (first_group_caps m (MState b "" no_caps)).
Qed.

(** The five shapes at the place of the value. *)
Lemma shapes_value (b : option ascii) (V : string) :
  nonword_before b = true ->
  option_map (fun m => first_group m 1 5)
    (rmatch shapes (MState b V no_caps) Some)
  = value_here V.
Proof.
  intros Hb. destruct V as [|c t]; [now rewrite shapes_at_end |].
  cbn [value_here].
  destruct (Ascii.eqb c "'") eqn:E1.
  { apply Ascii.eqb_eq in E1. subst c.
    destruct (until_char "'" t) as [s|] eqn:Eu.
    - destruct (until_char_split _ _ _ Eu) as (tl & -> & Hs).
      rewrite shape_string by assumption. cbn [option_map].
      now rewrite first_group_captured by lia.
    - now rewrite shape_string_open. }
  destruct (Ascii.eqb c "[") eqn:E2.
  { apply Ascii.eqb_eq in E2. subst c.
    destruct (until_char "]" t) as [s|] eqn:Eu.
    - destruct (until_char_split _ _ _ Eu) as (tl & -> & Hs).
      rewrite shape_list by assumption. cbn [option_map].
      now rewrite first_group_captured by lia.
    - now rewrite shape_list_open. }
  destruct (Ascii.eqb c "{") eqn:E3.
  { apply Ascii.eqb_eq in E3. subst c.
    destruct (until_char "}" t) as [s|] eqn:Eu.
    - destruct (until_char_split _ _ _ Eu) as (tl & -> & Hs).
      rewrite shape_dict by assumption. cbn [option_map].
      now rewrite first_group_captured by lia.
    - now rewrite shape_dict_open. }
  destruct (is_word c) eqn:Hw; [| now rewrite shapes_refuse_other].
  unfold shapes. rewrite rmatch_alt.
  assert (rmatch aString (MState b (String c t) no_caps) Some = None) as ->.
  { unfold aString. rewrite rmatch_seq, rmatch_chr. unfold is_char.
    now rewrite E1. }
  rewrite rmatch_alt, (boolean_part b c t Hb Hw).
  destruct (number_part b c t Hb Hw) as (m & Hm & Hcaps).
  apply (number_value b) in Hcaps.
  unfold word_value, word_at.
  destruct (strip_prefix "true" (String c t)) as [r|] eqn:Et.
  { destruct (stops is_word r); [reflexivity |].
    apply strip_prefix_inv in Et.
    replace (strip_prefix "false" (String c t)) with (@None string)
      by (now rewrite Et).
    rewrite rmatch_alt, Hm. cbn [option_map]. now f_equal. }
  destruct (strip_prefix "false" (String c t)) as [r|] eqn:Ef.
  { destruct (stops is_word r); [reflexivity |].
    rewrite rmatch_alt, Hm. cbn [option_map]. now f_equal. }
  rewrite rmatch_alt, Hm. cbn [option_map]. now f_equal.
Qed.

(** One attempt of the pattern at the cursor. *)
Lemma attribute_attempt_here (attribute : string) (b : option ascii)
    (txt : string) :
  option_map (fun m => first_group m 1 5)
    (rmatch (attribute_regex attribute) (MState b txt no_caps) Some)
  = attribute_here attribute txt.
Proof.
  unfold attribute_here.
  destruct (strip_prefix attribute txt) as [t|] eqn:S.
  2:{ now rewrite attribute_regex_steps, rmatch_lit, S. }
  apply strip_prefix_inv in S. subst txt.
  destruct (trimStart_split t) as (ws1 & Ht & H1 & Hstop).
  destruct (trimStart t) as [|c t'] eqn:T.
  - rewrite attribute_regex_steps, rmatch_lit, strip_prefix_app.
    rewrite rmatch_star_greedy, Ht.
    rewrite (greedy_class_end is_space (fun _ => True)); auto.
    intros b' c t' _ Hc. rewrite rmatch_chr.
    now rewrite (is_char_false ":" c is_space Hc eq_refl).
  - destruct (Ascii.eqb c ":") eqn:Ec.
    + apply Ascii.eqb_eq in Ec. subst c.
      destruct (trimStart_split t') as (ws2 & Ht' & H2 & Hstop').
      rewrite Ht. rewrite Ht' at 1.
      change (ws1 ++ String ":" (ws2 ++ trimStart t'))
        with (ws1 ++ ":" ++ ws2 ++ trimStart t').
      rewrite attribute_attempt by assumption.
      apply shapes_value. now apply nonword_after_colon.
    + rewrite attribute_regex_steps, rmatch_lit, strip_prefix_app.
      rewrite rmatch_star_greedy, Ht.
      rewrite (greedy_class_end is_space (fun _ => True)); auto.
      * rewrite rmatch_chr. unfold is_char. now rewrite Ec.
      * intros b' d t'' _ Hd. rewrite rmatch_chr.
        now rewrite (is_char_false ":" d is_space Hd eq_refl).
Qed.

(** The leftmost place at which the pattern matches. *)
Lemma attribute_search (attribute : string) :
  forall (txt : string) (b : option ascii),
    match search (attribute_regex attribute) b txt with
    | None => None
    | Some (_, m) => first_group m 1 5
    end = extractAttribute_spec txt attribute.
Proof.
  intros txt; induction txt as [|c t IH]; intros b;
    cbn [search extractAttribute_spec];
    rewrite <- attribute_attempt_here with (b := b).
  - now destruct (rmatch (attribute_regex attribute) (MState b "" no_caps) Some).
  - destruct (rmatch (attribute_regex attribute)
                (MState b (String c t) no_caps) Some);
      [reflexivity | apply IH].
Qed.

(** C9, amended.  For every script text and attribute name (an identifier,
    which the pattern takes literally), [extractAttribute] returns the value
    at the leftmost place of the text where the name, optional white space,
    a colon, optional white space and one of the five shapes match together;
    a place where the name and the colon are followed by no shape is passed
    over, and with no such place the result is null.  At that place the
    value is: after a single quote the text up to the next single quote,
    trimmed and stripped of enclosing quotes; after [[] the text up to the
    next []], trimmed and otherwise unparsed; after [{] the text up to the
    next [}], likewise; at a word character [true] or [false] when the word
    ends there, else the leading digits with at most one point and one
    further digit, as far as a word boundary follows.  The result is null
    when the captured text is empty: for [''], [[]] and [{}], and for a word
    that is no boolean and starts with no such number.
    On [state: [1, 1, 1, 1, 1, 1, 1, 1, 0, 0]] the key [state] yields
    [1, 1, 1, 1, 1, 1, 1, 1, 0, 0]; on [state: -5, state: 7] it yields [7]. *)
Theorem extractAttribute_shapes (txt attribute : string) :
  identifier attribute = true ->
  extractAttribute txt attribute = extractAttribute_spec txt attribute
  /\ extractAttribute "state: [1, 1, 1, 1, 1, 1, 1, 1, 0, 0]" "state"
     = Some "1, 1, 1, 1, 1, 1, 1, 1, 0, 0"
  /\ extractAttribute "state: -5, state: 7" "state" = Some "7".
Proof.
  intros _. split; [| split; reflexivity].
  unfold extractAttribute, exec.
  rewrite <- (attribute_search attribute txt None).
  now destruct (search (attribute_regex attribute) None txt) as [[w m]|].
Qed.

Lemma extractAttribute_shapes_witness :
  identifier "names" = true
  /\ extractAttribute "var qvlan_ds = {count: 2, names: [ 'Default', '' ]};"
       "names"
     = Some "'Default', ''"
  /\ extractAttribute_spec
       "var qvlan_ds = {count: 2, names: [ 'Default', '' ]};" "names"
     = Some "'Default', ''".
Proof.
  split; [reflexivity |].
  destruct (extractAttribute_shapes
              "var qvlan_ds = {count: 2, names: [ 'Default', '' ]};" "names"
              eq_refl) as [H _].
  split; [| rewrite <- H]; reflexivity.
Defined.

(* ------------------------------------------------------------------ *)
(** ** The text of a Number and [parseInt] *)

Ltac eval_digit :=
  match goal with
  | |- context [digit_value ?c] =>
      let v := eval vm_compute in (digit_value c) in
      change (digit_value c) with v
  end; cbv beta match;
  match goal with
  | |- context [?a <? 10] =>
      let v := eval vm_compute in (a <? 10) in
      change (a <? 10) with v
  end; cbv beta match.

Lemma read_digits_acc (d : Decimal.uint) (acc : positive) :
  read_digits 10 (NilEmpty.string_of_uint d) (Some (Zpos acc))
  = Some (Zpos (Pos.of_uint_acc d acc)).
Proof.
  revert acc; induction d; intros acc; cbn [NilEmpty.string_of_uint];
    [reflexivity | ..];
    cbn [read_digits]; eval_digit; cbn [Pos.of_uint_acc];
    rewrite <- IHd; do 2 f_equal; lia.
Qed.

Lemma read_digits_zero (d : Decimal.uint) :
  read_digits 10 (NilEmpty.string_of_uint d) (Some 0%Z)
  = Some (Z.of_N (Pos.of_uint d)).
Proof.
  induction d; cbn [NilEmpty.string_of_uint]; [reflexivity | ..];
    cbn [read_digits]; eval_digit; [exact IHd | ..];
    cbn [Pos.of_uint N.of_nat Z.of_N]; rewrite <- read_digits_acc;
    reflexivity.
Qed.

Lemma digits_of_uint (d : Decimal.uint) :
  all_chars is_digit (NilEmpty.string_of_uint d) = true.
Proof. induction d; simpl; auto. Qed.

Lemma parseInt_digits (s : string) :
  s <> "" -> all_chars is_digit s = true ->
  parseInt s None = match read_digits 10 s None with
                    | Some v => Some (toNumber v)
                    | None => None
                    end.
Proof.
  intros Hne Hd. destruct s as [|c t]; [congruence |].
  simpl in Hd. apply andb_true_iff in Hd as [Hc Ht].
  unfold parseInt. cbn [trimStart].
  rewrite (word_not_space c (digit_is_word c Hc)).
  assert (Ascii.eqb c "-" = false /\ Ascii.eqb c "+" = false) as [Em Ep].
  { split; [apply (is_char_false "-" c is_digit) | apply (is_char_false "+" c is_digit)];
      auto. }
  assert (match String c t with
          | String "-" t0 => (true, t0)
          | String "+" t0 => (false, t0)
          | _ => (false, String c t)
          end = (false, String c t)) as ->.
  { destruct c as [[] [] [] [] [] [] [] []]; try reflexivity; discriminate. }
  assert (strip_0x (String c t) = None) as ->.
  { destruct t as [|x t]; [now destruct c as [[] [] [] [] [] [] [] []] |].
    simpl in Ht. apply andb_true_iff in Ht as [Hx _].
    destruct x as [[] [] [] [] [] [] [] []]; try discriminate Hx;
      destruct c as [[] [] [] [] [] [] [] []]; reflexivity. }
  now destruct (read_digits 10 (String c t) None).
Qed.

Lemma strip_0x_digits (s : string) :
  all_chars is_digit s = true -> strip_0x s = None.
Proof.
  intros Hd. destruct s as [|c [|x t]]; [reflexivity | |].
  - now destruct c as [[] [] [] [] [] [] [] []].
  - simpl in Hd. apply andb_true_iff in Hd as [_ Hd].
    apply andb_true_iff in Hd as [Hx _].
    destruct x as [[] [] [] [] [] [] [] []]; try discriminate Hx;
      destruct c as [[] [] [] [] [] [] [] []]; reflexivity.
Qed.

Lemma parseInt_negative (t : string) :
  all_chars is_digit t = true ->
  parseInt (String "-" t) None
  = match read_digits 10 t None with
    | Some v => Some (- toNumber v)%Z
    | None => None
    end.
Proof.
  intros Hd. unfold parseInt. cbn [trimStart].
  change (is_space "-") with false. cbv beta match.
  rewrite (strip_0x_digits t Hd).
  now destruct (read_digits 10 t None).
Qed.

Lemma read_digits_start (s : string) :
  s <> "" -> all_chars is_digit s = true ->
  read_digits 10 s None = read_digits 10 s (Some 0%Z).
Proof.
  intros Hne Hd. destruct s as [|c t]; [congruence |].
  simpl in Hd. apply andb_true_iff in Hd as [Hc _].
  cbn [read_digits]. unfold digit_value. rewrite Hc.
  destruct (code c - 48 <? 10) eqn:E; [reflexivity |].
  unfold is_digit in Hc. apply andb_true_iff in Hc as [H1 H2].
  apply Nat.leb_le in H1, H2. apply Nat.ltb_ge in E. lia.
Qed.

Lemma string_of_uint_nonempty (d : Decimal.uint) :
  d <> Decimal.Nil -> NilEmpty.string_of_uint d <> "".
Proof. destruct d; simpl; congruence. Qed.

Lemma NilZero_of_nonnil (d : Decimal.uint) :
  d <> Decimal.Nil -> NilZero.string_of_uint d = NilEmpty.string_of_uint d.
Proof. destruct d; simpl; congruence. Qed.

Lemma toNumber_small (z : Z) : (z < 2 ^ 53)%Z -> toNumber z = z.
Proof.
  intros H. unfold toNumber.
  now replace (z <? 2 ^ 53)%Z with true by (symmetry; apply Z.ltb_lt; lia).
Qed.

(** [parseInt] gives back the integer whose text it reads. *)
Lemma parseInt_number_exact (z : Z) :
  (Z.abs z < 2 ^ 53)%Z -> parseInt_number z = Some z.
Proof.
  intros Hz. unfold parseInt_number, number_to_string.
  destruct z as [|p|p]; [reflexivity | |]; cbn [Z.to_int NilZero.string_of_int].
  - pose proof (DecimalPos.Unsigned.to_uint_nonnil p) as Hnn.
    rewrite (NilZero_of_nonnil _ Hnn).
    rewrite parseInt_digits
      by (auto using string_of_uint_nonempty, digits_of_uint).
    rewrite read_digits_start
      by (auto using string_of_uint_nonempty, digits_of_uint).
    rewrite read_digits_zero, DecimalPos.Unsigned.of_to.
    cbn [Z.of_N]. rewrite toNumber_small by (simpl in Hz; lia). reflexivity.
  - pose proof (DecimalPos.Unsigned.to_uint_nonnil p) as Hnn.
    rewrite (NilZero_of_nonnil _ Hnn).
    rewrite parseInt_negative by apply digits_of_uint.
    rewrite read_digits_start
      by (auto using string_of_uint_nonempty, digits_of_uint).
    rewrite read_digits_zero, DecimalPos.Unsigned.of_to.
    cbn [Z.of_N]. rewrite toNumber_small by (simpl in Hz; lia). reflexivity.
Qed.

(* ------------------------------------------------------------------ *)
(** ** The write operations, for all arguments *)

(** X1.  The pattern [/^[a-zA-Z0-9-_]+$/] of [SetSwitch] and [SetVLAN]
    accepts exactly the non-empty names made of letters, digits, [-] and
    [_]. *)
Theorem name_pattern_accepts (name : string) :
  name_regex_test name = true
  <-> name <> "" /\ all_chars is_name_char name = true.
Proof.
  rewrite name_regex_test_spec, andb_true_iff, negb_true_iff.
  now rewrite String.eqb_neq.
Qed.

Lemma attempts_app (tr : transport) (rq : request) (h reqs : list request) :
  attempts tr h (rq :: reqs)
  = match tr h rq with
    | inl _ => (h ++ [rq])%list
    | inr _ => attempts tr (h ++ [rq])%list reqs
    end.
Proof. reflexivity. Qed.

(** X2.  [SetSwitch], for every name, flag and device: after the login it
    sends the rename request when the name is non-empty and either shorter
    than 32 characters or made of the characters of the name pattern, then
    the mode request when the flag is 1 and for no other flag, then the
    logout; a rejected request ends the sequence. *)
Theorem SetSwitch_requests (server username password name : string)
    (vlan : Z) (tr : transport) :
  trace_of (SetSwitch server username password name vlan) tr tt
  = attempts tr []
      (login_request server username password None
       :: (if negb (String.eqb name "")
              && ((String.length name <? 32) || all_chars is_name_char name)
           then [GET ("http://" ++ server
                      ++ ":80/system_name_set.cgi?sysName=" ++ name)]
           else [])
       ++ (if (vlan =? 1)%Z
           then [GET ("http://" ++ server
                      ++ ":80/qvlanSet.cgi?qvlan_en=1&qvlan_mode=Apply")]
           else [])
       ++ [logout_request server])%list.
Proof.
  unfold SetSwitch. rewrite SetSwitch_rename_condition.
  assert (truthy (Num vlan) && ((vlan =? 0)%Z || (vlan =? 1)%Z)
          = (vlan =? 1)%Z) as ->.
  { unfold truthy. destruct (Z.eqb_spec vlan 0) as [-> | H0]; [reflexivity |].
    reflexivity. }
  destruct (negb (String.eqb name "")
            && ((String.length name <? 32) || all_chars is_name_char name));
    destruct (Z.eqb_spec vlan 1) as [-> | H1];
    run_prog; unfold rename_url, vlan_mode_url, SWITCH_PATH, VLAN_PATH; simpl;
    repeat (match goal with
            | |- context [tr ?h ?rq] => destruct (tr h rq); simpl
            end); reflexivity.
Qed.

(** X3.  [SetPort], for integer arguments in the exact range of Numbers and
    every speed text and device: after the login it sends the one configure
    request when the port is in 1..8, the state is 0 or 1 and
    [SPEED2VALUE[speed]] is truthy, with the port, the state and that table
    entry spliced into the URL; then the logout. *)
Theorem SetPort_requests (server username password speed : string)
    (port state : Z) (tr : transport) :
  (Z.abs port < 2 ^ 53)%Z -> (Z.abs state < 2 ^ 53)%Z ->
  trace_of (SetPort server username password port state speed) tr tt
  = attempts tr []
      (login_request server username password None
       :: (if (1 <=? port)%Z && (port <=? 8)%Z
              && ((state =? 0)%Z || (state =? 1)%Z)
              && truthy (SPEED2VALUE speed)
           then [GET ("http://" ++ server ++ ":80/port_setting.cgi?portid="
                      ++ number_to_string port ++ "&state="
                      ++ number_to_string state ++ "&speed="
                      ++ to_string (SPEED2VALUE speed)
                      ++ "&flowcontrol=0&apply=Apply")]
           else [])
       ++ [logout_request server])%list.
Proof.
  intros Hport Hstate. unfold SetPort.
  rewrite !parseInt_number_exact by assumption.
  unfold num_le, num_eq, of_number.
  destruct ((1 <=? port)%Z && (port <=? 8)%Z
            && ((state =? 0)%Z || (state =? 1)%Z)
            && truthy (SPEED2VALUE speed));
    run_prog; unfold port_url, PORT_PATH; simpl;
    repeat (match goal with
            | |- context [tr ?h ?rq] => destruct (tr h rq); simpl
            end); reflexivity.
Qed.

Lemma SetPort_requests_witness :
  (Z.abs 4 < 2 ^ 53)%Z /\ (Z.abs 1 < 2 ^ 53)%Z
  /\ trace_of (SetPort "192.168.0.1" "admin" "admin" 4 1 "Auto")
       silent_device tt
     = [login_request "192.168.0.1" "admin" "admin" None;
        GET ("http://192.168.0.1:80/port_setting.cgi?portid=4&state=1&speed=1"
             ++ "&flowcontrol=0&apply=Apply");
        logout_request "192.168.0.1"].
Proof.
  split; [reflexivity |]. split; [reflexivity |].
  rewrite (SetPort_requests "192.168.0.1" "admin" "admin" "Auto" 4 1
             silent_device eq_refl eq_refl).
  reflexivity.
Defined.

(** X4.  [SetVLAN] sends nothing between login and logout when the id (an
    integer in the exact range of Numbers) lies outside 2..32, when the name
    is empty, or when the name has a character outside the name pattern. *)
Theorem SetVLAN_rejects (server username password name : string)
    (vlan : Z) (members : list Z) (tr : transport) :
  (Z.abs vlan < 2 ^ 53)%Z ->
  (vlan < 2)%Z \/ (32 < vlan)%Z \/ name = ""
  \/ all_chars is_name_char name = false ->
  trace_of (SetVLAN server username password vlan name members) tr tt
  = attempts tr []
      [login_request server username password None; logout_request server].
Proof.
  intros Hvlan Hbad. unfold SetVLAN.
  rewrite parseInt_number_exact by assumption. unfold num_le.
  assert ((2 <=? vlan)%Z && (vlan <=? 32)%Z && truthy (Str name)
          && negb (String.eqb name "") && name_regex_test name
          && isArray members = false) as ->.
  { rewrite name_regex_test_spec.
    destruct Hbad as [H | [H | [H | H]]].
    - replace (2 <=? vlan)%Z with false by (symmetry; apply Z.leb_gt; lia).
      reflexivity.
    - replace (vlan <=? 32)%Z with false by (symmetry; apply Z.leb_gt; lia).
      now rewrite andb_false_r.
    - subst name. now rewrite !andb_false_r.
    - rewrite H. now rewrite !andb_false_r. }
  run_prog.
  repeat (match goal with
          | |- context [tr ?h ?rq] => destruct (tr h rq); simpl
          end); reflexivity.
Qed.

Lemma SetVLAN_rejects_witness :
  (Z.abs 40 < 2 ^ 53)%Z
  /\ ((40 < 2)%Z \/ (32 < 40)%Z \/ "ops" = ""
      \/ all_chars is_name_char "ops" = false)
  /\ trace_of (SetVLAN "192.168.0.1" "admin" "admin" 40 "ops" [1; 2]%Z)
       silent_device tt
     = [login_request "192.168.0.1" "admin" "admin" None;
        logout_request "192.168.0.1"].
Proof.
  split; [reflexivity |]. split; [right; left; reflexivity |].
  rewrite (SetVLAN_rejects "192.168.0.1" "admin" "admin" "ops" 40 [1; 2]%Z
             silent_device eq_refl (or_intror (or_introl eq_refl))).
  reflexivity.
Defined.

(* ------------------------------------------------------------------ *)
(** ** [extractTagContent] *)

Lemma is_char_ci_refl (c : ascii) : is_char_ci c c = true.
Proof. unfold is_char_ci. apply Ascii.eqb_refl. Qed.

Lemma is_char_ci_lt (c : ascii) : is_char_ci "<" c = Ascii.eqb c "<".
Proof. destruct c as [[] [] [] [] [] [] [] []]; vm_compute; reflexivity. Qed.

Lemma rmatch_lit_ci_app (a t : string) (b : option ascii)
    (g : nat -> option string) (k : cont) :
  rmatch (lit_ci a) (MState b (a ++ t) g) k = k (MState (last_of b a) t g).
Proof.
  revert b; induction a as [|c a IH]; intros b; [reflexivity |].
  cbn [lit_ci append last_of]. rewrite rmatch_seq, rmatch_chr, is_char_ci_refl.
  apply IH.
Qed.

(** A pattern that begins with [<] fails where the text does not. *)
Lemma lit_ci_needs_lt (a : string) (s : mstate) (k : cont) :
  stops (is_char "<") (rest s) = true ->
  rmatch (lit_ci (String "<" a)) s k = None.
Proof.
  intros Hs. cbn [lit_ci]. rewrite rmatch_seq. destruct s as [b [|c t] g].
  - reflexivity.
  - rewrite rmatch_chr, is_char_ci_lt. simpl in Hs.
    unfold is_char in Hs. apply negb_true_iff in Hs. now rewrite Hs.
Qed.

Lemma substr_app (a t : string) : substr (String.length a) (a ++ t) = t.
Proof. induction a as [|c a IH]; simpl; [now destruct t | assumption]. Qed.

Lemma substring_prefix (n : nat) (a t : string) :
  n <= String.length a -> substring 0 n (a ++ t) = substring 0 n a.
Proof.
  revert a; induction n as [|n IH]; intros a Hn.
  - destruct a; simpl; now destruct t.
  - destruct a as [|c a]; simpl in *; [lia |]. now rewrite IH by lia.
Qed.

Lemma tag_search_skip (r : regex) (a : string) :
  forall (pre tl : string) (b : option ascii),
    all_chars (not_char "<") pre = true ->
    search (Seq (lit_ci (String "<" a)) r) b (pre ++ tl)
    = search (Seq (lit_ci (String "<" a)) r) (last_of b pre) tl.
Proof.
  intros pre tl; induction pre as [|c pre IH]; intros b Hpre; [reflexivity |].
  simpl in Hpre. apply andb_true_iff in Hpre as [Hc Hpre].
  change (String c pre ++ tl) with (String c (pre ++ tl)).
  cbn [search]. rewrite rmatch_seq, lit_ci_needs_lt.
  - now apply IH.
  - simpl. unfold not_char in Hc. unfold is_char. now rewrite Hc.
Qed.

Lemma lazy_class_here (p : ascii -> bool) (b : option ascii) (t : string)
    (g : nat -> option string) (k : cont) (r : mstate) :
  k (MState b t g) = Some r -> lazy_class p b t g k = Some r.
Proof. intros H. destruct t; simpl; now rewrite H. Qed.

Lemma not_lt_tail (c : ascii) (t : string) :
  all_chars (not_char "<") (String c t) = true ->
  all_chars (not_char "<") t = true.
Proof. simpl. intros H. now apply andb_true_iff in H as [_ H]. Qed.

Lemma not_lt_stops (t : string) :
  all_chars (not_char "<") t = true -> stops (is_char "<") t = true.
Proof.
  destruct t as [|c t]; [reflexivity |]. simpl. intros H.
  apply andb_true_iff in H as [H _]. exact H.
Qed.

(** X5.  A text without [<] holds no tag: [extractTagContent] returns null
    for every tag name and every occurrence index. *)
Theorem extractTagContent_absent (txt tag : string) (n : nat) :
  identifier tag = true ->
  all_chars (not_char "<") txt = true ->
  extractTagContent txt tag n = None.
Proof.
  intros _ Htxt. unfold extractTagContent, match_all.
  cbn [match_all_from].
  rewrite (search_none (fun t => all_chars (not_char "<") t = true));
    [reflexivity | apply not_lt_tail | | assumption].
  intros s Hs. rewrite rmatch_seq.
  apply (lit_ci_needs_lt (tag ++ ">")). now apply not_lt_stops.
Qed.

Lemma extractTagContent_absent_witness :
  identifier "script" = true
  /\ all_chars (not_char "<") "no markup at all" = true
  /\ extractTagContent "no markup at all" "script" 0 = None.
Proof.
  split; [reflexivity |]. split; [reflexivity |].
  exact (extractTagContent_absent "no markup at all" "script" 0
           eq_refl eq_refl).
Defined.

Lemma tag_block_search (pre tag body post : string) :
  all_chars (not_char "<") pre = true ->
  all_chars (not_char "<") body = true ->
  exists m,
    search (Seq (lit_ci ("<" ++ tag ++ ">"))
              (Seq (Group 1 (Star false (Chr any_char)))
                 (lit_ci ("</" ++ tag ++ ">"))))
      None
      (pre ++ ("<" ++ tag ++ ">") ++ body ++ ("</" ++ tag ++ ">") ++ post)
    = Some (("<" ++ tag ++ ">") ++ body ++ ("</" ++ tag ++ ">"), m).
Proof.
  intros Hpre Hbody.
  set (open := "<" ++ tag ++ ">"). set (close := "</" ++ tag ++ ">").
  set (re := Seq (lit_ci open)
               (Seq (Group 1 (Star false (Chr any_char))) (lit_ci close))).
  assert (rmatch re
            (MState (last_of None pre) (open ++ body ++ close ++ post) no_caps)
            Some
          = Some (MState (last_of (last_of (last_of (last_of None pre) open)
                                     body) close)
                    post (set_cap 1 body no_caps))) as Hm.
  { unfold re.
    rewrite rmatch_seq, rmatch_lit_ci_app, rmatch_seq, rmatch_group,
      rmatch_star_lazy.
    rewrite (lazy_class_skip any_char (not_char "<"));
      [| | apply all_any_char | assumption].
    2:{ intros b' c t' Hc. cbn [before rest caps]. unfold close.
        apply (lit_ci_needs_lt ("/" ++ tag ++ ">")). simpl.
        unfold not_char in Hc. unfold is_char. now rewrite Hc. }
    apply lazy_class_here. cbn [before rest caps].
    now rewrite rmatch_lit_ci_app, consumed_app. }
  eexists.
  unfold re at 1. change open with (String "<" (tag ++ ">")) at 1.
  rewrite tag_search_skip by assumption.
  change (Seq (lit_ci (String "<" (tag ++ ">")))
            (Seq (Group 1 (Star false (Chr any_char))) (lit_ci close)))
    with re.
  assert (open ++ body ++ close ++ post
          = String "<" ((tag ++ ">") ++ body ++ close ++ post)) as Etxt
    by reflexivity.
  rewrite Etxt. cbn [search]. rewrite <- Etxt, Hm.
  replace (open ++ body ++ close ++ post)
    with ((open ++ body ++ close) ++ post) by (now rewrite !append_assoc).
  now rewrite consumed_app.
Qed.

Lemma tag_slice (tag body : string) :
  slice_off (String.length ("<" ++ backslash ++ "/" ++ tag ++ ">"))
    (substr (String.length ("<" ++ tag ++ ">"))
       (("<" ++ tag ++ ">") ++ body ++ ("</" ++ tag ++ ">")))
  = substring 0 (String.length body - 1) body.
Proof.
  rewrite substr_app. unfold slice_off. rewrite length_append.
  replace (String.length ("</" ++ tag ++ ">"))
    with (String.length tag + 3) by (simpl; rewrite length_append; simpl; lia).
  replace (String.length ("<" ++ backslash ++ "/" ++ tag ++ ">"))
    with (String.length tag + 4)
    by (simpl; rewrite length_append; simpl; lia).
  replace (String.length body + (String.length tag + 3)
           - (String.length tag + 4))
    with (String.length body - 1) by lia.
  apply substring_prefix. lia.
Qed.

(** X6.  On a document whose first [<] opens the tag, with a content that
    holds no [<], [extractTagContent] with index 0 returns that content
    without its last character, whatever follows the closing tag: the slice
    takes off the length of the pattern text [<\/tag>], one more than the
    closing tag has. *)
Theorem extractTagContent_first_block (pre tag body post : string) :
  identifier tag = true ->
  all_chars (not_char "<") pre = true ->
  all_chars (not_char "<") body = true ->
  extractTagContent
    (pre ++ ("<" ++ tag ++ ">") ++ body ++ ("</" ++ tag ++ ">") ++ post) tag 0
  = Some (substring 0 (String.length body - 1) body).
Proof.
  intros _ Hpre Hbody.
  destruct (tag_block_search pre tag body post Hpre Hbody) as [m Hs].
  unfold extractTagContent, match_all.
  cbn [match_all_from]. rewrite Hs.
  cbn [List.length Nat.leb nth_error].
  f_equal. apply tag_slice.
Qed.

Lemma extractTagContent_first_block_witness :
  identifier "script" = true
  /\ all_chars (not_char "<") "x " = true
  /\ all_chars (not_char "<") "var a = 1;" = true
  /\ extractTagContent
       "x <script>var a = 1;</script><script>var b = 2;</script>" "script" 0
     = Some "var a = 1".
Proof.
  split; [reflexivity |]. split; [reflexivity |]. split; [reflexivity |].
  exact (extractTagContent_first_block "x " "script" "var a = 1;"
           "<script>var b = 2;</script>" eq_refl eq_refl eq_refl).
Defined.

Lemma extractVariable_no_semicolon (txt variable : string) :
  all_chars (not_char ";") txt = true -> extractVariable txt variable = None.
Proof.
  intros H. rewrite extractVariable_unfold.
  rewrite (search_none (fun t => all_chars (not_char ";") t = true));
    [reflexivity | apply no_semicolon_tail | | assumption].
  intros s Hs. now apply variable_needs_semicolon.
Qed.

(** X20.  A script block whose last statement ends right before the closing
    tag loses the semicolon of that statement to the cut of
    [extractTagContent]; when it is the only semicolon of the block,
    [extractVariable] finds no variable in the content at all. *)
Theorem last_semicolon_is_cut (pre tag body post variable : string) :
  identifier tag = true ->
  all_chars (not_char "<") pre = true ->
  all_chars (not_char "<") body = true ->
  all_chars (not_char ";") body = true ->
  extractTagContent
    (pre ++ ("<" ++ tag ++ ">") ++ (body ++ ";") ++ ("</" ++ tag ++ ">")
     ++ post) tag 0
  = Some body
  /\ extractVariable body variable = None.
Proof.
  intros _ Hpre Hbody Hsemi. split; [| now apply extractVariable_no_semicolon].
  assert (all_chars (not_char "<") (body ++ ";") = true) as Hb
    by (rewrite all_chars_app, Hbody; reflexivity).
  destruct (tag_block_search pre tag (body ++ ";") post Hpre Hb) as [m Hs].
  unfold extractTagContent, match_all.
  cbn [match_all_from]. rewrite Hs.
  cbn [List.length Nat.leb nth_error].
  f_equal. rewrite tag_slice, length_append. simpl.
  replace (String.length body + 1 - 1) with (String.length body) by lia.
  apply substring_all.
Qed.

Lemma last_semicolon_is_cut_witness :
  extractTagContent "<script>var max_port_num = 8;</script>" "script" 0
  = Some "var max_port_num = 8"
  /\ extractVariable "var max_port_num = 8" "max_port_num" = None.
Proof.
  exact (last_semicolon_is_cut "" "script" "var max_port_num = 8" ""
           "max_port_num" eq_refl eq_refl eq_refl eq_refl).
Defined.

(* ------------------------------------------------------------------ *)
(** ** [stripQuotes] *)

Lemma endsWith_snoc (q : ascii) (s : string) (d : ascii) :
  endsWith (String d (s ++ String q "")) q = true.
Proof.
  revert d; induction s as [|c s IH]; intros d.
  - simpl. apply Ascii.eqb_refl.
  - change (endsWith (String c (s ++ String q "")) q = true). apply IH.
Qed.

Lemma remove_trailing_snoc (q : ascii) (s : string) :
  remove_trailing q (s ++ String q "") = s.
Proof.
  induction s as [|c s IH].
  - simpl. now rewrite Ascii.eqb_refl.
  - change (remove_trailing q (String c (s ++ String q "")) = String c s).
    cbn [remove_trailing]. rewrite IH. now destruct s.
Qed.

Lemma endsWith_last (q : ascii) (s : string) :
  endsWith s q = true -> exists u, s = u ++ String q "".
Proof.
  induction s as [|c s IH]; [discriminate |].
  destruct s as [|d s].
  - simpl. intros H. apply Ascii.eqb_eq in H. subst c. now exists "".
  - intros H. change (endsWith (String d s) q = true) in H.
    destruct (IH H) as [u Hu]. exists (String c u). simpl. now rewrite Hu.
Qed.

Lemma unwrap_double_quotes (s : string) :
  stripQuotes (String dquote (s ++ String dquote "")) = s.
Proof.
  unfold stripQuotes.
  cbn [startsWith]. rewrite Ascii.eqb_refl, endsWith_snoc.
  cbn [andb remove_leading]. rewrite Ascii.eqb_refl.
  apply remove_trailing_snoc.
Qed.

Lemma unwrap_single_quotes (s : string) :
  stripQuotes (String "'" (s ++ String "'" "")) = s.
Proof.
  unfold stripQuotes.
  cbn [startsWith]. change (Ascii.eqb "'" dquote) with false.
  cbn [andb]. rewrite Ascii.eqb_refl, endsWith_snoc.
  cbn [andb remove_leading]. rewrite Ascii.eqb_refl.
  apply remove_trailing_snoc.
Qed.

(** X7.  [stripQuotes] takes one pair of matching quotes off a text that is
    wrapped in double or in single quotes, whatever the text between them
    holds (quotes included), so that wrapping and stripping is the
    identity. *)
Theorem stripQuotes_unwraps (s : string) :
  stripQuotes (String dquote (s ++ String dquote "")) = s
  /\ stripQuotes (String "'" (s ++ String "'" "")) = s.
Proof.
  split; [apply unwrap_double_quotes | apply unwrap_single_quotes].
Qed.

(** X8.  [stripQuotes] changes a text only when its first and its last
    character are the same quote character; it then drops these two, or the
    one character of a text that is a lone quote, and never more. *)
Theorem stripQuotes_cases (txt : string) :
  stripQuotes txt = txt
  \/ (exists q s, (q = dquote \/ q = "'"%char)
        /\ txt = String q (s ++ String q "") /\ stripQuotes txt = s)
  \/ (exists q, (q = dquote \/ q = "'"%char)
        /\ txt = String q "" /\ stripQuotes txt = "").
Proof.
  assert (forall q, startsWith txt q && endsWith txt q = true ->
            (exists s, txt = String q (s ++ String q ""))
            \/ txt = String q "") as Hq.
  { intros q H. apply andb_true_iff in H as [H1 H2].
    destruct txt as [|c t]; [discriminate |].
    simpl in H1. apply Ascii.eqb_eq in H1. subst c.
    destruct t as [|d t]; [now right | left].
    change (endsWith (String d t) q = true) in H2.
    destruct (endsWith_last _ _ H2) as [u Hu]. exists u. now rewrite Hu. }
  destruct (startsWith txt dquote && endsWith txt dquote) eqn:Ed.
  - right. destruct (Hq _ Ed) as [[s Hs] | Hs].
    + left. exists dquote, s. split; [now left |]. split; [assumption |].
      rewrite Hs. apply unwrap_double_quotes.
    + right. exists dquote. split; [now left |]. split; [assumption |].
      now rewrite Hs.
  - destruct (startsWith txt "'" && endsWith txt "'") eqn:Es.
    + right. destruct (Hq _ Es) as [[s Hs] | Hs].
      * left. exists "'"%char, s. split; [now right |]. split; [assumption |].
        rewrite Hs. apply unwrap_single_quotes.
      * right. exists "'"%char. split; [now right |]. split; [assumption |].
        now rewrite Hs.
    + left. unfold stripQuotes. now rewrite Ed, Es.
Qed.

(* ------------------------------------------------------------------ *)
(** ** The order of the requests of [Info] *)

Lemma sends_quiet {L A : Type} (m : Prog L A) :
  quiet (fun _ => False) m -> sends [] m.
Proof.
  intros Hm tr l h. destruct (Hm tr l h) as (l' & ext & o & E & HF & Hx).
  destruct ext as [|rq ext]; [| now inversion HF].
  exists l', 0, o. simpl. repeat split; assumption || lia || reflexivity.
Qed.

Lemma sends_fetch_bind {L A : Type} (rq : request) (rs : list request)
    (f : response -> Prog L A) :
  (forall r, sends rs (f r)) -> sends (rq :: rs) (bind (fetch rq) f).
Proof.
  intros Hf tr l h. unfold bind, fetch.
  destruct (tr h rq) as [e|r].
  - exists l, 1, (Throw e). simpl.
    repeat split; [lia | discriminate | discriminate].
  - destruct (Hf r tr l (h ++ [rq])%list) as (l' & k & o & E & Hk & Hr & Hx).
    exists l', (S k), o. rewrite E, <- app_assoc. simpl.
    repeat split; [lia | | assumption].
    intros a Ha. now rewrite (Hr a Ha).
Qed.

Lemma sends_bind {L A B : Type} (r1 r2 : list request) (m : Prog L A)
    (f : A -> Prog L B) :
  sends r1 m -> (forall a, sends r2 (f a)) -> sends (r1 ++ r2) (bind m f).
Proof.
  intros Hm Hf tr l h. unfold bind.
  destruct (Hm tr l h) as (l1 & k1 & o1 & -> & Hk1 & Hr1 & Hx1).
  destruct o1 as [a|e|c].
  - rewrite (Hr1 a eq_refl), firstn_all.
    destruct (Hf a tr l1 (h ++ r1)%list) as (l2 & k2 & o2 & -> & Hk2 & Hr2 & Hx2).
    exists l2, (List.length r1 + k2), o2.
    rewrite firstn_app_2, <- app_assoc, length_app.
    repeat split; [lia | | assumption].
    intros b Hb. now rewrite (Hr2 b Hb).
  - exists l1, k1, (Throw e).
    rewrite firstn_app, length_app.
    replace (k1 - List.length r1) with 0 by lia.
    rewrite firstn_O, app_nil_r.
    repeat split; [lia | discriminate | discriminate].
  - now destruct (Hx1 c).
Qed.

Lemma sends_then {L A B : Type} (rs : list request) (m : Prog L A)
    (f : A -> Prog L B) :
  quiet (fun _ => False) m -> (forall a, sends rs (f a)) ->
  sends rs (bind m f).
Proof. intros Hm Hf. apply (sends_bind [] rs); [now apply sends_quiet | assumption]. Qed.

Lemma sends_call {L L' A : Type} (rs : list request) (init : L')
    (m : Prog L' A) :
  sends rs m -> sends rs (@call L L' A init m).
Proof.
  intros Hm tr l h. unfold call.
  destruct (Hm tr init h) as (l1 & k & o & -> & H).
  now exists l, k, o.
Qed.

Lemma sends_portInfo1 (server : string) :
  sends [GET ("http://" ++ server ++ PORT_INFO_1_PATH)] (_portInfo1 server).
Proof.
  unfold _portInfo1. apply sends_fetch_bind. intros r. apply sends_quiet.
  unfold split_of, allocate_port, update_port. repeat quiet_step.
Qed.

Lemma sends_portInfo2 (server : string) :
  sends [GET ("http://" ++ server ++ PORT_INFO_2_PATH)] (_portInfo2 server).
Proof.
  unfold _portInfo2. apply sends_fetch_bind. intros r. apply sends_quiet.
  unfold split_of, update_port. repeat quiet_step.
Qed.

Lemma sends_vlanInfo (server : string) :
  sends [GET ("http://" ++ server ++ VLAN_INFO_PATH)] (_vlanInfo server).
Proof.
  unfold _vlanInfo. apply sends_fetch_bind. intros r. apply sends_quiet.
  unfold split_of, stripQuotes_of, allocate_vlan, update_vlan.
  repeat quiet_step.
Qed.

Lemma sends_switchInfo (server : string) :
  sends [GET ("http://" ++ server ++ SWITCH_INFO_PATH);
         GET ("http://" ++ server ++ PORT_INFO_1_PATH);
         GET ("http://" ++ server ++ PORT_INFO_2_PATH);
         GET ("http://" ++ server ++ VLAN_INFO_PATH)] (_switchInfo server).
Proof.
  unfold _switchInfo.
  apply sends_then; [apply quiet_put | intros _].
  apply sends_fetch_bind. intros r. cbv zeta.
  apply sends_then;
    [unfold stripQuotes_of; repeat quiet_step | intros _].
  apply (sends_bind [_] [_; _]); [apply sends_portInfo1 | intros _].
  apply (sends_bind [_] [_]); [apply sends_portInfo2 | intros _].
  apply (sends_bind [_] []); [apply sends_vlanInfo | intros _].
  apply sends_quiet. repeat quiet_step.
Qed.

(** X9.  [Info] sends the login, the identity page, the port settings, the
    port statistics, the VLAN table and the logout, in this order and
    nothing else; it stops after the request whose step throws, so that its
    trace is a non-empty prefix of the six, and it has sent all six when it
    returns.  It never exits the process. *)
Theorem Info_request_order (server username password : string)
    (tr : transport) :
  exists k,
    1 <= k <= 6
    /\ trace_of (Info server username password) tr tt
       = firstn k (Info_requests server username password)
    /\ match result_of (Info server username password) tr tt with
       | Return _ => k = 6
       | Throw _ => True
       | Exit _ => False
       end.
Proof.
  assert (exists l' k o,
             Info server username password tr tt []
             = (l', firstn k (Info_requests server username password), o)
             /\ 1 <= k <= 6
             /\ (forall a, o = Return a -> k = 6)
             /\ (forall c, o <> Exit c)) as (l' & k & o & E & Hk & Hr & Hx).
  { unfold Info, Info_requests.
    unfold bind at 1. unfold _login at 1. unfold bind at 1, fetch at 1.
    destruct (tr [] (login_request server username password None)) as [e|r].
    - exists tt, 1, (Throw e). simpl.
      repeat split; lia || discriminate.
    - unfold ret at 1.
      assert (sends [GET ("http://" ++ server ++ SWITCH_INFO_PATH);
                     GET ("http://" ++ server ++ PORT_INFO_1_PATH);
                     GET ("http://" ++ server ++ PORT_INFO_2_PATH);
                     GET ("http://" ++ server ++ VLAN_INFO_PATH);
                     logout_request server]
                (result <- call empty_switch (_switchInfo server) ;;
                 @_logout unit server ;; ret result)) as Hs.
      { apply (sends_bind [_; _; _; _] [_]);
          [apply sends_call, sends_switchInfo | intros result].
        apply (sends_bind [_] []);
          [unfold _logout; apply sends_fetch_bind; intros r' | intros _];
          apply sends_quiet; repeat quiet_step. }
      destruct (Hs tr tt
                  ([] ++ [login_request server username password None])%list)
        as (l' & k & o & -> & Hk & Hr & Hx).
      exists l', (S k), o. simpl in Hk. simpl.
      split; [reflexivity |]. split; [lia |]. split; [| assumption].
      intros a Ha. now rewrite (Hr a Ha). }
  exists k. unfold trace_of, result_of, run. rewrite E. simpl.
  split; [assumption |]. split; [reflexivity |].
  destruct o as [a|e|c]; [now apply (Hr a) | exact I | now apply (Hx c)].
Qed.

(* ------------------------------------------------------------------ *)
(** ** What the page routines leave alone *)

Section Keeps.
Context {L : Type} (R : L -> L -> Prop).
Hypothesis R_refl : forall l, R l l.
Hypothesis R_trans : forall a b c, R a b -> R b c -> R a c.

Lemma keeps_ret {A : Type} (a : A) : keeps R (@ret L A a).
Proof. intros tr l h. apply R_refl. Qed.

Lemma keeps_throw {A : Type} (e : exn) : keeps R (@throw L A e).
Proof. intros tr l h. apply R_refl. Qed.

Lemma keeps_get : keeps R (@get L).
Proof. intros tr l h. apply R_refl. Qed.

Lemma keeps_fetch (rq : request) : keeps R (@fetch L rq).
Proof.
  intros tr l h. unfold fetch. destruct (tr h rq); apply R_refl.
Qed.

Lemma keeps_bind {A B : Type} (m : Prog L A) (f : A -> Prog L B) :
  keeps R m -> (forall a, keeps R (f a)) -> keeps R (bind m f).
Proof.
  intros Hm Hf tr l h. unfold bind. specialize (Hm tr l h).
  destruct (m tr l h) as [[l1 h1] [a|e|c]]; simpl in Hm; simpl;
    [| assumption | assumption].
  eapply R_trans; [exact Hm | apply Hf].
Qed.

Lemma keeps_for_loop (body : nat -> Prog L unit) :
  (forall i, keeps R (body i)) ->
  forall count from, keeps R (for_loop count from body).
Proof.
  intros Hbody count; induction count as [|count IH]; intros from; simpl.
  - apply keeps_ret.
  - apply keeps_bind; [apply Hbody | intros _; apply IH].
Qed.

Lemma keeps_for_upto (bound : option Z) (body : nat -> Prog L unit) :
  (forall i, keeps R (body i)) -> keeps R (for_upto bound body).
Proof.
  intros Hbody. destruct bound; simpl;
    [now apply keeps_for_loop | apply keeps_ret].
Qed.

Lemma keeps_update {A : Type} (g : L -> L) (k : Prog L A) :
  (forall l, R l (g l)) -> keeps R k ->
  keeps R (l <- get ;; put (g l) ;; k).
Proof.
  intros Hg Hk tr l h. unfold bind, get, put.
  eapply R_trans; [apply Hg | apply Hk].
Qed.
End Keeps.

Ltac keeps_step :=
  match goal with
  | |- keeps _ (bind _ _) => apply keeps_bind; try assumption
  | |- keeps _ (ret _) => apply keeps_ret; assumption
  | |- keeps _ (throw _) => apply keeps_throw; assumption
  | |- keeps _ get => apply keeps_get; assumption
  | |- keeps _ (fetch _) => apply keeps_fetch; assumption
  | |- keeps _ (for_upto _ _) => apply keeps_for_upto; try assumption
  | |- keeps _ (match ?x with _ => _ end) => destruct x
  | |- forall _, _ => intro
  end.

Lemma keeps_allocate_port (R : Switch -> Switch -> Prop) (i : nat) :
  (forall s, R s s) ->
  (forall s a, ports s = Some a ->
               R s (set_ports s (Some (array_set a i empty_port)))) ->
  keeps R (allocate_port i).
Proof.
  intros Hr H tr l h. unfold allocate_port, bind, get, put, throw.
  destruct (ports l) as [a|] eqn:E; simpl; [now apply H | apply Hr].
Qed.

Lemma keeps_update_port (R : Switch -> Switch -> Prop) (i : nat)
    (f : Port -> Port) :
  (forall s, R s s) ->
  (forall s a p, ports s = Some a -> array_get a i = Some p ->
                 R s (set_ports s (Some (array_set a i (f p))))) ->
  keeps R (update_port i f).
Proof.
  intros Hr H tr l h. unfold update_port, bind, get, put, throw.
  destruct (ports l) as [a|] eqn:E; simpl; [| apply Hr].
  destruct (array_get a i) as [p|] eqn:Ep; simpl; [now apply H | apply Hr].
Qed.

Lemma keeps_allocate_vlan (R : Switch -> Switch -> Prop) (i : nat) :
  (forall s, R s s) ->
  (forall s a, vlans s = Some a ->
               R s (set_vlans s (Some (array_set a i empty_vlan)))) ->
  keeps R (allocate_vlan i).
Proof.
  intros Hr H tr l h. unfold allocate_vlan, bind, get, put, throw.
  destruct (vlans l) as [a|] eqn:E; simpl; [now apply H | apply Hr].
Qed.

Lemma keeps_update_vlan (R : Switch -> Switch -> Prop) (i : nat)
    (f : Vlan -> Vlan) :
  (forall s, R s s) ->
  (forall s a v, vlans s = Some a -> array_get a i = Some v ->
                 R s (set_vlans s (Some (array_set a i (f v))))) ->
  keeps R (update_vlan i f).
Proof.
  intros Hr H tr l h. unfold update_vlan, bind, get, put, throw.
  destruct (vlans l) as [a|] eqn:E; simpl; [| apply Hr].
  destruct (array_get a i) as [p|] eqn:Ep; simpl; [now apply H | apply Hr].
Qed.

Lemma map_array_set_same {A B : Type} (g : A -> B) (a : array A) (i : nat)
    (p q : A) :
  array_get a i = Some p -> g q = g p ->
  map (option_map g) (array_set a i q) = map (option_map g) a.
Proof.
  revert i; induction a as [|x a IH]; intros i Hp Hg.
  - unfold array_get in Hp. now destruct i.
  - destruct i as [|i].
    + unfold array_get in Hp. simpl in Hp. destruct x as [x|]; [| discriminate].
      injection Hp as ->. simpl. now rewrite Hg.
    + simpl. f_equal. apply IH; assumption.
Qed.

Lemma ports_only_refl (s : Switch) : ports_only s s.
Proof. now repeat split. Qed.

Lemma ports_only_trans (a b c : Switch) :
  ports_only a b -> ports_only b c -> ports_only a c.
Proof.
  intros (H1 & H2 & H3 & H4) (K1 & K2 & K3 & K4).
  repeat split; try congruence;
    [intros H; apply K4, H4, H | intros H; apply H4, K4, H].
Qed.

Lemma ports_only_set (s : Switch) (a a' : array Port) :
  ports s = Some a -> ports_only s (set_ports s (Some a')).
Proof. intros E. repeat split; simpl; congruence. Qed.

Lemma statistics_only_refl (s : Switch) : statistics_only s s.
Proof. split; [apply ports_only_refl | reflexivity]. Qed.

Lemma statistics_only_trans (a b c : Switch) :
  statistics_only a b -> statistics_only b c -> statistics_only a c.
Proof.
  intros [H1 H2] [K1 K2].
  split; [now apply (ports_only_trans a b c) | congruence].
Qed.

Lemma vlans_only_refl (s : Switch) : vlans_only s s.
Proof. now repeat split. Qed.

Lemma vlans_only_trans (a b c : Switch) :
  vlans_only a b -> vlans_only b c -> vlans_only a c.
Proof.
  intros (H1 & H2 & H3) (K1 & K2 & K3).
  repeat split; try congruence;
    [intros H; apply K3, H3, H | intros H; apply H3, K3, H].
Qed.

Lemma keeps_ports_portInfo1 (server : string) :
  keeps ports_only (_portInfo1 server).
Proof.
  pose proof ports_only_refl as Hr. pose proof ports_only_trans as Ht.
  unfold _portInfo1, split_of. repeat keeps_step.
  - apply keeps_allocate_port; [assumption |].
    intros sw ar E. now apply (ports_only_set sw ar).
  - apply keeps_update_port; [assumption |].
    intros sw ar pt E _. now apply (ports_only_set sw ar).
Qed.

Lemma keeps_statistics_portInfo2 (server : string) :
  keeps statistics_only (_portInfo2 server).
Proof.
  pose proof statistics_only_refl as Hr.
  pose proof statistics_only_trans as Ht.
  unfold _portInfo2, split_of. repeat keeps_step.
  apply keeps_update_port; [assumption |].
  intros sw ar pt E Ep. split; [now apply (ports_only_set sw ar) |].
  unfold port_settings. simpl. rewrite E. simpl. f_equal.
  now apply (map_array_set_same settings ar _ pt).
Qed.

Lemma keeps_vlans_vlanInfo (server : string) :
  keeps vlans_only (_vlanInfo server).
Proof.
  pose proof vlans_only_refl as Hr. pose proof vlans_only_trans as Ht.
  assert (forall (s : Switch) a a', vlans s = Some a ->
            vlans_only s (set_vlans s (Some a'))) as Hset.
  { intros s a a' E. repeat split; simpl; congruence. }
  unfold _vlanInfo, split_of, stripQuotes_of.
  apply keeps_bind; [assumption | apply keeps_fetch; assumption | intros r].
  cbv zeta. destruct (script_present _); [| now apply keeps_ret].
  apply keeps_update; [assumption | now repeat split |].
  repeat keeps_step.
  - apply keeps_allocate_vlan; [assumption |].
    intros sw ar E. now apply (Hset sw ar).
  - apply keeps_update_vlan; [assumption |].
    intros sw ar vl E _. now apply (Hset sw ar).
Qed.

(** X10.  Each page routine changes only its own part of the switch object,
    however it ends: the port settings page only [ports], the statistics
    page only [ports] and there neither the number, the state nor the speed
    of a port nor the number of entries, the VLAN page only [vlan] and
    [vlans]; none of them defines an array that was undefined. *)
Theorem page_routines_frame (server : string) :
  keeps ports_only (_portInfo1 server)
  /\ keeps statistics_only (_portInfo2 server)
  /\ keeps vlans_only (_vlanInfo server).
Proof.
  split; [apply keeps_ports_portInfo1 |].
  split; [apply keeps_statistics_portInfo2 | apply keeps_vlans_vlanInfo].
Qed.

(* ------------------------------------------------------------------ *)
(** ** The identity part of [_switchInfo] *)

Lemma pages_then_return (server : string) (tr : transport)
    (s0 l' s : Switch) (h0 h' : list request) :
  (_portInfo1 server ;; _portInfo2 server ;; _vlanInfo server ;;
   swtch <- get ;; ret swtch) tr s0 h0 = (l', h', Return s) ->
  identity s = identity s0
  /\ (ports s0 = None <-> ports s = None)
  /\ (vlans s0 = None <-> vlans s = None).
Proof.
  cbv beta iota delta [bind get ret].
  pose proof (keeps_ports_portInfo1 server tr s0 h0) as H1.
  destruct (_portInfo1 server tr s0 h0) as [[l1 h1] [[]|e|c]];
    try discriminate.
  pose proof (keeps_statistics_portInfo2 server tr l1 h1) as H2.
  destruct (_portInfo2 server tr l1 h1) as [[l2 h2] [[]|e|c]];
    try discriminate.
  pose proof (keeps_vlans_vlanInfo server tr l2 h2) as H3.
  destruct (_vlanInfo server tr l2 h2) as [[l3 h3] [[]|e|c]];
    try discriminate.
  intros E. injection E as _ _ <-. simpl in H1, H2, H3.
  destruct H1 as (A1 & A2 & A3 & A4).
  destruct H2 as [(B1 & B2 & B3 & B4) _].
  destruct H3 as (C1 & C2 & C3).
  split; [congruence |]. split.
  - rewrite A4, B4, C2. reflexivity.
  - rewrite <- C3, B3, A3. reflexivity.
Qed.

(** X11.  The switch object [_switchInfo] returns holds the identity of the
    switch all or nothing.  When the identity page holds a script block, all
    seven attributes were found there, each property holds its value with
    one pair of quotes taken off, and [ports] and [vlans] are arrays.  When
    it holds none, all seven properties are undefined and so are [ports]
    and [vlans]: the later pages add no identity and define no array. *)
Theorem switchInfo_identity (server : string) (tr : transport)
    (l s : Switch) :
  result_of (_switchInfo server) tr l = Return s ->
  exists r,
    tr [] (GET ("http://" ++ server ++ SWITCH_INFO_PATH)) = inr r
    /\ match script_present (extractTagContent (text r) "script" 0) with
       | Some scrpt =>
           Forall (fun key => extractAttribute scrpt key <> None)
             ["hardwareStr"; "firmwareStr"; "descriStr"; "macStr"; "ipStr";
              "netmaskStr"; "gatewayStr"]
           /\ identity s
              = map (fun key =>
                       option_map (fun v => Str (stripQuotes v))
                         (extractAttribute scrpt key))
                  ["hardwareStr"; "firmwareStr"; "descriStr"; "macStr";
                   "ipStr"; "netmaskStr"; "gatewayStr"]
           /\ ports s <> None /\ vlans s <> None
       | None =>
           identity s = [None; None; None; None; None; None; None]
           /\ ports s = None /\ vlans s = None
       end.
Proof.
  unfold result_of, run, _switchInfo.
  set (pages := bind (_portInfo1 server) _).
  unfold bind at 1. unfold put at 1. unfold bind at 1. unfold fetch at 1.
  destruct (tr [] (GET ("http://" ++ server ++ SWITCH_INFO_PATH)))
    as [e|r] eqn:Etr; [discriminate |].
  intros H. exists r. split; [reflexivity |].
  cbv zeta in H. unfold bind at 1 in H.
  destruct (script_present (extractTagContent (text r) "script" 0))
    as [scrpt|] eqn:Es.
  - unfold stripQuotes_of in H.
    cbv beta iota delta [bind ret throw put] in H.
    destruct (extractAttribute scrpt "hardwareStr") as [v1|] eqn:A1;
      [| discriminate].
    destruct (extractAttribute scrpt "firmwareStr") as [v2|] eqn:A2;
      [| discriminate].
    destruct (extractAttribute scrpt "descriStr") as [v3|] eqn:A3;
      [| discriminate].
    destruct (extractAttribute scrpt "macStr") as [v4|] eqn:A4; [| discriminate].
    destruct (extractAttribute scrpt "ipStr") as [v5|] eqn:A5; [| discriminate].
    destruct (extractAttribute scrpt "netmaskStr") as [v6|] eqn:A6;
      [| discriminate].
    destruct (extractAttribute scrpt "gatewayStr") as [v7|] eqn:A7;
      [| discriminate].
    match type of H with
    | snd (?m ?t ?s0 ?h0) = _ =>
        destruct (m t s0 h0) as [[l' h'] o] eqn:E
    end.
    simpl in H. subst o. subst pages.
    apply (pages_then_return server) in E as (E1 & E2 & E3).
    split; [repeat (apply Forall_cons; [congruence |]); apply Forall_nil |].
    split; [rewrite E1; unfold identity; simpl;
            now rewrite A1, A2, A3, A4, A5, A6, A7 |].
    split; [intros K; apply E2 in K; discriminate
           | intros K; apply E3 in K; discriminate].
  - unfold ret at 1 in H.
    match type of H with
    | snd (?m ?t ?s0 ?h0) = _ =>
        destruct (m t s0 h0) as [[l' h'] o] eqn:E
    end.
    simpl in H. subst o. subst pages.
    apply (pages_then_return server) in E as (E1 & E2 & E3).
    split; [exact E1 |]. split; [now apply E2 | now apply E3].
Qed.

Lemma switchInfo_identity_witness :
  exists s,
    result_of (_switchInfo "192.168.0.1")
      (logged_in (device identity_page (settings_page "8") statistics_page
                    vlan_page))
      empty_switch = Return s
    /\ exists r,
         logged_in (device identity_page (settings_page "8") statistics_page
                      vlan_page) []
           (GET ("http://" ++ "192.168.0.1" ++ SWITCH_INFO_PATH)) = inr r
         /\ match script_present (extractTagContent (text r) "script" 0) with
            | Some scrpt =>
                Forall (fun key => extractAttribute scrpt key <> None)
                  ["hardwareStr"; "firmwareStr"; "descriStr"; "macStr";
                   "ipStr"; "netmaskStr"; "gatewayStr"]
                /\ identity s
                   = map (fun key =>
                            option_map (fun v => Str (stripQuotes v))
                              (extractAttribute scrpt key))
                       ["hardwareStr"; "firmwareStr"; "descriStr"; "macStr";
                        "ipStr"; "netmaskStr"; "gatewayStr"]
                /\ ports s <> None /\ vlans s <> None
            | None =>
                identity s = [None; None; None; None; None; None; None]
                /\ ports s = None /\ vlans s = None
            end.
Proof.
  eexists. split; [vm_compute; reflexivity |].
  apply (switchInfo_identity "192.168.0.1"
           (logged_in (device identity_page (settings_page "8")
                         statistics_page vlan_page))
           empty_switch).
  vm_compute. reflexivity.
Defined.

(* ------------------------------------------------------------------ *)
(** ** The tables [_portInfo1] and [_vlanInfo] build *)

Lemma array_set_end {A : Type} (a : array A) (x : A) :
  array_set a (List.length a) x = (a ++ [Some x])%list.
Proof. induction a as [|y a IH]; simpl; [reflexivity | now rewrite IH]. Qed.

Lemma array_get_end {A : Type} (a : array A) (x : A) :
  array_get (a ++ [Some x])%list (List.length a) = Some x.
Proof.
  unfold array_get. rewrite nth_error_app2 by lia.
  now rewrite Nat.sub_diag.
Qed.

Lemma array_set_last {A : Type} (a : array A) (x y : A) :
  array_set (a ++ [Some x])%list (List.length a) y = (a ++ [Some y])%list.
Proof. induction a as [|z a IH]; simpl; [reflexivity | now rewrite IH]. Qed.

Lemma set_ports_same (swtch : Switch) (a : array Port) :
  ports swtch = Some a -> set_ports swtch (Some a) = swtch.
Proof. destruct swtch; simpl; intros ->; reflexivity. Qed.

Lemma set_vlans_same (swtch : Switch) (a : array Vlan) :
  vlans swtch = Some a -> set_vlans swtch (Some a) = swtch.
Proof. destruct swtch; simpl; intros ->; reflexivity. Qed.





Lemma vlan_loop (names vids tag untag : list string) (tr : transport) :
  forall (count from : nat) (swtch : Switch) (h : list request)
         (done : array Vlan),
    vlans swtch = Some done -> List.length done = from ->
    from + count <= List.length names ->
    for_loop count from
      (fun vlanIndex =>
         allocate_vlan vlanIndex ;;
         vname <- stripQuotes_of (nth_error names vlanIndex) ;;
         update_vlan vlanIndex (fun _ =>
           MkVlan
             (Some vname)
             (Some (of_number (parseInt_opt (nth_error vids vlanIndex) None)))
             (Some (decode_members (nth_error tag vlanIndex)))
             (Some (decode_members (nth_error untag vlanIndex)))))
      tr swtch h
    = (set_vlans swtch
         (Some (done
                ++ map (fun i =>
                          Some (MkVlan
                                  (Some (Str (stripQuotes (nth i names ""))))
                                  (Some (of_number
                                           (parseInt_opt (nth_error vids i)
                                              None)))
                                  (Some (decode_members (nth_error tag i)))
                                  (Some (decode_members (nth_error untag i)))))
                    (seq from count))%list),
       h, Return tt).
Proof.
  intros count; induction count as [|count IH];
    intros from swtch h done E Hlen Hle.
  - simpl. rewrite app_nil_r. now rewrite set_vlans_same.
  - cbn [for_loop]. unfold bind at 1. unfold bind at 1.
    unfold allocate_vlan at 1. unfold bind at 1, get at 1. rewrite E.
    unfold put at 1. unfold bind at 1.
    destruct (nth_error names from) as [nm|] eqn:En;
      [| apply nth_error_None in En; lia].
    unfold stripQuotes_of at 1, ret at 1.
    unfold update_vlan at 1. unfold bind at 1, get at 1.
    cbn [vlans set_vlans]. subst from.
    rewrite array_set_end, array_get_end. unfold put at 1.
    rewrite array_set_last.
    erewrite (IH (S (List.length done)));
      [| reflexivity | rewrite length_app; simpl; lia | lia].
    cbn [seq map]. rewrite <- app_assoc.
    rewrite (nth_error_nth _ _ "" En). reflexivity.
Qed.

Lemma vlan_loop_throws (names vids tag untag : list string) (tr : transport) :
  forall (count from : nat) (swtch : Switch) (h : list request)
         (done : array Vlan),
    vlans swtch = Some done -> List.length done = from ->
    from <= List.length names -> List.length names < from + count ->
    snd (for_loop count from
           (fun vlanIndex =>
              allocate_vlan vlanIndex ;;
              vname <- stripQuotes_of (nth_error names vlanIndex) ;;
              update_vlan vlanIndex (fun _ =>
                MkVlan
                  (Some vname)
                  (Some (of_number
                           (parseInt_opt (nth_error vids vlanIndex) None)))
                  (Some (decode_members (nth_error tag vlanIndex)))
                  (Some (decode_members (nth_error untag vlanIndex)))))
           tr swtch h)
    = Throw TypeError.
Proof.
  intros count; induction count as [|count IH];
    intros from swtch h done E Hlen Hle Hlt; [lia |].
  cbn [for_loop]. unfold bind at 1. unfold bind at 1.
  unfold allocate_vlan at 1. unfold bind at 1, get at 1. rewrite E.
  unfold put at 1. unfold bind at 1.
  destruct (nth_error names from) as [nm|] eqn:En; [| reflexivity].
  assert (from < List.length names) as Hin
    by (apply nth_error_Some; congruence).
  unfold stripQuotes_of at 1, ret at 1.
  unfold update_vlan at 1. unfold bind at 1, get at 1.
  cbn [vlans set_vlans]. subst from.
  rewrite array_set_end, array_get_end. unfold put at 1.
  rewrite array_set_last.
  eapply (IH (S (List.length done)));
    [reflexivity | rewrite length_app; simpl; lia | lia | lia].
Qed.

(** X13.  From a VLAN page whose script holds [count], [vids], [names],
    [tagMbrs] and [untagMbrs], [_vlanInfo] sets [vlan] to the state name of
    [state] and fills the empty [vlans] array with [count] objects without
    a hole: the object at index i has the i-th name without its quotes, the
    i-th id and the decoded i-th membership masks.  The names bound the
    count: a [count] above the number of names throws a TypeError, while
    missing ids or masks give NaN and empty member lists. *)
Theorem vlanInfo_fills_vlans (server : string) (tr : transport)
    (swtch : Switch) (h : list request) (r : response)
    (scrpt vi na tg un : string) (n : Z) :
  tr h (GET ("http://" ++ server ++ VLAN_INFO_PATH)) = inr r ->
  script_present (extractTagContent (text r) "script" 0) = Some scrpt ->
  extractAttribute scrpt "vids" = Some vi ->
  extractAttribute scrpt "names" = Some na ->
  extractAttribute scrpt "tagMbrs" = Some tg ->
  extractAttribute scrpt "untagMbrs" = Some un ->
  parseInt_opt (extractAttribute scrpt "count") None = Some n ->
  vlans swtch = Some [] ->
  (Z.to_nat n <= List.length (split "," na) ->
   _vlanInfo server tr swtch h
   = (set_vlans
        (set_vlan swtch
           (at_number STATES
              (parseInt_opt (extractAttribute scrpt "state") None)))
        (Some (map (fun i =>
                      Some (MkVlan
                              (Some (Str (stripQuotes
                                            (nth i (split "," na) ""))))
                              (Some (of_number
                                       (parseInt_opt
                                          (nth_error (split "," vi) i) None)))
                              (Some (decode_members
                                       (nth_error (split "," tg) i)))
                              (Some (decode_members
                                       (nth_error (split "," un) i)))))
                 (seq 0 (Z.to_nat n)))),
      (h ++ [GET ("http://" ++ server ++ VLAN_INFO_PATH)])%list,
      Return tt))
  /\ (List.length (split "," na) < Z.to_nat n ->
      snd (_vlanInfo server tr swtch h) = Throw TypeError).
Proof.
  intros Htr Hs Hvi Hna Htg Hun Hn E.
  eassert (_vlanInfo server tr swtch h = _) as Hrun.
  { unfold _vlanInfo. unfold bind at 1, fetch at 1. rewrite Htr.
    cbv zeta. rewrite Hs, Hvi, Hna, Htg, Hun, Hn. unfold split_of.
    unfold bind at 1, get at 1. unfold bind at 1, put at 1.
    do 4 (unfold bind at 1, ret at 1).
    unfold for_upto. reflexivity. }
  rewrite Hrun. split.
  - intros Hle.
    rewrite (vlan_loop (split "," na) (split "," vi) (split "," tg)
               (split "," un) tr (Z.to_nat n) 0 _ _ []);
      [reflexivity | exact E | reflexivity | simpl; lia].
  - intros Hlt.
    apply (vlan_loop_throws (split "," na) (split "," vi) (split "," tg)
             (split "," un) tr (Z.to_nat n) 0 _ _ []);
      [exact E | reflexivity | lia | simpl; lia].
Qed.

Lemma vlanInfo_fills_vlans_witness :
  option_map (map (option_map vlan_name))
    (vlans (fst (fst (_vlanInfo "192.168.0.1"
                        (fun _ _ => inr (Response 200 vlan_page))
                        (set_vlans empty_switch (Some [])) []))))
  = Some [Some (Some (Str "Default")); Some (Some (Str "alpha"))].
Proof.
  edestruct (vlanInfo_fills_vlans "192.168.0.1"
               (fun _ _ => inr (Response 200 vlan_page))
               (set_vlans empty_switch (Some [])) []
               (Response 200 vlan_page)) as [H _];
    [reflexivity | vm_compute; reflexivity | vm_compute; reflexivity
    | vm_compute; reflexivity | vm_compute; reflexivity
    | vm_compute; reflexivity | vm_compute; reflexivity | reflexivity |].
  rewrite H by (vm_compute; lia). reflexivity.
Defined.

(* ------------------------------------------------------------------ *)
(** ** The statistics [_portInfo2] adds *)

Lemma array_get_set {A : Type} (a : array A) (i j : nat) (x : A) :
  i < List.length a ->
  array_get (array_set a i x) j
  = if Nat.eqb i j then Some x else array_get a j.
Proof.
  unfold array_get. revert i j; induction a as [|y a IH]; intros i j Hi;
    simpl in Hi; [lia |].
  destruct i as [|i], j as [|j]; simpl; try reflexivity.
  apply IH. lia.
Qed.

Lemma update_loop (f : nat -> Port -> Port) (tr : transport) :
  forall (count from : nat) (swtch : Switch) (h : list request)
         (a : array Port),
    ports swtch = Some a ->
    (forall i, from <= i < from + count -> array_get a i <> None) ->
    exists a',
      for_loop count from (fun i => update_port i (f i)) tr swtch h
      = (set_ports swtch (Some a'), h, Return tt)
      /\ List.length a' = List.length a
      /\ forall i p, array_get a i = Some p ->
           array_get a' i
           = Some (if (from <=? i) && (i <? from + count) then f i p else p).
Proof.
  intros count; induction count as [|count IH];
    intros from swtch h a E Hall.
  - exists a. simpl. rewrite set_ports_same by assumption.
    split; [reflexivity |]. split; [reflexivity |].
    intros i p Hp. rewrite Hp. f_equal.
    replace (i <? from + 0) with (i <? from) by (f_equal; lia).
    destruct (from <=? i) eqn:E1; [| reflexivity].
    destruct (i <? from) eqn:E2; [| reflexivity].
    apply Nat.leb_le in E1. apply Nat.ltb_lt in E2. lia.
  - cbn [for_loop]. unfold bind at 1. unfold update_port at 1.
    unfold bind at 1, get at 1. rewrite E.
    destruct (array_get a from) as [p0|] eqn:E0;
      [| now destruct (Hall from ltac:(lia))].
    unfold put at 1.
    pose proof (array_get_some _ _ _ E0) as Hlt.
    destruct (IH (S from)
                (set_ports swtch (Some (array_set a from (f from p0)))) h
                (array_set a from (f from p0)) eq_refl) as (a' & Hrun & Hlen & Hget).
    { intros i Hi. rewrite array_get_set by assumption.
      destruct (Nat.eqb from i); [discriminate | apply Hall; lia]. }
    exists a'. rewrite Hrun. split; [reflexivity |].
    split; [now rewrite Hlen, array_set_length |].
    intros i p Hp.
    destruct (Nat.eqb from i) eqn:Ei.
    + apply Nat.eqb_eq in Ei. subst i.
      rewrite (Hget from (f from p0));
        [| rewrite array_get_set by assumption; now rewrite Nat.eqb_refl].
      replace (S from <=? from) with false
        by (symmetry; apply Nat.leb_gt; lia).
      replace (from <=? from) with true by (symmetry; apply Nat.leb_le; lia).
      replace (from <? from + S count) with true
        by (symmetry; apply Nat.ltb_lt; lia).
      simpl. congruence.
    + apply Nat.eqb_neq in Ei.
      rewrite (Hget i p);
        [| rewrite array_get_set by assumption;
           apply Nat.eqb_neq in Ei; now rewrite Ei].
      f_equal.
      replace (i <? S from + count) with (i <? from + S count)
        by (f_equal; lia).
      destruct (i <? from + S count); [| now rewrite !andb_false_r].
      rewrite !andb_true_r.
      destruct (from <=? i) eqn:E1, (S from <=? i) eqn:E2; try reflexivity.
      * apply Nat.leb_le in E1. apply Nat.leb_gt in E2. lia.
      * apply Nat.leb_gt in E1. apply Nat.leb_le in E2. lia.
Qed.

(** X14.  From a statistics page whose script holds [max_port_num], [pkts]
    and a [link_status] without any letter (so that none of its entries
    names a property that the table inherits as an array, such as
    [length]), and on a [ports] array whose first [max_port_num] entries are
    port objects, [_portInfo2] returns and keeps the length of the array; to
    each of these port objects it adds the link name of the i-th entry of
    [link_status] and the four counters read from the entries 4i..4i+3 of
    [pkts], keeping number, state and speed; port objects past
    [max_port_num] are left as they were. *)
Theorem portInfo2_adds_statistics (server : string) (tr : transport)
    (swtch : Switch) (h : list request) (r : response)
    (scrpt li pk : string) (n : Z) (a : array Port) :
  tr h (GET ("http://" ++ server ++ PORT_INFO_2_PATH)) = inr r ->
  script_present (extractTagContent (text r) "script" 0) = Some scrpt ->
  extractAttribute scrpt "link_status" = Some li ->
  all_chars no_letter li = true ->
  extractAttribute scrpt "pkts" = Some pk ->
  parseInt_opt (extractVariable scrpt "max_port_num") None = Some n ->
  ports swtch = Some a ->
  (forall i, i < Z.to_nat n -> array_get a i <> None) ->
  exists a',
    _portInfo2 server tr swtch h
    = (set_ports swtch (Some a'),
       (h ++ [GET ("http://" ++ server ++ PORT_INFO_2_PATH)])%list,
       Return tt)
    /\ List.length a' = List.length a
    /\ forall i p, array_get a i = Some p ->
         array_get a' i
         = Some (if i <? Z.to_nat n
                 then MkPort (number p) (state p) (speed p)
                        (Some (at_key SPEEDS (nth_error (split "," li) i)))
                        (Some (of_number
                                 (parseInt_opt
                                    (nth_error (split "," pk) (4 * i + 0))
                                    None)))
                        (Some (of_number
                                 (parseInt_opt
                                    (nth_error (split "," pk) (4 * i + 1))
                                    None)))
                        (Some (of_number
                                 (parseInt_opt
                                    (nth_error (split "," pk) (4 * i + 2))
                                    None)))
                        (Some (of_number
                                 (parseInt_opt
                                    (nth_error (split "," pk) (4 * i + 3))
                                    None)))
                 else p).
Proof.
  intros Htr Hs Hli _ Hpk Hn E Hall.
  eassert (_portInfo2 server tr swtch h = _) as Hrun.
  { unfold _portInfo2. unfold bind at 1, fetch at 1. rewrite Htr.
    cbv zeta. rewrite Hs, Hli, Hpk, Hn. unfold split_of.
    unfold bind at 1, ret at 1. unfold bind at 1, ret at 1.
    unfold for_upto. reflexivity. }
  rewrite Hrun.
  destruct (update_loop
               (fun portIndex port =>
                  MkPort (number port) (state port) (speed port)
                    (Some (at_key SPEEDS (nth_error (split "," li) portIndex)))
                    (Some (of_number (parseInt_opt
                       (nth_error (split "," pk) (4 * portIndex + 0)) None)))
                    (Some (of_number (parseInt_opt
                       (nth_error (split "," pk) (4 * portIndex + 1)) None)))
                    (Some (of_number (parseInt_opt
                       (nth_error (split "," pk) (4 * portIndex + 2)) None)))
                    (Some (of_number (parseInt_opt
                       (nth_error (split "," pk) (4 * portIndex + 3)) None))))
               tr (Z.to_nat n) 0 swtch
               (h ++ [GET ("http://" ++ server ++ PORT_INFO_2_PATH)])%list
               a E) as (a' & Hloop & Hlen & Hget).
  { intros i Hi. apply Hall. lia. }
  exists a'. split; [exact Hloop |]. split; [exact Hlen |].
  intros i p Hp. rewrite (Hget i p Hp). reflexivity.
Qed.

Lemma portInfo2_adds_statistics_witness :
  exists a',
    _portInfo2 "192.168.0.1"
      (fun _ _ => inr (Response 200 statistics_page))
      (set_ports empty_switch (Some (repeat (Some empty_port) 8))) []
    = (set_ports empty_switch (Some a'),
       [GET ("http://" ++ "192.168.0.1" ++ PORT_INFO_2_PATH)], Return tt)
    /\ List.length a' = 8
    /\ option_map TxGoodPkt (array_get a' 0) = Some (Some (Num 786)).
Proof.
  edestruct (portInfo2_adds_statistics "192.168.0.1"
               (fun _ _ => inr (Response 200 statistics_page))
               (set_ports empty_switch (Some (repeat (Some empty_port) 8)))
               [] (Response 200 statistics_page))
    as (a' & Hrun & Hlen & Hget);
    [reflexivity | vm_compute; reflexivity | vm_compute; reflexivity
    | vm_compute; reflexivity | vm_compute; reflexivity
    | vm_compute; reflexivity | reflexivity | |].
  { intros i Hi. change (Z.to_nat 8) with 8 in Hi.
    do 8 (destruct i as [|i]; [discriminate |]). lia. }
  exists a'. split; [exact Hrun |]. split; [exact Hlen |].
  rewrite (Hget 0 empty_port eq_refl). vm_compute. reflexivity.
Defined.

(* ------------------------------------------------------------------ *)
(** ** Lists with blanks, the speed tables and the order of members *)

Lemma number_text_digits (z : Z) :
  (0 <= z)%Z ->
  number_to_string z <> "" /\ all_chars is_digit (number_to_string z) = true.
Proof.
  intros Hz. unfold number_to_string.
  destruct z as [|p|p]; [split; [discriminate | reflexivity] | | lia].
  cbn [Z.to_int NilZero.string_of_int].
  pose proof (DecimalPos.Unsigned.to_uint_nonnil p) as Hnn.
  rewrite (NilZero_of_nonnil _ Hnn).
  split; [now apply string_of_uint_nonempty | apply digits_of_uint].
Qed.

Lemma at_key_digits (table : list string) (k : string) :
  at_key table (Some k) <> Undefined ->
  k <> "" /\ all_chars is_digit k = true.
Proof.
  unfold at_key. destruct (parseInt k (Some 10)) as [z|]; [| congruence].
  destruct (0 <=? z)%Z eqn:Ez; [| simpl; congruence].
  destruct (String.eqb (number_to_string z) k) eqn:Ek; [| simpl; congruence].
  intros _. apply String.eqb_eq in Ek. subst k.
  apply number_text_digits. now apply Z.leb_le.
Qed.

Lemma split_entry (e t : string) :
  all_chars (not_char ",") e = true ->
  split "," (e ++ String "," t) = e :: split "," t.
Proof.
  induction e as [|c e IH]; intros He; simpl.
  - reflexivity.
  - simpl in He. apply andb_true_iff in He as [Hc He].
    unfold not_char in Hc. apply negb_true_iff in Hc. rewrite Hc.
    now rewrite (IH He).
Qed.

Lemma split_single (e : string) :
  all_chars (not_char ",") e = true -> split "," e = [e].
Proof.
  induction e as [|c e IH]; intros He; simpl; [reflexivity |].
  simpl in He. apply andb_true_iff in He as [Hc He].
  unfold not_char in Hc. apply negb_true_iff in Hc. rewrite Hc.
  now rewrite (IH He).
Qed.

Lemma split_comma_blank (e : string) (es : list string) :
  Forall (fun x => all_chars (not_char ",") x = true) (e :: es) ->
  split "," (comma_blank (e :: es)) = e :: map (String " ") es.
Proof.
  revert e; induction es as [|e' es IH]; intros e H.
  - simpl. apply split_single. now inversion H.
  - change (comma_blank (e :: e' :: es))
      with (e ++ String "," (String " " (comma_blank (e' :: es)))).
    inversion H as [|x l He Hes]; subst.
    rewrite split_entry by assumption.
    assert (split "," (String " " (comma_blank (e' :: es)))
            = String " " e' :: map (String " ") es) as ->; [| reflexivity].
    specialize (IH e' Hes). cbn [split]. now rewrite IH.
Qed.

(** X15.  A list written with a blank after each comma, as the page formats
    in the comments of the source show it, is split at the commas only: each
    entry after the first keeps its leading blank.  [SPEEDS[...]] answers
    canonical index texts only, so that the speed and the link of every port
    after the first are undefined, and [stripQuotes] does not trim, so that
    the name of every VLAN after the first keeps its blank and its
    quotes. *)
Theorem blank_after_comma (entries : list string) (i : nat) :
  Forall (fun x => all_chars (not_char ",") x = true) entries ->
  1 <= i ->
  at_key SPEEDS (nth_error (split "," (comma_blank entries)) i) = Undefined
  /\ forall e, nth_error entries i = Some e ->
       nth_error (split "," (comma_blank entries)) i = Some (String " " e)
       /\ stripQuotes (String " " e) = String " " e.
Proof.
  intros H Hi. destruct i as [|i]; [lia |].
  destruct entries as [|e0 es].
  - split; [now destruct i | now destruct i].
  - rewrite split_comma_blank by assumption. cbn [nth_error].
    rewrite nth_error_map. split.
    + destruct (nth_error es i) as [e|]; [| reflexivity].
      cbn [option_map].
      destruct (at_key SPEEDS (Some (String " " e))) eqn:E; try reflexivity;
        exfalso;
        (assert (at_key SPEEDS (Some (String " " e)) <> Undefined) as Hne
           by (rewrite E; discriminate));
        apply at_key_digits in Hne as [_ Hd]; discriminate Hd.
    + intros e He. rewrite He. split; reflexivity.
Qed.

Lemma blank_after_comma_witness :
  at_key SPEEDS
    (nth_error (split "," (comma_blank ["6"; "0"; "0"; "5"])) 3) = Undefined
  /\ at_key SPEEDS
       (nth_error (split "," (comma_blank ["6"; "0"; "0"; "5"])) 0)
     = Str "1000MF".
Proof.
  split; [| reflexivity].
  apply (blank_after_comma ["6"; "0"; "0"; "5"] 3);
    [repeat constructor | lia].
Defined.

(** X16.  The two speed tables are inverse to each other: the name at index
    i of [SPEEDS] is the key of the value i in [SPEED2VALUE], and a name
    that [SPEED2VALUE] maps to a number stands at that index of [SPEEDS]. *)
Theorem speed_tables_inverse :
  (forall i name, nth_error SPEEDS i = Some name ->
                  SPEED2VALUE name = Num (Z.of_nat i))
  /\ (forall name z, SPEED2VALUE name = Num z ->
                     at_number SPEEDS (Some z) = Str name).
Proof.
  split.
  - intros i name H.
    do 8 (destruct i as [|i]; [injection H as <-; reflexivity |]).
    now destruct i.
  - intros name z. unfold SPEED2VALUE.
    destruct (assoc name SPEED2VALUE_own) as [v|] eqn:E;
      [| now destruct (assoc name Object_prototype)].
    intros H. injection H as ->. revert E. unfold SPEED2VALUE_own.
    cbn [assoc].
    repeat match goal with
           | |- (if String.eqb name ?k then _ else _) = _ -> _ =>
               let Ek := fresh "Ek" in
               destruct (String.eqb name k) eqn:Ek;
               [apply String.eqb_eq in Ek; subst name;
                intros H; injection H as <-; reflexivity |]
           end.
    discriminate.
Qed.

Lemma speed_tables_inverse_witness :
  SPEED2VALUE "100MF" = Num 5 /\ at_number SPEEDS (Some 5%Z) = Str "100MF".
Proof.
  destruct speed_tables_inverse as [H1 H2].
  pose proof (H1 5 "100MF" eq_refl) as H. split; [exact H |].
  exact (H2 "100MF" 5%Z H).
Defined.

Lemma sorted_seq (from count : nat) : StronglySorted lt (seq from count).
Proof.
  revert from; induction count as [|count IH]; intros from; simpl;
    constructor; [apply IH |].
  apply Forall_forall. intros x Hx. apply in_seq in Hx. lia.
Qed.

Lemma sorted_map_filter (f : nat -> bool) (l : list nat) :
  StronglySorted lt l ->
  StronglySorted Z.lt (map (fun i => (Z.of_nat i + 1)%Z) (filter f l)).
Proof.
  induction 1 as [|a l Hs IH Ha]; simpl; [constructor |].
  destruct (f a); [| exact IH]. simpl. constructor; [exact IH |].
  apply Forall_forall. intros x Hx. apply in_map_iff in Hx as (i & <- & Hi).
  apply filter_In in Hi as [Hi _]. rewrite Forall_forall in Ha.
  specialize (Ha i Hi). lia.
Qed.

(** X17.  The members [_vlanInfo] decodes from a mask entry come in
    strictly ascending order, whatever the entry holds, so that no port is
    listed twice; there are at most 16 of them. *)
Theorem decode_members_ascending (entry : option string) :
  StronglySorted Z.lt (decode_members entry)
  /\ NoDup (decode_members entry)
  /\ List.length (decode_members entry) <= 16.
Proof.
  unfold decode_members. rewrite members_of_filter.
  pose proof (sorted_map_filter (isBitSet (parseInt_opt entry (Some 16)))
                (seq 0 16) (sorted_seq 0 16)) as Hs.
  split; [exact Hs |]. split.
  - revert Hs. generalize (map (fun i => (Z.of_nat i + 1)%Z)
                             (filter (isBitSet (parseInt_opt entry (Some 16)))
                                (seq 0 16))).
    induction 1 as [|a l Hs IH Ha]; constructor; [| exact IH].
    intros Hin. rewrite Forall_forall in Ha. specialize (Ha a Hin). lia.
  - rewrite length_map.
    pose proof (filter_length_le (isBitSet (parseInt_opt entry (Some 16)))
                  (seq 0 16)) as Hl.
    rewrite length_seq in Hl. exact Hl.
Qed.

(* ------------------------------------------------------------------ *)
(** ** The earlier script against the later one *)

Lemma sim_ret {A : Type} (a : A) : simulates (ret a) (ret a).
Proof. intros tr l l' h H. now exists l, l', h, (Return a), (Return a). Qed.

Lemma sim_throw {A : Type} (e e' : exn) :
  simulates (@throw Switch A e) (throw e').
Proof. intros tr l l' h H. now exists l, l', h, (Throw e), (Throw e'). Qed.

Lemma sim_fetch (rq : request) : simulates (fetch rq) (fetch rq).
Proof.
  intros tr l l' h H. unfold fetch. destruct (tr h rq) as [e|r].
  - now exists l, l', (h ++ [rq])%list, (Throw e), (Throw e).
  - now exists l, l', (h ++ [rq])%list, (Return r), (Return r).
Qed.

Lemma sim_bind {A B : Type} (m m' : Prog Switch A)
    (f f' : A -> Prog Switch B) :
  simulates m m' -> (forall a, simulates (f a) (f' a)) ->
  simulates (bind m f) (bind m' f').
Proof.
  intros Hm Hf tr l l' h H. unfold bind.
  destruct (Hm tr l l' h H) as (s & s' & t & o & o' & -> & -> & Ha & He).
  destruct o as [a|e|c], o' as [a'|e'|c']; simpl in He; try contradiction.
  - subst a'. now apply Hf.
  - now exists s, s', t, (Throw e), (Throw e').
  - now exists s, s', t, (Exit c), (Throw e').
Qed.

Lemma sim_guarded {A : Type} (m m' : Prog Switch A) :
  simulates m m' -> simulates (Legacy.guarded m) m'.
Proof.
  intros Hm tr l l' h H. unfold Legacy.guarded, try_catch.
  destruct (Hm tr l l' h H) as (s & s' & t & o & o' & -> & -> & Ha & He).
  destruct o as [a|e|c], o' as [a'|e'|c']; simpl in He; try contradiction.
  - now exists s, s', t, (Return a), (Return a').
  - now exists s, s', t, (Exit 1%Z), (Throw e').
  - now exists s, s', t, (Exit c), (Throw e').
Qed.

Lemma sim_for_loop (body body' : nat -> Prog Switch unit) :
  (forall i, simulates (body i) (body' i)) ->
  forall count from,
    simulates (for_loop count from body) (for_loop count from body').
Proof.
  intros Hb count; induction count as [|count IH]; intros from; simpl.
  - apply sim_ret.
  - apply sim_bind; [apply Hb | intros _; apply IH].
Qed.

Lemma sim_for_upto (bound : option Z) (body body' : nat -> Prog Switch unit) :
  (forall i, simulates (body i) (body' i)) ->
  simulates (for_upto bound body) (for_upto bound body').
Proof.
  intros Hb. destruct bound; simpl; [now apply sim_for_loop | apply sim_ret].
Qed.

Lemma sim_split_of (x : option string) : simulates (split_of x) (split_of x).
Proof. destruct x; [apply sim_ret | apply sim_throw]. Qed.

Lemma sim_stripQuotes_of (x : option string) :
  simulates (stripQuotes_of x) (stripQuotes_of x).
Proof. destruct x; [apply sim_ret | apply sim_throw]. Qed.

Lemma agrees_array_set (a a' : array Port) (i : nat) (x x' : Port) :
  Forall2 entry_agrees a a' -> port_agrees x x' ->
  Forall2 entry_agrees (array_set a i x) (array_set a' i x').
Proof.
  intros Ha Hx. revert a a' Ha; induction i as [|i IH]; intros a a' Ha.
  - destruct Ha; simpl; constructor; auto; constructor.
  - destruct Ha as [|y y' a a' Hy Ha]; simpl; constructor.
    + exact I.
    + apply IH. constructor.
    + assumption.
    + now apply IH.
Qed.

Lemma agrees_array_get (a a' : array Port) (i : nat) :
  Forall2 entry_agrees a a' ->
  entry_agrees (array_get a i) (array_get a' i).
Proof.
  intros Ha. revert i; induction Ha as [|x x' a a' Hx Ha IH]; intros i.
  - now destruct i.
  - destruct i as [|i]; [| apply IH].
    unfold array_get. simpl. destruct x, x'; simpl in Hx; auto.
Qed.

Lemma sim_allocate_port (i : nat) :
  simulates (allocate_port i) (allocate_port i).
Proof.
  intros tr l l' h (Hi & Hp & Hv). unfold allocate_port, bind, get, put, throw.
  destruct (ports l) as [a|] eqn:E, (ports l') as [a'|] eqn:E';
    try contradiction.
  - exists (set_ports l (Some (array_set a i empty_port))),
      (set_ports l' (Some (array_set a' i empty_port))), h,
      (Return tt), (Return tt).
    repeat split; try assumption.
    simpl. apply agrees_array_set; [assumption | now repeat split].
  - exists l, l', h, (Throw TypeError), (Throw TypeError).
    repeat split; try assumption. now rewrite E, E'.
Qed.

Lemma sim_update_port (i : nat) (f f' : Port -> Port) :
  (forall p p', port_agrees p p' -> port_agrees (f p) (f' p')) ->
  simulates (update_port i f) (update_port i f').
Proof.
  intros Hf tr l l' h (Hi & Hp & Hv). unfold update_port, bind, get, put, throw.
  destruct (ports l) as [a|] eqn:E, (ports l') as [a'|] eqn:E';
    try contradiction.
  - pose proof (agrees_array_get a a' i Hp) as Hg.
    destruct (array_get a i) as [p|], (array_get a' i) as [p'|];
      simpl in Hg; try contradiction.
    + exists (set_ports l (Some (array_set a i (f p)))),
        (set_ports l' (Some (array_set a' i (f' p')))), h,
        (Return tt), (Return tt).
      repeat split; try assumption.
      simpl. apply agrees_array_set; [assumption | now apply Hf].
    + exists l, l', h, (Throw TypeError), (Throw TypeError).
      repeat split; try assumption. now rewrite E, E'.
  - exists l, l', h, (Throw TypeError), (Throw TypeError).
    repeat split; try assumption. now rewrite E, E'.
Qed.

Lemma sim_allocate_vlan (i : nat) :
  simulates (allocate_vlan i) (allocate_vlan i).
Proof.
  intros tr l l' h (Hi & Hp & Hv). unfold allocate_vlan, bind, get, put, throw.
  rewrite <- Hv. destruct (vlans l) as [a|] eqn:E.
  - exists (set_vlans l (Some (array_set a i empty_vlan))),
      (set_vlans l' (Some (array_set a i empty_vlan))), h,
      (Return tt), (Return tt).
    now repeat split.
  - exists l, l', h, (Throw TypeError), (Throw TypeError).
    repeat split; try assumption. congruence.
Qed.

Lemma sim_update_vlan (i : nat) (f : Vlan -> Vlan) :
  simulates (update_vlan i f) (update_vlan i f).
Proof.
  intros tr l l' h (Hi & Hp & Hv). unfold update_vlan, bind, get, put, throw.
  rewrite <- Hv. destruct (vlans l) as [a|] eqn:E.
  - destruct (array_get a i) as [v|].
    + exists (set_vlans l (Some (array_set a i (f v)))),
        (set_vlans l' (Some (array_set a i (f v)))), h,
        (Return tt), (Return tt).
      now repeat split.
    + exists l, l', h, (Throw TypeError), (Throw TypeError).
      repeat split; try assumption. congruence.
  - exists l, l', h, (Throw TypeError), (Throw TypeError).
    repeat split; try assumption. congruence.
Qed.

Lemma sim_update {A : Type} (g g' : Switch -> Switch) (k k' : Prog Switch A) :
  (forall l l', agrees l l' -> agrees (g l) (g' l')) ->
  simulates k k' ->
  simulates (l <- get ;; put (g l) ;; k) (l <- get ;; put (g' l) ;; k').
Proof.
  intros Hg Hk tr l l' h H. unfold bind, get, put. apply Hk. now apply Hg.
Qed.

Lemma sim_portInfo1 :
  simulates Legacy.portInfo1 (_portInfo1 "192.168.178.101").
Proof.
  unfold Legacy.portInfo1, _portInfo1. apply sim_guarded.
  apply sim_bind; [apply sim_fetch | intros r]. cbv zeta.
  destruct (script_present _); [| apply sim_ret].
  apply sim_bind; [apply sim_split_of | intros states].
  apply sim_bind; [apply sim_split_of | intros speeds].
  apply sim_for_upto. intros i.
  apply sim_bind; [apply sim_allocate_port | intros _].
  apply sim_update_port.
  intros p p' (H1 & H2 & H3 & H4 & H5 & H6). now repeat split.
Qed.

Lemma sim_portInfo2 :
  simulates Legacy.portInfo2 (_portInfo2 "192.168.178.101").
Proof.
  unfold Legacy.portInfo2, _portInfo2. apply sim_guarded.
  apply sim_bind; [apply sim_fetch | intros r]. cbv zeta.
  destruct (script_present _); [| apply sim_ret].
  apply sim_bind; [apply sim_split_of | intros links].
  apply sim_bind; [apply sim_split_of | intros pkts].
  apply sim_for_upto. intros i.
  apply sim_update_port.
  intros p p' (H1 & H2 & H3 & H4 & H5 & H6). now repeat split.
Qed.

Lemma sim_vlanInfo :
  simulates Legacy.vlanInfo1 (_vlanInfo "192.168.178.101").
Proof.
  unfold Legacy.vlanInfo1, _vlanInfo. apply sim_guarded.
  apply sim_bind; [apply sim_fetch | intros r]. cbv zeta.
  destruct (script_present _); [| apply sim_ret].
  apply (sim_update (fun l => set_vlan l _) (fun l => set_vlan l _)).
  { intros l l' (Hi & Hp & Hv). now repeat split. }
  apply sim_bind; [apply sim_split_of | intros vids].
  apply sim_bind; [apply sim_split_of | intros names].
  apply sim_bind; [apply sim_split_of | intros tag].
  apply sim_bind; [apply sim_split_of | intros untag].
  apply sim_for_upto. intros i.
  apply sim_bind; [apply sim_allocate_vlan | intros _].
  apply sim_bind; [apply sim_stripQuotes_of | intros vname].
  apply sim_update_vlan.
Qed.

Lemma bind_assoc {L A B C : Type} (m : Prog L A) (f : A -> Prog L B)
    (g : B -> Prog L C) (tr : transport) (l : L) (h : list request) :
  bind (bind m f) g tr l h = bind m (fun a => bind (f a) g) tr l h.
Proof. unfold bind. now destruct (m tr l h) as [[l1 h1] [a|e|c]]. Qed.

Lemma bind_cong {L A B : Type} (m : Prog L A) (f g : A -> Prog L B) :
  (forall a tr l h, f a tr l h = g a tr l h) ->
  forall tr l h, bind m f tr l h = bind m g tr l h.
Proof.
  intros H tr l h. unfold bind.
  destruct (m tr l h) as [[l1 h1] [a|e|c]]; [apply H | reflexivity ..].
Qed.

Lemma switchInfo_pages (server : string) (tr : transport) (l : Switch)
    (h : list request) :
  _switchInfo server tr l h
  = (put empty_switch ;; pages_of server ;; swtch <- get ;; ret swtch) tr l h.
Proof.
  unfold _switchInfo, pages_of. revert tr l h.
  apply bind_cong. intros _ tr l h. symmetry.
  rewrite bind_assoc. revert tr l h. apply bind_cong. intros r tr l h.
  cbv zeta.
  rewrite bind_assoc. revert tr l h. apply bind_cong. intros _ tr l h.
  rewrite bind_assoc. revert tr l h. apply bind_cong. intros _ tr l h.
  rewrite bind_assoc. revert tr l h. apply bind_cong. intros _ tr l h.
  reflexivity.
Qed.

Lemma sim_put (x x' : Switch) : agrees x x' -> simulates (put x) (put x').
Proof. intros H tr l l' h _. now exists x, x', h, (Return tt), (Return tt). Qed.

Lemma sim_pages :
  simulates
    (response <- fetch (GET (Legacy.PREFIX ++ "SystemInfoRpm.htm")) ;;
     let data := text response in
     match script_present (extractTagContent data "script" 0) with
     | Some scrpt =>
         hardware <- stripQuotes_of (extractAttribute scrpt "hardwareStr") ;;
         fimrware <- stripQuotes_of (extractAttribute scrpt "firmwareStr") ;;
         name <- stripQuotes_of (extractAttribute scrpt "descriStr") ;;
         mac <- stripQuotes_of (extractAttribute scrpt "macStr") ;;
         ip <- stripQuotes_of (extractAttribute scrpt "ipStr") ;;
         netmask <- stripQuotes_of (extractAttribute scrpt "netmaskStr") ;;
         gateway <- stripQuotes_of (extractAttribute scrpt "gatewayStr") ;;
         put (MkSwitch (Some hardware) (Some fimrware) (Some name) (Some mac)
                (Some ip) (Some netmask) (Some gateway)
                (Some (Str "")) (Some []) (Some []))
     | None => ret tt
     end ;;
     Legacy.portInfo1 ;;
     Legacy.portInfo2 ;;
     Legacy.vlanInfo1)
    (pages_of "192.168.178.101").
Proof.
  unfold pages_of.
  apply sim_bind; [apply sim_fetch | intros r]. cbv zeta.
  apply sim_bind.
  { destruct (script_present _); [| apply sim_ret].
    do 7 (apply sim_bind; [apply sim_stripQuotes_of | intros ?]).
    apply sim_put. repeat split; constructor. }
  intros _. apply sim_bind; [apply sim_portInfo1 | intros _].
  apply sim_bind; [apply sim_portInfo2 | intros _].
  apply sim_vlanInfo.
Qed.

Lemma agrees_empty : agrees empty_switch empty_switch.
Proof. now repeat split. Qed.

Lemma run_put_then {A : Type} (x : Switch) (m : Prog Switch A)
    (tr : transport) (l : Switch) (h : list request) :
  (put x ;; m) tr l h = m tr x h.
Proof. reflexivity. Qed.

Lemma run_then_get (m : Prog Switch unit) (tr : transport) (l : Switch)
    (h : list request) :
  (m ;; swtch <- get ;; ret swtch) tr l h
  = match m tr l h with
    | (s, t, Return _) => (s, t, Return s)
    | (s, t, Throw e) => (s, t, Throw e)
    | (s, t, Exit c) => (s, t, Exit c)
    end.
Proof. reflexivity. Qed.

Lemma guarded_never_throws {L A : Type} (m : Prog L A) (tr : transport)
    (l : L) (h : list request) (e : exn) :
  snd (Legacy.guarded m tr l h) <> Throw e.
Proof.
  unfold Legacy.guarded, try_catch, exit.
  destruct (m tr l h) as [[l1 h1] [a|e1|c]]; discriminate.
Qed.

Lemma legacy_switchInfo_run (tr : transport) (l l' : Switch)
    (h : list request) :
  exists s s' t o o',
    Legacy.switchInfo tr l h = (s, t, o)
    /\ _switchInfo "192.168.178.101" tr l' h = (s', t, o')
    /\ match o, o' with
       | Return r, Return r' => agrees r r'
       | Exit c, Throw _ => c = 1%Z
       | _, _ => False
       end.
Proof.
  rewrite switchInfo_pages. unfold Legacy.switchInfo.
  rewrite !run_put_then, !run_then_get.
  destruct (sim_guarded _ _ sim_pages tr empty_switch empty_switch h
              agrees_empty)
    as (s & s' & t & o & o' & E & E' & Ha & He).
  cbv zeta in E. rewrite E, E'.
  destruct o as [a|e|c], o' as [a'|e'|c']; simpl in He; try contradiction.
  - now exists s, s', t, (Return s), (Return s').
  - exfalso. eapply guarded_never_throws. rewrite E. reflexivity.
  - now exists s, s', t, (Exit c), (Throw e').
Qed.

(** X18.  The reader of the earlier script and [_switchInfo] at its address
    send the same requests to every device, and they end alike: where the
    later one throws, the earlier one ends the process with code 1, and it
    never throws itself; where the later one returns, so does the earlier
    one, and the two switch objects agree on the identity, on the VLAN table
    and, port by port, on the number, the link and the four counters.  They
    differ in [vlan] and in the [state] and [speed] of a port, for which the
    earlier script stores numbers and indexes another table. *)
Theorem legacy_reader_agrees (tr : transport) (l l' : Switch) :
  trace_of Legacy.switchInfo tr l
  = trace_of (_switchInfo "192.168.178.101") tr l'
  /\ match result_of Legacy.switchInfo tr l,
           result_of (_switchInfo "192.168.178.101") tr l' with
     | Return s, Return s' => agrees s s'
     | Exit c, Throw _ => c = 1%Z
     | _, _ => False
     end.
Proof.
  unfold trace_of, result_of, run.
  destruct (legacy_switchInfo_run tr l l' [])
    as (s & s' & t & o & o' & -> & -> & H).
  split; [reflexivity | exact H].
Qed.

Lemma halts_quiet {L A : Type} (m : Prog L A) :
  quiet (fun _ => False) m -> halts [] m.
Proof.
  intros Hm tr l h. destruct (Hm tr l h) as (l' & ext & o & E & HF & Hx).
  destruct ext as [|rq ext]; [| now inversion HF].
  exists l', 0, o. simpl.
  split; [assumption |]. split; [lia |]. split; [reflexivity |].
  split; [assumption |]. intros i rq e Hi. lia.
Qed.

Lemma halts_fetch_bind {L A : Type} (rq : request) (rs : list request)
    (f : response -> Prog L A) :
  (forall r, halts rs (f r)) -> halts (rq :: rs) (bind (fetch rq) f).
Proof.
  intros Hf tr l h. unfold bind, fetch.
  destruct (tr h rq) as [e|r] eqn:Etr.
  - exists l, 1, (Throw e). simpl.
    split; [reflexivity |]. split; [lia |]. split; [discriminate |].
    split; [discriminate |].
    intros i rq' e' Hi Hnth Hrej.
    assert (i = 0) as -> by lia. simpl in Hnth, Hrej.
    injection Hnth as <-. rewrite app_nil_r in Hrej.
    split; [reflexivity | congruence].
  - destruct (Hf r tr l (h ++ [rq])%list)
      as (l' & k & o & E & Hk & Hr & Hx & Hrej).
    exists l', (S k), o. rewrite E, <- app_assoc. simpl.
    split; [reflexivity |]. split; [lia |].
    split; [intros a Ha; now rewrite (Hr a Ha) |].
    split; [assumption |].
    intros i rq' e' Hi Hnth Hrj. destruct i as [|i]; simpl in Hnth, Hrj.
    + injection Hnth as <-. rewrite app_nil_r in Hrj. congruence.
    + destruct (Hrej i rq' e') as [-> ->];
        [lia | assumption | now rewrite <- app_assoc | now split].
Qed.

Lemma halts_bind {L A B : Type} (r1 r2 : list request) (m : Prog L A)
    (f : A -> Prog L B) :
  halts r1 m -> (forall a, halts r2 (f a)) -> halts (r1 ++ r2) (bind m f).
Proof.
  intros Hm Hf tr l h. unfold bind.
  destruct (Hm tr l h) as (l1 & k1 & o1 & -> & Hk1 & Hr1 & Hx1 & Hj1).
  destruct o1 as [a|e|c].
  - pose proof (Hr1 a eq_refl) as ->. rewrite firstn_all.
    destruct (Hf a tr l1 (h ++ r1)%list)
      as (l2 & k2 & o2 & -> & Hk2 & Hr2 & Hx2 & Hj2).
    exists l2, (List.length r1 + k2), o2.
    rewrite firstn_app_2, <- app_assoc, length_app.
    split; [reflexivity |]. split; [lia |].
    split; [intros b Hb; now rewrite (Hr2 b Hb) |].
    split; [assumption |].
    intros i rq e Hi Hnth Hrj.
    destruct (Nat.lt_ge_cases i (List.length r1)) as [Hlt | Hge].
    + rewrite nth_error_app1 in Hnth by assumption.
      rewrite firstn_app in Hrj.
      replace (i - List.length r1) with 0 in Hrj by lia.
      rewrite firstn_O, app_nil_r in Hrj.
      destruct (Hj1 i rq e Hlt Hnth Hrj) as [_ Habs]. discriminate.
    + rewrite nth_error_app2 in Hnth by assumption.
      replace i with (List.length r1 + (i - List.length r1)) in Hrj by lia.
      rewrite firstn_app_2, app_assoc in Hrj.
      destruct (Hj2 (i - List.length r1) rq e) as [-> ->];
        [lia | assumption | assumption |].
      split; [lia | reflexivity].
  - exists l1, k1, (Throw e).
    rewrite firstn_app, length_app.
    replace (k1 - List.length r1) with 0 by lia.
    rewrite firstn_O, app_nil_r.
    split; [reflexivity |]. split; [lia |]. split; [discriminate |].
    split; [discriminate |].
    intros i rq e' Hi Hnth Hrj.
    rewrite nth_error_app1 in Hnth by lia.
    rewrite firstn_app in Hrj.
    replace (i - List.length r1) with 0 in Hrj by lia.
    rewrite firstn_O, app_nil_r in Hrj.
    destruct (Hj1 i rq e' Hi Hnth Hrj) as [-> He].
    split; [reflexivity | congruence].
  - now destruct (Hx1 c).
Qed.

Lemma halts_then {L A B : Type} (rs : list request) (m : Prog L A)
    (f : A -> Prog L B) :
  quiet (fun _ => False) m -> (forall a, halts rs (f a)) ->
  halts rs (bind m f).
Proof.
  intros Hm Hf. apply (halts_bind [] rs); [now apply halts_quiet | assumption].
Qed.

Lemma halts_page {L A : Type} (rq : request) (f : response -> Prog L A) :
  (forall r, quiet (fun _ => False) (f r)) -> halts [rq] (bind (fetch rq) f).
Proof. intros Hf. apply halts_fetch_bind. intros r. apply halts_quiet, Hf. Qed.

Lemma halts_switchInfo (server : string) :
  halts [GET ("http://" ++ server ++ SWITCH_INFO_PATH);
         GET ("http://" ++ server ++ PORT_INFO_1_PATH);
         GET ("http://" ++ server ++ PORT_INFO_2_PATH);
         GET ("http://" ++ server ++ VLAN_INFO_PATH)] (_switchInfo server).
Proof.
  unfold _switchInfo.
  apply halts_then; [apply quiet_put | intros _].
  apply halts_fetch_bind. intros r. cbv zeta.
  apply halts_then;
    [unfold stripQuotes_of; repeat quiet_step | intros _].
  apply (halts_bind [_] [_; _]).
  { unfold _portInfo1. apply halts_page. intros r1.
    unfold split_of, allocate_port, update_port. repeat quiet_step. }
  intros _. apply (halts_bind [_] [_]).
  { unfold _portInfo2. apply halts_page. intros r2.
    unfold split_of, update_port. repeat quiet_step. }
  intros _. apply (halts_bind [_] []).
  { unfold _vlanInfo. apply halts_page. intros r3.
    unfold split_of, stripQuotes_of, allocate_vlan, update_vlan.
    repeat quiet_step. }
  intros _. apply halts_quiet. repeat quiet_step.
Qed.

(** X19.  The main routine of the earlier script sends a non-empty prefix of
    the six requests of [Info] to its fixed address, in the same order.  A
    request that is rejected is the last one sent, and the process ends
    with code 1.  When the login is answered and one of the four pages
    cannot be read (the reader of the later script throws on the same
    answers), the process ends with code 1 with the requests of the reader
    sent and no logout.  The routine returns only after all six requests;
    it throws only what the YAML printer throws, after the four pages and
    before the logout; and the process ends, with code 1, only after a
    rejected request or a page that cannot be read. *)
Theorem legacy_main_ends (dump : Switch -> option exn) (tr : transport) :
  let six := Info_requests "192.168.178.101" "admin" "admin" in
  let login := login_request "192.168.178.101" "admin" "admin" None in
  let reader := _switchInfo "192.168.178.101" tr empty_switch [login] in
  exists k,
    1 <= k <= 6
    /\ trace_of (Legacy.main dump) tr tt = firstn k six
    /\ (forall i rq e,
          i < k -> nth_error six i = Some rq ->
          tr (firstn i six) rq = inl e ->
          k = S i /\ result_of (Legacy.main dump) tr tt = Exit 1%Z)
    /\ (forall r e,
          tr [] login = inr r -> snd reader = Throw e ->
          result_of (Legacy.main dump) tr tt = Exit 1%Z
          /\ trace_of (Legacy.main dump) tr tt = snd (fst reader)
          /\ k <= 5)
    /\ match result_of (Legacy.main dump) tr tt with
       | Return _ => k = 6
       | Throw e => k = 5 /\ exists s, dump s = Some e
       | Exit c =>
           c = 1%Z
           /\ ((exists rq e, nth_error six (k - 1) = Some rq
                             /\ tr (firstn (k - 1) six) rq = inl e)
               \/ exists e, snd reader = Throw e)
       end.
Proof.
  intros six login reader.
  assert (exists k o,
             Legacy.main dump tr tt [] = (tt, firstn k six, o)
             /\ 1 <= k <= 6
             /\ (forall i rq e,
                   i < k -> nth_error six i = Some rq ->
                   tr (firstn i six) rq = inl e ->
                   k = S i /\ o = Exit 1%Z)
             /\ (forall r e,
                   tr [] login = inr r -> snd reader = Throw e ->
                   o = Exit 1%Z /\ firstn k six = snd (fst reader) /\ k <= 5)
             /\ match o with
                | Return _ => k = 6
                | Throw e => k = 5 /\ exists s, dump s = Some e
                | Exit c =>
                    c = 1%Z
                    /\ ((exists rq e, nth_error six (k - 1) = Some rq
                                      /\ tr (firstn (k - 1) six) rq = inl e)
                        \/ exists e, snd reader = Throw e)
                end) as (k & o & E & Hk & Hrej & Hpage & Ho).
  { unfold Legacy.main. unfold bind at 1.
    unfold Legacy.login at 1, Legacy.guarded at 1, try_catch at 1.
    unfold bind at 1, fetch at 1.
    change (Request "POST" (Legacy.PREFIX ++ "logon.cgi")
              [("username", Legacy.USERNAME); ("password", Legacy.PASSWORD);
               ("logon", "Login")] None) with login.
    destruct (tr [] login) as [e0|r0] eqn:Elogin.
    - exists 1, (Exit 1%Z). unfold exit. simpl.
      split; [reflexivity |]. split; [lia |].
      split; [| split].
      + intros i rq e Hi _ _. split; [lia | reflexivity].
      + intros r e Hr. discriminate.
      + split; [reflexivity |]. left. exists login, e0. now split.
    - unfold ret at 1. unfold bind at 1. unfold call at 1.
      destruct (legacy_switchInfo_run tr empty_switch empty_switch
                  ([] ++ [login])%list)
        as (s & s' & t & o & o' & E & E' & Hrel).
      destruct (halts_switchInfo "192.168.178.101" tr empty_switch
                  ([] ++ [login])%list)
        as (l2 & k & o2 & E2 & Hk & Hr & Hx & Hj).
      rewrite E2 in E'. injection E' as <- <- <-. rewrite E.
      assert (forall i rq e,
                 i < S k -> nth_error six i = Some rq ->
                 tr (firstn i six) rq = inl e ->
                 k = i /\ o2 = Throw e) as Hrej.
      { intros i rq e Hi Hnth Hrj. destruct i as [|i].
        - change (Some login = Some rq) in Hnth. injection Hnth as <-.
          change (tr [] login = inl e) in Hrj. congruence.
        - simpl in Hk. destruct (Hj i rq e) as [-> ->]; [lia | | | now split].
          + do 4 (destruct i as [|i]; [exact Hnth |]). lia.
          + do 4 (destruct i as [|i]; [exact Hrj |]). lia. }
      assert (firstn (S k) six
              = (([] ++ [login]) ++ firstn k
                   [GET ("http://" ++ "192.168.178.101" ++ SWITCH_INFO_PATH);
                    GET ("http://" ++ "192.168.178.101" ++ PORT_INFO_1_PATH);
                    GET ("http://" ++ "192.168.178.101" ++ PORT_INFO_2_PATH);
                    GET ("http://" ++ "192.168.178.101" ++ VLAN_INFO_PATH)])%list)
        as Hpre.
      { simpl in Hk. do 5 (destruct k as [|k]; [reflexivity |]). lia. }
      assert (reader = (l2, firstn (S k) six, o2)) as Hreader
        by (rewrite Hpre; exact E2).
      destruct o as [r1|e1|c], o2 as [r2|e2|c2]; try contradiction.
      + assert (k = 4) as -> by (now rewrite (Hr r2 eq_refl)).
        unfold bind at 1.
        destruct (dump r1) as [e|] eqn:Ed.
        * exists 5, (Throw e). unfold throw.
          split; [reflexivity |]. split; [lia |].
          split; [| split].
          -- intros i rq e' Hi Hnth Hrj.
             destruct (Hrej i rq e' Hi Hnth Hrj) as [_ Habs]. discriminate.
          -- intros r e' _ Hthrow. rewrite Hreader in Hthrow. discriminate.
          -- split; [reflexivity | now exists r1].
        * unfold ret at 1.
          unfold Legacy.logout, Legacy.guarded, try_catch.
          unfold bind at 1, fetch at 1.
          change (GET (Legacy.PREFIX ++ "Logout.htm"))
            with (logout_request "192.168.178.101").
          destruct (tr _ (logout_request "192.168.178.101")) as [e|r']
            eqn:Elogout.
          -- exists 6, (Exit 1%Z). unfold exit.
             split; [reflexivity |]. split; [lia |].
             split; [| split].
             ++ intros i rq e' Hi Hnth Hrj.
                destruct (Nat.eq_dec i 5) as [-> | Hne];
                  [now split |].
                destruct (Hrej i rq e' ltac:(lia) Hnth Hrj) as [_ Habs].
                discriminate.
             ++ intros r e' _ Hthrow. rewrite Hreader in Hthrow.
                discriminate.
             ++ split; [reflexivity |]. left.
                exists (logout_request "192.168.178.101"), e.
                split; [reflexivity | exact Elogout].
          -- exists 6, (Return tt). unfold ret.
             split; [reflexivity |]. split; [lia |].
             split; [| split].
             ++ intros i rq e' Hi Hnth Hrj.
                destruct (Nat.eq_dec i 5) as [-> | Hne].
                ** change (Some (logout_request "192.168.178.101") = Some rq)
                     in Hnth.
                   injection Hnth as <-.
                   assert (tr (firstn 5 six)
                             (logout_request "192.168.178.101") = inr r')
                     as Hans by exact Elogout.
                   congruence.
                ** destruct (Hrej i rq e' ltac:(lia) Hnth Hrj) as [_ Habs].
                   discriminate.
             ++ intros r e' _ Hthrow. rewrite Hreader in Hthrow.
                discriminate.
             ++ reflexivity.
      + exists (S k), (Exit c). simpl in Hk. subst c.
        split; [now rewrite Hpre |]. split; [lia |].
        split; [| split].
        * intros i rq e' Hi Hnth Hrj.
          destruct (Hrej i rq e' Hi Hnth Hrj) as [-> _]. now split.
        * intros r e' _ _. split; [reflexivity |].
          split; [now rewrite Hreader | lia].
        * split; [reflexivity |]. right. exists e2. now rewrite Hreader. }
  exists k. unfold trace_of, result_of, run. rewrite E.
  split; [exact Hk |]. split; [reflexivity |].
  split; [exact Hrej |]. split; [exact Hpage | exact Ho].
Qed.

Lemma legacy_main_ends_witness :
  result_of (Legacy.main (fun _ => None)) (fun _ _ => inl AbortError) tt
  = Exit 1%Z.
Proof.
  destruct (legacy_main_ends (fun _ => None) (fun _ _ => inl AbortError))
    as (k & Hk & _ & Hrej & _).
  exact (proj2 (Hrej 0 _ AbortError ltac:(lia) eq_refl eq_refl)).
Defined.
